(** * ESP RainMaker CLI: the OTA firmware-upgrade command

    A shallow embedding of [ota_upgrade] from [cli/rmaker_cmd/node.py] and
    the properties of its two retry loops (upload, then activate and poll).

    The collaborators of the command ([rmaker_lib.session], [rmaker_lib.node],
    [rmaker_lib.service], the file system and the clock) are kept abstract:
    they are fields of a record of state transformers over an arbitrary
    world type, so every theorem holds whatever they answer.  The command
    itself is written in a small state / exception / break monad that also
    records the observable events (collaborator calls, sleeps, prints and
    log lines) in the order in which the code produces them.

    The other commands of the file ([get_nodes], [get_node_config],
    [get_node_status], [set_params], [get_params], [remove_node],
    [get_mqtt_host] and [claim_node]) are embedded in module [Cli], over a
    record of what they call, and their outcomes are proved after the
    properties of [ota_upgrade]. *)

From Stdlib Require Import List String Ascii Bool Arith NArith ZArith Lia.
From Stdlib Require Import Strings.Byte.
Import ListNotations.
Local Open Scope string_scope.
Local Open Scope list_scope.

Set Implicit Arguments.
Set Warnings "-register-all".

(** ** Python values *)

(** An instance of a class of [rmaker_lib] (a session, a node, a service). *)
Inductive obj := Obj (id : nat).

(** The values the command handles: JSON-like documents coming back from the
    cloud API, and opaque class instances. *)
Inductive pyval :=
| PNone
| PBool (b : bool)
| PInt (z : Z)
| PStr (s : string)
| PList (xs : list pyval)
| PDict (kvs : list (string * pyval))
| PObj (o : obj).

(** The exception classes the command distinguishes; all of them derive from
    [Exception]. *)
Inductive exn :=
| SSLError
| NetworkError
| RequestTimeoutError
| InvalidJSONError
| KeyError (key : string)
| TypeError
| OSError
| OtherException (name : string).

Inductive res (A : Type) :=
| Ok (a : A)
| Raise (e : exn).
Arguments Raise {A} e.

(** [bool(v)]: the truth value Python gives to [v] in [if not v]. *)
Definition truthy (v : pyval) : bool :=
  match v with
  | PNone => false
  | PBool b => b
  | PInt z => negb (Z.eqb z 0)
  | PStr s => negb (String.eqb s "")
  | PList xs => match xs with [] => false | _ => true end
  | PDict kvs => match kvs with [] => false | _ => true end
  | PObj _ => true
  end.

(** [v is None]. *)
Definition is_None (v : pyval) : bool :=
  match v with PNone => true | _ => false end.

(** ** Strings *)

Fixpoint startswith (p s : string) : bool :=
  match p with
  | EmptyString => true
  | String a p' =>
      match s with
      | EmptyString => false
      | String b s' => Ascii.eqb a b && startswith p' s'
      end
  end.

Fixpoint endswith_char (c : ascii) (s : string) : bool :=
  match s with
  | EmptyString => false
  | String a EmptyString => Ascii.eqb a c
  | String _ s' => endswith_char c s'
  end.

(** [needle in s] for two strings. *)
Fixpoint str_contains (needle s : string) : bool :=
  startswith needle s ||
  match s with
  | EmptyString => false
  | String _ s' => str_contains needle s'
  end.

(** [s.split(sep)] for a non-empty [sep]: the pieces of [s] between the
    occurrences of [sep], scanned from the left.  The result is the first
    piece and the list of the following ones; [skip] counts the characters of
    a separator that are still to be stepped over. *)
Fixpoint split_from (sep : string) (skip : nat) (s : string) : string * list string :=
  match s with
  | EmptyString => (EmptyString, [])
  | String c s' =>
      match skip with
      | S k => split_from sep k s'
      | O =>
          if startswith sep s
          then (EmptyString,
                let (p, ps) := split_from sep (String.length sep - 1) s' in p :: ps)
          else let (p, ps) := split_from sep 0 s' in (String c p, ps)
      end
  end.

Definition split (sep s : string) : list string :=
  let (p, ps) := split_from sep 0 s in p :: ps.

(** [l[0]] and [l[-1]] on the list a [split] returns (never empty). *)
Definition first_item (l : list string) : string := hd EmptyString l.
Definition last_item (l : list string) : string := last l EmptyString.

(** [os.path.isabs] and [os.path.join] of [posixpath]. *)
Definition os_path_isabs (p : string) : bool := startswith "/" p.

Definition os_path_join (a b : string) : string :=
  if startswith "/" b then b
  else if String.eqb a "" || endswith_char "/" a then a ++ b
  else a ++ "/" ++ b.

(** [img_file_path.split('/')[-1].split('.bin')[0]] *)
Definition img_name_of (img_file_path : string) : string :=
  first_item (split ".bin" (last_item (split "/" img_file_path))).

(** ** Base64 ([base64.b64encode(...).decode('ascii')]) *)

Definition b64_alphabet : string :=
  "ABCDEFGHIJKLMNOPQRSTUVWXYZabcdefghijklmnopqrstuvwxyz0123456789+/".

Definition b64_digit (n : N) : ascii :=
  match String.get (N.to_nat n) b64_alphabet with
  | Some c => c
  | None => "="%char
  end.

Fixpoint b64encode (bs : list byte) : string :=
  match bs with
  | [] => EmptyString
  | [a] =>
      let x := Byte.to_N a in
      String (b64_digit (x / 4))
        (String (b64_digit ((x mod 4) * 16)) "==")
  | [a; b] =>
      let x := Byte.to_N a in
      let y := Byte.to_N b in
      String (b64_digit (x / 4))
        (String (b64_digit ((x mod 4) * 16 + y / 16))
           (String (b64_digit ((y mod 16) * 4)) "="))
  | a :: b :: c :: rest =>
      let x := Byte.to_N a in
      let y := Byte.to_N b in
      let z := Byte.to_N c in
      String (b64_digit (x / 4))
        (String (b64_digit ((x mod 4) * 16 + y / 16))
           (String (b64_digit ((y mod 16) * 4 + z / 64))
              (String (b64_digit (z mod 64)) (b64encode rest))))
  end%N.

(** ** Operators on values that may raise *)

(** [v[key]] for a string [key]. *)
Fixpoint lookup (key : string) (kvs : list (string * pyval)) : option pyval :=
  match kvs with
  | [] => None
  | (k, v) :: rest => if String.eqb k key then Some v else lookup key rest
  end.

Definition subscript (v : pyval) (key : string) : res pyval :=
  match v with
  | PDict kvs =>
      match lookup key kvs with
      | Some x => Ok x
      | None => Raise (KeyError key)
      end
  | _ => Raise TypeError
  end.

Definition is_str (key : string) (v : pyval) : bool :=
  match v with PStr s => String.eqb s key | _ => false end.

(** [key in v] for a string [key]: substring test on a string, membership on
    a list, key membership on a dict, [TypeError] on anything else. *)
Definition contains (key : string) (v : pyval) : res bool :=
  match v with
  | PStr s => Ok (str_contains key s)
  | PList xs => Ok (existsb (is_str key) xs)
  | PDict kvs => Ok (existsb (fun kv => String.eqb (fst kv) key) kvs)
  | _ => Raise TypeError
  end.

(** [v in [None, False]]: membership compares with [==], and [0 == False]. *)
Definition in_None_False (v : pyval) : bool :=
  match v with
  | PNone => true
  | PBool b => negb b
  | PInt z => Z.eqb z 0
  | _ => false
  end.

(** [os.fspath]: what [os.path.isabs] accepts as a path. *)
Definition fspath (v : pyval) : res string :=
  match v with
  | PStr s => Ok s
  | _ => Raise TypeError
  end.

(** Whether [json.dumps(v)] succeeds: class instances are not serialisable. *)
Fixpoint json_serialisable (v : pyval) : bool :=
  match v with
  | PObj _ => false
  | PList xs => forallb json_serialisable xs
  | PDict kvs => forallb (fun kv : string * pyval => json_serialisable (snd kv)) kvs
  | _ => true
  end.

(** ** Observable events *)

(** A call the command makes to a collaborator, with its arguments. *)
Inductive call :=
| c_getcwd
| c_open_read (path : string)
| c_Session
| c_Node (node_id curr_session : pyval)
| c_Service
| c_verify_service_exists (service_obj node_object : pyval) (service_type : string)
| c_upload_ota_image (service_obj node_object : pyval) (img_name base64_fw_img : string)
| c_get_service_params (service_obj service_config : pyval)
| c_get_node_params (node_object : pyval)
| c_start_ota (service_obj node_object node_params service_name
                 service_write_params param_url_to_set : pyval)
| c_check_ota_status (service_obj node_object service_name service_read_params : pyval).

(** The sub-step a call belongs to. *)
Inductive step :=
| GetCwd | ReadImage
| NewSession | NewNode | NewService | VerifyService | UploadImage
| GetServiceParams | GetNodeParams | StartOta | CheckOtaStatus.

Definition step_of (c : call) : step :=
  match c with
  | c_getcwd => GetCwd
  | c_open_read _ => ReadImage
  | c_Session => NewSession
  | c_Node _ _ => NewNode
  | c_Service => NewService
  | c_verify_service_exists _ _ _ => VerifyService
  | c_upload_ota_image _ _ _ _ => UploadImage
  | c_get_service_params _ _ => GetServiceParams
  | c_get_node_params _ => GetNodeParams
  | c_start_ota _ _ _ _ _ _ => StartOta
  | c_check_ota_status _ _ _ _ => CheckOtaStatus
  end.

Definition step_eqb (a b : step) : bool :=
  match a, b with
  | GetCwd, GetCwd | ReadImage, ReadImage | NewSession, NewSession
  | NewNode, NewNode | NewService, NewService | VerifyService, VerifyService
  | UploadImage, UploadImage | GetServiceParams, GetServiceParams
  | GetNodeParams, GetNodeParams | StartOta, StartOta
  | CheckOtaStatus, CheckOtaStatus => true
  | _, _ => false
  end.

(** What a call returned. *)
Inductive retval :=
| RStr (s : string)
| RBytes (bs : list byte)
| RObj (o : obj)
| RVal (v : pyval)
| RPair (a b : pyval).

(** A printed or logged line: literal text and the values formatted into it. *)
Inductive part :=
| Lit (s : string)
| StrOf (v : pyval)
| JsonOf (v : pyval)
| ExnOf (e : exn)
| NumOf (n : nat).

Definition msg := list part.

Inductive level := Debug | Info | Warn | Error.

Inductive event :=
| EvCall (c : call) (r : res retval)
| EvSleep (seconds : nat)
| EvPrint (m : msg)
| EvLog (l : level) (m : msg).

Definition trace := list event.

(** ** Collaborators *)

(** Everything [ota_upgrade] calls outside [node.py], over a world [W] that
    the calls read and change.  [Session], [Node] and [Service] are
    constructors: when they return, they return an instance. *)
Record collab (W : Type) := {
  OTA_SERVICE_TYPE : string;
  os_getcwd : W -> res string * W;
  open_read : string -> W -> res (list byte) * W;
  Session : W -> res obj * W;
  Node : pyval -> pyval -> W -> res obj * W;
  Service : W -> res obj * W;
  verify_service_exists : pyval -> pyval -> string -> W -> res (pyval * pyval) * W;
  upload_ota_image : pyval -> pyval -> string -> string -> W -> res (pyval * pyval) * W;
  get_service_params : pyval -> pyval -> W -> res (pyval * pyval) * W;
  get_node_params : pyval -> W -> res pyval * W;
  start_ota : pyval -> pyval -> pyval -> pyval -> pyval -> pyval -> W -> res pyval * W;
  check_ota_status : pyval -> pyval -> pyval -> pyval -> W -> res pyval * W
}.

(** ** The local variables of [ota_upgrade] *)

Record locals := {
  node_object : pyval;
  status : pyval;
  response : pyval;
  service_name : pyval;
  service_obj : pyval;
  service_config : pyval;
  node_params : pyval;
  param_url_to_set : pyval;
  curr_session : pyval;
  ota_start_status : pyval;
  service_read_params : pyval;
  service_write_params : pyval;
  ota_status : pyval
}.

Definition all_None : locals :=
  {| node_object := PNone; status := PNone; response := PNone;
     service_name := PNone; service_obj := PNone; service_config := PNone;
     node_params := PNone; param_url_to_set := PNone; curr_session := PNone;
     ota_start_status := PNone; service_read_params := PNone;
     service_write_params := PNone; ota_status := PNone |}.

Definition with_curr_session (v : pyval) (l : locals) : locals :=
  {| node_object := node_object l; status := status l; response := response l;
     service_name := service_name l; service_obj := service_obj l;
     service_config := service_config l; node_params := node_params l;
     param_url_to_set := param_url_to_set l; curr_session := v;
     ota_start_status := ota_start_status l;
     service_read_params := service_read_params l;
     service_write_params := service_write_params l; ota_status := ota_status l |}.

Definition with_node_object (v : pyval) (l : locals) : locals :=
  {| node_object := v; status := status l; response := response l;
     service_name := service_name l; service_obj := service_obj l;
     service_config := service_config l; node_params := node_params l;
     param_url_to_set := param_url_to_set l; curr_session := curr_session l;
     ota_start_status := ota_start_status l;
     service_read_params := service_read_params l;
     service_write_params := service_write_params l; ota_status := ota_status l |}.

Definition with_service_obj (v : pyval) (l : locals) : locals :=
  {| node_object := node_object l; status := status l; response := response l;
     service_name := service_name l; service_obj := v;
     service_config := service_config l; node_params := node_params l;
     param_url_to_set := param_url_to_set l; curr_session := curr_session l;
     ota_start_status := ota_start_status l;
     service_read_params := service_read_params l;
     service_write_params := service_write_params l; ota_status := ota_status l |}.

Definition with_service (config name : pyval) (l : locals) : locals :=
  {| node_object := node_object l; status := status l; response := response l;
     service_name := name; service_obj := service_obj l;
     service_config := config; node_params := node_params l;
     param_url_to_set := param_url_to_set l; curr_session := curr_session l;
     ota_start_status := ota_start_status l;
     service_read_params := service_read_params l;
     service_write_params := service_write_params l; ota_status := ota_status l |}.

Definition with_upload (st resp : pyval) (l : locals) : locals :=
  {| node_object := node_object l; status := st; response := resp;
     service_name := service_name l; service_obj := service_obj l;
     service_config := service_config l; node_params := node_params l;
     param_url_to_set := param_url_to_set l; curr_session := curr_session l;
     ota_start_status := ota_start_status l;
     service_read_params := service_read_params l;
     service_write_params := service_write_params l; ota_status := ota_status l |}.

Definition with_param_url_to_set (v : pyval) (l : locals) : locals :=
  {| node_object := node_object l; status := status l; response := response l;
     service_name := service_name l; service_obj := service_obj l;
     service_config := service_config l; node_params := node_params l;
     param_url_to_set := v; curr_session := curr_session l;
     ota_start_status := ota_start_status l;
     service_read_params := service_read_params l;
     service_write_params := service_write_params l; ota_status := ota_status l |}.

Definition with_service_params (rd wr : pyval) (l : locals) : locals :=
  {| node_object := node_object l; status := status l; response := response l;
     service_name := service_name l; service_obj := service_obj l;
     service_config := service_config l; node_params := node_params l;
     param_url_to_set := param_url_to_set l; curr_session := curr_session l;
     ota_start_status := ota_start_status l;
     service_read_params := rd;
     service_write_params := wr; ota_status := ota_status l |}.

Definition with_node_params (v : pyval) (l : locals) : locals :=
  {| node_object := node_object l; status := status l; response := response l;
     service_name := service_name l; service_obj := service_obj l;
     service_config := service_config l; node_params := v;
     param_url_to_set := param_url_to_set l; curr_session := curr_session l;
     ota_start_status := ota_start_status l;
     service_read_params := service_read_params l;
     service_write_params := service_write_params l; ota_status := ota_status l |}.

Definition with_ota_start_status (v : pyval) (l : locals) : locals :=
  {| node_object := node_object l; status := status l; response := response l;
     service_name := service_name l; service_obj := service_obj l;
     service_config := service_config l; node_params := node_params l;
     param_url_to_set := param_url_to_set l; curr_session := curr_session l;
     ota_start_status := v;
     service_read_params := service_read_params l;
     service_write_params := service_write_params l; ota_status := ota_status l |}.

Definition with_ota_status (v : pyval) (l : locals) : locals :=
  {| node_object := node_object l; status := status l; response := response l;
     service_name := service_name l; service_obj := service_obj l;
     service_config := service_config l; node_params := node_params l;
     param_url_to_set := param_url_to_set l; curr_session := curr_session l;
     ota_start_status := ota_start_status l;
     service_read_params := service_read_params l;
     service_write_params := service_write_params l; ota_status := v |}.

(** Lines 330-339: the variables of the upload phase start as [None]. *)
Definition init_upload (l : locals) : locals :=
  {| node_object := PNone; status := PNone; response := PNone;
     service_name := PNone; service_obj := PNone; service_config := PNone;
     node_params := PNone; param_url_to_set := PNone; curr_session := PNone;
     ota_start_status := ota_start_status l;
     service_read_params := service_read_params l;
     service_write_params := service_write_params l; ota_status := ota_status l |}.

(** Lines 400-404: the variables of the activation phase start as [None]. *)
Definition init_activate (l : locals) : locals :=
  {| node_object := node_object l; status := status l; response := response l;
     service_name := service_name l; service_obj := service_obj l;
     service_config := service_config l; node_params := PNone;
     param_url_to_set := param_url_to_set l; curr_session := curr_session l;
     ota_start_status := PNone;
     service_read_params := PNone;
     service_write_params := PNone; ota_status := PNone |}.

Definition MAX_HTTP_CONNECTION_RETRIES : nat := 5.

Definition newline : string := String (ascii_of_nat 10) EmptyString.

(** ** Control: normal completion, [break], or a raised exception *)

Inductive ctl (A : Type) :=
| Norm (a : A)
| Brk
| Exc (e : exn).
Arguments Brk {A}.
Arguments Exc {A} e.

Section Command.

Variable W : Type.
Variable env : collab W.

(** A piece of the command: from the local variables and the world to how it
    ended, the new variables, the new world and the events it produced. *)
Definition M (A : Type) : Type := locals -> W -> ctl A * locals * W * trace.

Definition ret {A} (a : A) : M A := fun l w => (Norm a, l, w, []).

Definition bind {A B} (m : M A) (f : A -> M B) : M B := fun l w =>
  match m l w with
  | (Norm a, l1, w1, t1) =>
      match f a l1 w1 with
      | (c, l2, w2, t2) => (c, l2, w2, t1 ++ t2)
      end
  | (Brk, l1, w1, t1) => (Brk, l1, w1, t1)
  | (Exc e, l1, w1, t1) => (Exc e, l1, w1, t1)
  end.

Notation "x <- m ;; k" := (bind m (fun x => k))
  (at level 61, m at next level, right associativity).
Notation "m ;; k" := (bind m (fun _ => k))
  (at level 61, right associativity).

Definition get : M locals := fun l w => (Norm l, l, w, []).
Definition assign (f : locals -> locals) : M unit := fun l w => (Norm tt, f l, w, []).
Definition emit (e : event) : M unit := fun l w => (Norm tt, l, w, [e]).
Definition break : M unit := fun l w => (Brk, l, w, []).
Definition raise {A} (e : exn) : M A := fun l w => (Exc e, l, w, []).

(** An expression that may raise. *)
Definition eval {A} (r : res A) : M A :=
  match r with
  | Ok a => ret a
  | Raise e => raise e
  end.

(** A call to a collaborator: the world moves, the call and its answer are
    recorded, and an exception of the collaborator is raised here. *)
Definition invoke {A} (c : call) (inj : A -> retval) (f : W -> res A * W) : M A :=
  fun l w =>
    match f w with
    | (Ok a, w1) => (Norm a, l, w1, [EvCall c (Ok (inj a))])
    | (Raise e, w1) => (Exc e, l, w1, [EvCall c (Raise e)])
    end.

Definition print (m : msg) : M unit := emit (EvPrint m).
Definition log (lv : level) (m : msg) : M unit := emit (EvLog lv m).
Definition sleep (seconds : nat) : M unit := emit (EvSleep seconds).

(** [if cond: block], the condition read from the local variables. *)
Definition when (cond : locals -> bool) (block : M unit) : M unit := fun l w =>
  if cond l then block l w else ret tt l w.

Definition json_dumps (v : pyval) : M part :=
  if json_serialisable v then ret (JsonOf v) else raise TypeError.

Definition pair_retval (p : pyval * pyval) : retval := RPair (fst p) (snd p).

(** *** The upload phase, lines 344-367: the body of the [try] *)

Definition upload_body (node_id : pyval) (img_name base64_fw_img : string) : M unit :=
  when (fun l => negb (truthy (curr_session l)))
    (s <- invoke c_Session RObj (Session env) ;;
     assign (with_curr_session (PObj s))) ;;
  when (fun l => negb (truthy (node_object l)))
    (l <- get ;;
     n <- invoke (c_Node node_id (curr_session l)) RObj
            (Node env node_id (curr_session l)) ;;
     assign (with_node_object (PObj n)) ;;
     log Info [Lit "Creating service object..."]) ;;
  when (fun l => negb (truthy (service_obj l)))
    (s <- invoke c_Service RObj (Service env) ;;
     assign (with_service_obj (PObj s)) ;;
     log Info [Lit "Checking service "; Lit (OTA_SERVICE_TYPE env);
               Lit " in node config..."] ;;
     print [Lit "Checking "; Lit (OTA_SERVICE_TYPE env); Lit " in node config..."]) ;;
  when (fun l => negb (truthy (service_config l)) && negb (truthy (service_name l)))
    (l <- get ;;
     r <- invoke (c_verify_service_exists (service_obj l) (node_object l)
                    (OTA_SERVICE_TYPE env)) pair_retval
            (verify_service_exists env (service_obj l) (node_object l)
               (OTA_SERVICE_TYPE env)) ;;
     assign (with_service (fst r) (snd r)) ;;
     when (fun l => negb (truthy (service_config l)))
       (log Error [Lit (OTA_SERVICE_TYPE env); Lit " not found."] ;;
        break) ;;
     log Info [Lit "Checking service "; Lit (OTA_SERVICE_TYPE env);
               Lit " in config...Success"] ;;
     log Debug [Lit "Service config received: "; StrOf (fst r);
                Lit " Service name received: "; StrOf (snd r)] ;;
     print [Lit "Uploading OTA Firmware Image...This may take time..."] ;;
     log Info [Lit "Uploading OTA Firmware Image...This may take time..."]) ;;
  when (fun l => negb (truthy (status l)) && negb (truthy (response l)))
    (l <- get ;;
     r <- invoke (c_upload_ota_image (service_obj l) (node_object l)
                    img_name base64_fw_img) pair_retval
            (upload_ota_image env (service_obj l) (node_object l)
               img_name base64_fw_img) ;;
     assign (with_upload (fst r) (snd r)) ;;
     when (fun l => truthy (status l)) break).

(** *** The activation phase, lines 408-432: the body of the [try] *)

Definition activate_body : M unit :=
  l <- get ;;
  has_url <- eval (contains "image_url" (response l)) ;;
  if has_url then
    (u <- eval (subscript (response l) "image_url") ;;
     assign (with_param_url_to_set u) ;;
     when (fun l => negb (truthy (service_read_params l))
                    && negb (truthy (service_write_params l)))
       (log Info [Lit "Getting service params from node config"] ;;
        l <- get ;;
        r <- invoke (c_get_service_params (service_obj l) (service_config l))
               pair_retval
               (get_service_params env (service_obj l) (service_config l)) ;;
        assign (with_service_params (fst r) (snd r)) ;;
        log Debug [Lit "Service params received with read properties: ";
                   StrOf (fst r);
                   Lit " Service params received with write properties: ";
                   StrOf (snd r)] ;;
        log Info [Lit "Getting node params..."]) ;;
     when (fun l => negb (truthy (node_params l)))
       (l <- get ;;
        p <- invoke (c_get_node_params (node_object l)) RVal
               (get_node_params env (node_object l)) ;;
        assign (with_node_params p) ;;
        j <- json_dumps p ;;
        log Debug [Lit "Node params received: "; j] ;;
        print [Lit "Setting the OTA URL parameter..."]) ;;
     when (fun l => negb (truthy (ota_start_status l)))
       (l <- get ;;
        s <- invoke (c_start_ota (service_obj l) (node_object l) (node_params l)
                       (service_name l) (service_write_params l)
                       (param_url_to_set l)) RVal
               (start_ota env (service_obj l) (node_object l) (node_params l)
                  (service_name l) (service_write_params l)
                  (param_url_to_set l)) ;;
        assign (with_ota_start_status s) ;;
        log Debug [Lit "OTA status received: "; StrOf s] ;;
        when (fun l => negb (truthy (ota_start_status l)))
          (log Error [Lit "Failed to start OTA service...Exiting..."] ;;
           break) ;;
        print [Lit "Getting OTA Status..."]) ;;
     when (fun l => negb (truthy (ota_status l)))
       (l <- get ;;
        s <- invoke (c_check_ota_status (service_obj l) (node_object l)
                       (service_name l) (service_read_params l)) RVal
               (check_ota_status env (service_obj l) (node_object l)
                  (service_name l) (service_read_params l)) ;;
        assign (with_ota_status s) ;;
        break))
  else ret tt.

(** *** The retry loop shared by both phases *)

(** The three [except] clauses of a loop, lines 368-376 and 433-441. *)
Definition on_error (e : exn) : M unit :=
  match e with
  | SSLError => log Error [ExnOf SSLError] ;; break
  | NetworkError | RequestTimeoutError => print [ExnOf e] ;; log Warn [ExnOf e]
  | _ => log Error [ExnOf e] ;; break
  end.

Definition try_except {A} (m : M A) (handler : exn -> M A) : M A := fun l w =>
  match m l w with
  | (Exc e, l1, w1, t1) =>
      match handler e l1 w1 with
      | (c, l2, w2, t2) => (c, l2, w2, t1 ++ t2)
      end
  | o => o
  end.

(** What follows the [try] statement in an iteration, lines 377-381 and
    442-446; [retries] is the value of the counter after [retries -= 1]. *)
Definition back_off (retries : nat) : M unit :=
  sleep 5 ;;
  if Nat.eqb retries 0 then ret tt
  else (print [Lit "Retries left:"; NumOf retries] ;;
        log Info [Lit "Retries left: "; NumOf retries]).

(** [while retries > 0: try: body except ...; sleep; retries -= 1; ...].
    The result is the value of [retries] when the loop is left. *)
Fixpoint while_retries (body : M unit) (retries : nat) : M nat :=
  match retries with
  | O => ret O
  | S r => fun l w =>
      match (try_except body on_error ;; back_off r) l w with
      | (Norm _, l1, w1, t1) =>
          match while_retries body r l1 w1 with
          | (c, l2, w2, t2) => (c, l2, w2, t1 ++ t2)
          end
      | (Brk, l1, w1, t1) => (Norm (S r), l1, w1, t1)
      | (Exc e, l1, w1, t1) => (Exc e, l1, w1, t1)
      end
  end.

(** *** The command, lines 320-456 *)

(** The two [except] clauses of the outer [try], lines 452-455. *)
Definition on_command_error (e : exn) : M unit :=
  match e with
  | KeyError _ => log Error [Lit "Key Error: "; ExnOf e]
  | _ => log Error [ExnOf e]
  end.

Definition upload_phase (node_id : pyval) (img_name base64_fw_img : string) : M nat :=
  while_retries (upload_body node_id img_name base64_fw_img)
    MAX_HTTP_CONNECTION_RETRIES.

Definition activate_phase : M nat :=
  while_retries activate_body MAX_HTTP_CONNECTION_RETRIES.

(** Lines 383-456, after the first loop. *)
Definition after_upload : M unit :=
  l <- get ;;
  if is_None (node_object l) then
    log Error [Lit ("Initialising new session...Failed" ++ newline)]
  else
    failed <- (if negb (truthy (status l)) then ret true
               else (b <- eval (contains "success" (status l)) ;; ret (negb b))) ;;
    if (failed : bool) then
      (print [Lit newline] ;;
       log Error [Lit "OTA Upgrade...Failed"] ;;
       log Debug [Lit "OTA Upgrade...Failed status: "; StrOf (status l);
                  Lit " response: "; StrOf (response l)])
    else
      (log Info [Lit "Upload OTA Firmware Image Request...Success"] ;;
       js <- json_dumps (status l) ;;
       jr <- json_dumps (response l) ;;
       log Debug [Lit "Upload OTA Firmware Image Request - Status: "; js;
                  Lit " Response: "; jr] ;;
       assign init_activate ;;
       activate_phase ;;
       when (fun l => in_None_False (ota_status l))
         (l <- get ;;
          log Error [Lit "OTA Upgrade...Failed"] ;;
          log Debug [Lit "OTA Upgrade...Failed ota_status: "; StrOf (ota_status l)])).

(** Lines 325-451, once [img_file_path] is the path to open. *)
Definition upgrade_with (node_id : pyval) (img_file_path : string) : M unit :=
  let img_name := img_name_of img_file_path in
  fw_img_bytes <- invoke (c_open_read img_file_path) RBytes
                    (open_read env img_file_path) ;;
  let base64_fw_img := b64encode fw_img_bytes in
  assign init_upload ;;
  upload_phase node_id img_name base64_fw_img ;;
  after_upload.

Definition ota_upgrade (vars : pyval) : M unit :=
  try_except
    (node_id <- eval (subscript vars "nodeid") ;;
     given_path <- eval (subscript vars "otaimagepath") ;;
     p <- eval (fspath given_path) ;;
     img_file_path <-
       (if negb (os_path_isabs p)
        then (cwd <- invoke c_getcwd RStr (os_getcwd env) ;;
              ret (os_path_join cwd p))
        else ret p) ;;
     upgrade_with node_id img_file_path)
    on_command_error.

(** How a run ended and what it did, from fresh local variables. *)
Definition run (vars : pyval) (w : W) : ctl unit * locals * W * trace :=
  ota_upgrade vars all_None w.

Definition trace_of (vars : pyval) (w : W) : trace := snd (run vars w).
Definition ending_of (vars : pyval) (w : W) : ctl unit := fst (fst (fst (run vars w))).

End Command.

Arguments M W A : clear implicits.

(** ** A scripted world

    A world that is the list of the answers still to come: each call takes
    the next one.  An answer of the wrong shape, or no answer left, is an
    exception that is neither a transport nor a TLS failure. *)
Module Scripted.

Definition world := list (res retval).

Definition next {A} (pick : retval -> option A) (w : world) : res A * world :=
  match w with
  | [] => (Raise (OtherException "end of script"), [])
  | Raise e :: w' => (Raise e, w')
  | Ok r :: w' =>
      match pick r with
      | Some a => (Ok a, w')
      | None => (Raise (OtherException "unexpected answer"), w')
      end
  end.

Definition pick_str (r : retval) := match r with RStr s => Some s | _ => None end.
Definition pick_bytes (r : retval) := match r with RBytes b => Some b | _ => None end.
Definition pick_obj (r : retval) := match r with RObj o => Some o | _ => None end.
Definition pick_val (r : retval) := match r with RVal v => Some v | _ => None end.
Definition pick_pair (r : retval) := match r with RPair a b => Some (a, b) | _ => None end.

Definition env : collab world :=
  {| OTA_SERVICE_TYPE := "esp.service.ota";
     os_getcwd := next pick_str;
     open_read := fun _ => next pick_bytes;
     Session := next pick_obj;
     Node := fun _ _ => next pick_obj;
     Service := next pick_obj;
     verify_service_exists := fun _ _ _ => next pick_pair;
     upload_ota_image := fun _ _ _ _ => next pick_pair;
     get_service_params := fun _ _ => next pick_pair;
     get_node_params := fun _ => next pick_val;
     start_ota := fun _ _ _ _ _ _ => next pick_val;
     check_ota_status := fun _ _ _ _ => next pick_val |}.

(** The arguments of the command line: a node and an image. *)
Definition vars_N1 (path : string) : pyval :=
  PDict [("nodeid", PStr "N1"); ("otaimagepath", PStr path)].

Definition fw_bytes : list byte :=
  ["0"; "1"; "2"; "3"; "4"; "5"; "6"; "7"; "8"; "9"]%byte.

Definition ota_config : pyval :=
  PDict [("name", PStr "ota"); ("type", PStr "esp.service.ota")].

Definition upload_ok : res retval :=
  Ok (RPair (PStr "success")
            (PDict [("status", PStr "success"); ("image_url", PStr "https://x/y")])).

(** Up to and including a successful upload at the first attempt. *)
Definition upload_at_once : world :=
  [Ok (RBytes fw_bytes); Ok (RObj (Obj 1)); Ok (RObj (Obj 2)); Ok (RObj (Obj 3));
   Ok (RPair ota_config (PStr "ota")); upload_ok].

End Scripted.

(** ** Reading traces *)

Definition is_call (e : event) : bool :=
  match e with EvCall _ _ => true | _ => false end.

Definition is_call_of (s : step) (e : event) : bool :=
  match e with EvCall c _ => step_eqb (step_of c) s | _ => false end.

Definition is_sleep (e : event) : bool :=
  match e with EvSleep _ => true | _ => false end.

Definition is_error_log (e : event) : bool :=
  match e with EvLog Error _ => true | _ => false end.

Definition is_retries_left (e : event) : bool :=
  match e with EvLog Info [Lit "Retries left: "; NumOf _] => true | _ => false end.

Definition count (p : event -> bool) (t : trace) : nat := List.length (filter p t).

(** No call of sub-step [s] in [t]. *)
Definition no_call_of (s : step) (t : trace) : Prop := existsb (is_call_of s) t = false.

(** Neither a call nor a sleep in [t]: only prints and log lines. *)
Definition calm (t : trace) : Prop :=
  existsb (fun e => is_call e || is_sleep e) t = false.

(** [P] holds of what follows each event of [t] that [trigger] selects. *)
Fixpoint after_each (trigger : event -> bool) (P : trace -> Prop) (t : trace) : Prop :=
  match t with
  | [] => True
  | e :: t' => (trigger e = true -> P t') /\ after_each trigger P t'
  end.

(** The exceptions a loop retries on. *)
Definition transient (e : exn) : bool :=
  match e with NetworkError | RequestTimeoutError => true | _ => false end.

(** ** What the guards of the two loops look at *)

(** The guard of a sub-step skips it when the variables it assigns hold a
    true value; for the sub-steps that assign two variables, when one of the
    two does. *)
Definition cached (l : locals) (s : step) : bool :=
  match s with
  | NewSession => truthy (curr_session l)
  | NewNode => truthy (node_object l)
  | NewService => truthy (service_obj l)
  | VerifyService => truthy (service_config l) || truthy (service_name l)
  | UploadImage => truthy (status l) || truthy (response l)
  | GetServiceParams => truthy (service_read_params l) || truthy (service_write_params l)
  | GetNodeParams => truthy (node_params l)
  | StartOta => truthy (ota_start_status l)
  | CheckOtaStatus => truthy (ota_status l)
  | GetCwd | ReadImage => false
  end.

Definition in_upload_phase (s : step) : bool :=
  match s with
  | NewSession | NewNode | NewService | VerifyService | UploadImage => true
  | _ => false
  end.

Definition in_activate_phase (s : step) : bool :=
  match s with
  | GetServiceParams | GetNodeParams | StartOta | CheckOtaStatus => true
  | _ => false
  end.

(** Whether the result [r] of sub-step [s] is one that no later iteration
    computes again.  The upload, the service parameters and the node
    parameters are kept when the stored result is true for Python; the other
    sub-steps return an instance, or end the loop when they return. *)
Definition kept (s : step) (r : retval) : bool :=
  match s, r with
  | UploadImage, RPair st resp => truthy st || truthy resp
  | GetServiceParams, RPair rd wr => truthy rd || truthy wr
  | GetNodeParams, RVal v => truthy v
  | _, _ => true
  end.

(** The event: sub-step [s] returned a result that is kept. *)
Definition settles (s : step) (e : event) : bool :=
  match e with
  | EvCall c (Ok r) => step_eqb (step_of c) s && kept s r
  | _ => false
  end.

(** The event: sub-step [s] returned (whatever it returned). *)
Definition returns (s : step) (e : event) : bool :=
  match e with
  | EvCall c (Ok _) => step_eqb (step_of c) s
  | _ => false
  end.

(** The event: the upload returned a true status. *)
Definition upload_succeeded (e : event) : bool :=
  match e with
  | EvCall (c_upload_ota_image _ _ _ _) (Ok (RPair st _)) => truthy st
  | _ => false
  end.

(** The event: service discovery returned no service configuration. *)
Definition service_not_found (e : event) : bool :=
  match e with
  | EvCall (c_verify_service_exists _ _ _) (Ok (RPair config _)) => negb (truthy config)
  | _ => false
  end.

(** The event: the start command returned a false value. *)
Definition start_rejected (e : event) : bool :=
  match e with
  | EvCall (c_start_ota _ _ _ _ _ _) (Ok (RVal v)) => negb (truthy v)
  | _ => false
  end.

(** The event: the status poll returned. *)
Definition polled (e : event) : bool := returns CheckOtaStatus e.

(** The event: a call raised [SSLError]. *)
Definition tls_failed (e : event) : bool :=
  match e with
  | EvCall _ (Raise SSLError) => true
  | _ => false
  end.

(** The event: a call raised [NetworkError] or [RequestTimeoutError]. *)
Definition transport_failed (e : event) : bool :=
  match e with
  | EvCall _ (Raise x) => transient x
  | _ => false
  end.

Definition failed_line : event := EvLog Error [Lit "OTA Upgrade...Failed"].

(** The lines an iteration prints and logs once it has slept, when [retries]
    attempts are left. *)
Definition retries_left_lines (retries : nat) : trace :=
  if Nat.eqb retries 0 then []
  else [EvPrint [Lit "Retries left:"; NumOf retries];
        EvLog Info [Lit "Retries left: "; NumOf retries]].

(** What the [except] clause of a transient failure prints and logs. *)
Definition warning_lines (e : exn) : trace :=
  [EvPrint [ExnOf e]; EvLog Warn [ExnOf e]].

(** The first sub-step of the upload phase whose guard does not skip it. *)
Definition pending_upload (l : locals) : option step :=
  if negb (cached l NewSession) then Some NewSession
  else if negb (cached l NewNode) then Some NewNode
  else if negb (cached l NewService) then Some NewService
  else if negb (cached l VerifyService) then Some VerifyService
  else if negb (cached l UploadImage) then Some UploadImage
  else None.

(** The first sub-step of the activation phase whose guard does not skip it,
    when the upload response has an [image_url]. *)
Definition pending_activate (l : locals) : option step :=
  match contains "image_url" (response l) with
  | Ok true =>
      match subscript (response l) "image_url" with
      | Ok _ =>
          if negb (cached l GetServiceParams) then Some GetServiceParams
          else if negb (cached l GetNodeParams) then Some GetNodeParams
          else if negb (cached l StartOta) then Some StartOta
          else if negb (cached l CheckOtaStatus) then Some CheckOtaStatus
          else None
      | Raise _ => None
      end
  | _ => None
  end.

(** The sub-step of the first call of a trace. *)
Fixpoint first_call (t : trace) : option step :=
  match t with
  | [] => None
  | EvCall c _ :: _ => Some (step_of c)
  | _ :: t' => first_call t'
  end.

(** A run ended well: its last event is the status poll returning a value
    that is not in [[None, False]], after an upload that returned a true
    status. *)
Definition completed (t : trace) : Prop :=
  exists t' c v,
    t = t' ++ [EvCall c (Ok (RVal v))] /\ step_of c = CheckOtaStatus /\
    in_None_False v = false /\ existsb upload_succeeded t' = true.

(** ** A world without network: every request fails to connect *)
Module Offline.

Definition env : collab unit :=
  {| OTA_SERVICE_TYPE := "esp.service.ota";
     os_getcwd := fun w => (Ok "/home/user", w);
     open_read := fun _ w => (Ok Scripted.fw_bytes, w);
     Session := fun w => (Raise NetworkError, w);
     Node := fun _ _ w => (Raise NetworkError, w);
     Service := fun w => (Raise NetworkError, w);
     verify_service_exists := fun _ _ _ w => (Raise NetworkError, w);
     upload_ota_image := fun _ _ _ _ w => (Raise NetworkError, w);
     get_service_params := fun _ _ w => (Raise NetworkError, w);
     get_node_params := fun _ w => (Raise NetworkError, w);
     start_ota := fun _ _ _ _ _ _ w => (Raise NetworkError, w);
     check_ota_status := fun _ _ _ _ w => (Raise NetworkError, w) |}.

End Offline.

(** ** One iteration of a retry loop *)

(** Whether an iteration goes on to sleep after a [try] body that ended as
    [c]: it does unless the body, or the [except] clause, ran [break]. *)
Definition goes_on (c : ctl unit) : bool :=
  match c with
  | Norm _ => true
  | Brk => false
  | Exc e => transient e
  end.

(** What the [except] clause prints and logs after a body that ended as [c]. *)
Definition handler_lines (c : ctl unit) : trace :=
  match c with
  | Exc e => if transient e then warning_lines e else [EvLog Error [ExnOf e]]
  | _ => []
  end.

(** The event: a call raised. *)
Definition is_raise (e : event) : bool :=
  match e with EvCall _ (Raise _) => true | _ => false end.

(** The event, if it is an upload call, carries this image name and payload. *)
Definition uploads (img_name base64_fw_img : string) (e : event) : Prop :=
  match e with
  | EvCall (c_upload_ota_image _ _ n b) _ => n = img_name /\ b = base64_fw_img
  | _ => True
  end.

(** The event, if it reads a file, reads this one. *)
Definition reads (path : string) (e : event) : Prop :=
  match e with
  | EvCall (c_open_read p) _ => p = path
  | _ => True
  end.

Definition not_found_line (service_type : string) : event :=
  EvLog Error [Lit service_type; Lit " not found."].

(** ** Relations between the two ends of a piece of the command *)

(** What a piece of the command may do: from the local variables it starts
    with, how it ends, the local variables it leaves and its events. *)
Definition rel : Type := locals -> ctl unit -> locals -> trace -> Prop.

Definition forget {A} (c : ctl A) : ctl unit :=
  match c with
  | Norm _ => Norm tt
  | Brk => Brk
  | Exc e => Exc e
  end.

(** Every run of [m], in every world, is in [R]. *)
Definition sat {W A} (m : M W A) (R : rel) : Prop :=
  forall l w c l' w' t, m l w = (c, l', w', t) -> R l (forget c) l' t.

(** [R] is kept by running one piece after another. *)
Definition seq_closed (R : rel) : Prop :=
  (forall l, R l (Norm tt) l []) /\
  (forall l l1 l2 c t1 t2,
      R l (Norm tt) l1 t1 -> R l1 c l2 t2 -> R l c l2 (t1 ++ t2)).

(** Memoization: a sub-step whose variables hold a true value is not called
    and keeps them; a sub-step that returned a result that is kept is not
    called again, and unless the loop is left its variables hold it. *)
Definition memo_rel : rel := fun l c l' t =>
  forall s,
    (cached l s = true -> no_call_of s t /\ cached l' s = true) /\
    after_each (settles s) (no_call_of s) t /\
    (existsb (settles s) t = true -> cached l' s = true \/ c = Brk).

(** The events [trigger] selects end the piece otherwise than normally, and
    [Q] holds of what the piece still does after them. *)
Definition stops (trigger : event -> bool) (Q : trace -> Prop) : rel := fun _ c _ t =>
  after_each trigger Q t /\ (existsb trigger t = true -> c <> Norm tt).

(** Only the sub-steps in [phase] are called. *)
Definition only_calls (phase : step -> bool) : rel := fun _ _ _ t =>
  forall s, phase s = false -> no_call_of s t.

(** How a body of the upload loop ends. *)
Definition upload_exit (img_name base64_fw_img : string) : rel := fun l c l' t =>
  existsb is_sleep t = false /\
  (existsb is_error_log t = true -> c = Brk) /\
  (existsb upload_succeeded t = true -> c = Brk /\ existsb is_error_log t = false) /\
  (existsb service_not_found t = true -> c = Brk) /\
  (forall c0 x, In (EvCall c0 (Raise x)) t -> c = Exc x) /\
  (truthy (status l) = false -> existsb upload_succeeded t = false ->
   truthy (status l') = false) /\
  ((status l' = status l /\ response l' = response l) \/
   exists c0, In (EvCall c0 (Ok (RPair (status l') (response l')))) t /\
              step_of c0 = UploadImage) /\
  Forall (uploads img_name base64_fw_img) t.

(** How a body of the activation loop ends. *)
Definition activate_exit : rel := fun l c l' t =>
  existsb is_sleep t = false /\
  (existsb is_error_log t = true -> c = Brk) /\
  (existsb polled t = true ->
   c = Brk /\ existsb is_error_log t = false /\
   exists t0 c0, t = t0 ++ [EvCall c0 (Ok (RVal (ota_status l')))] /\
                 step_of c0 = CheckOtaStatus) /\
  (existsb start_rejected t = true -> c = Brk) /\
  (forall c0 x, In (EvCall c0 (Raise x)) t -> c = Exc x) /\
  (existsb polled t = false -> ota_status l' = ota_status l) /\
  response l' = response l.

(** ** The paths through the command *)

(** The line the outer [except] clauses log for [e]. *)
Definition command_error_line (e : exn) : event :=
  match e with
  | KeyError _ => EvLog Error [Lit "Key Error: "; ExnOf e]
  | _ => EvLog Error [ExnOf e]
  end.

(** Lines 321-323: the node and the image path out of [vars]. *)
Definition arguments (vars : pyval) : res (pyval * string) :=
  match subscript vars "nodeid" with
  | Ok node_id =>
      match subscript vars "otaimagepath" with
      | Ok given_path =>
          match fspath given_path with
          | Ok p => Ok (node_id, p)
          | Raise e => Raise e
          end
      | Raise e => Raise e
      end
  | Raise e => Raise e
  end.

(** Line 387 the other way round: whether the upload counts as done. *)
Definition upload_accepted (l : locals) : res bool :=
  if negb (truthy (status l)) then Ok false else contains "success" (status l).

Definition session_failed_line : event :=
  EvLog Error [Lit ("Initialising new session...Failed" ++ newline)].

Definition upload_failed_lines (l : locals) : trace :=
  [EvPrint [Lit newline]; failed_line;
   EvLog Debug [Lit "OTA Upgrade...Failed status: "; StrOf (status l);
                Lit " response: "; StrOf (response l)]].

Definition upload_done_lines (l : locals) : trace :=
  [EvLog Info [Lit "Upload OTA Firmware Image Request...Success"];
   EvLog Debug [Lit "Upload OTA Firmware Image Request - Status: "; JsonOf (status l);
                Lit " Response: "; JsonOf (response l)]].

(** Lines 448-451. *)
Definition final_lines (l : locals) : trace :=
  if in_None_False (ota_status l)
  then [failed_line;
        EvLog Debug [Lit "OTA Upgrade...Failed ota_status: "; StrOf (ota_status l)]]
  else [].

(** What the command does after the upload loop has left the variables [l]
    and the world [w]. *)
Definition after_upload_shape {W} (env : collab W) (l : locals) (w : W) (t : trace) : Prop :=
  (is_None (node_object l) = true /\ t = [session_failed_line]) \/
  (is_None (node_object l) = false /\
   ((exists e, upload_accepted l = Raise e /\ t = [command_error_line e]) \/
    (upload_accepted l = Ok false /\ t = upload_failed_lines l) \/
    (upload_accepted l = Ok true /\
     json_serialisable (status l) && json_serialisable (response l) = false /\
     t = [EvLog Info [Lit "Upload OTA Firmware Image Request...Success"];
          command_error_line TypeError]) \/
    (upload_accepted l = Ok true /\
     json_serialisable (status l) && json_serialisable (response l) = true /\
     exists k l2 w2 tB,
       while_retries (activate_body env) MAX_HTTP_CONNECTION_RETRIES (init_activate l) w
       = (Norm k, l2, w2, tB) /\
       t = upload_done_lines l ++ tB ++ final_lines l2))).

(** What the command does once it has the path of the image. *)
Definition image_shape {W} (env : collab W) (node_id : pyval) (path : string)
    (w : W) (t : trace) : Prop :=
  (exists e w1,
      open_read env path w = (Raise e, w1) /\
      t = [EvCall (c_open_read path) (Raise e); command_error_line e]) \/
  (exists bs w1 k l1 w2 tA rest,
      open_read env path w = (Ok bs, w1) /\
      while_retries (upload_body env node_id (img_name_of path) (b64encode bs))
        MAX_HTTP_CONNECTION_RETRIES all_None w1 = (Norm k, l1, w2, tA) /\
      after_upload_shape env l1 w2 rest /\
      t = EvCall (c_open_read path) (Ok (RBytes bs)) :: tA ++ rest).

(** The paths through [ota_upgrade]. *)
Definition run_shape {W} (env : collab W) (vars : pyval) (w : W) (t : trace) : Prop :=
  (exists e, arguments vars = Raise e /\ t = [command_error_line e]) \/
  (exists node_id p,
      arguments vars = Ok (node_id, p) /\
      ((os_path_isabs p = true /\ image_shape env node_id p w t) \/
       (os_path_isabs p = false /\
        ((exists e w1, os_getcwd env w = (Raise e, w1) /\
                       t = [EvCall c_getcwd (Raise e); command_error_line e]) \/
         (exists cwd w1 t',
             os_getcwd env w = (Ok cwd, w1) /\
             image_shape env node_id (os_path_join cwd p) w1 t' /\
             t = EvCall c_getcwd (Ok (RStr cwd)) :: t'))))).

Arguments while_retries : simpl never.
Arguments upload_phase : simpl never.
Arguments activate_phase : simpl never.

(** ** The parts of a result *)

Definition ending {W A} (o : ctl A * locals * W * trace) : ctl A := fst (fst (fst o)).
Definition locals_after {W A} (o : ctl A * locals * W * trace) : locals := snd (fst (fst o)).
Definition world_after {W A} (o : ctl A * locals * W * trace) : W := snd (fst o).
Definition events {W A} (o : ctl A * locals * W * trace) : trace := snd o.

(** Only the sub-steps in [phase] are called in [t]. *)
Definition calls_within (phase : step -> bool) (t : trace) : Prop :=
  forall s, phase s = false -> no_call_of s t.

(** What is left of a run after a fatal result: lines only, and the line
    that reports the failure among them. *)
Definition reported_failed (t : trace) : Prop := calm t /\ In failed_line t.

(** ** The image name, as the rule states it *)

(** What follows the last ['/'] of [s]; all of [s] when it has none. *)
Fixpoint last_component (s : string) : string :=
  match s with
  | EmptyString => EmptyString
  | String _ s' =>
      if str_contains "/" s' then last_component s'
      else if startswith "/" s then s'
      else s
  end.

(** What precedes the first occurrence of [sub] in [s]; all of [s] when
    [sub] does not occur in it. *)
Fixpoint before_first (sub s : string) : string :=
  if startswith sub s then EmptyString
  else match s with
       | EmptyString => EmptyString
       | String c s' => String c (before_first sub s')
       end.

Definition image_name_rule (path : string) : string :=
  before_first ".bin" (last_component path).

(** ** A transport that is down *)




(** A result that is not kept leaves its sub-step not cached in [l]. *)
Definition forgotten (l : locals) (e : event) : bool :=
  match e with
  | EvCall c (Ok r) => kept (step_of c) r || negb (cached l (step_of c))
  | _ => true
  end.

(** ** The retry policy of a loop *)

(** What a loop over [body] does after a call that raised [x], at any point
    of its trace: with [l1] the local variables at that point, which hold
    what was cached before, either the loop warns, sleeps five seconds, goes
    on with one retry less from [l1] and skips what [l1] holds; or it logs
    the error and ends with the retries it had when the iteration began. *)
Definition retry_policy {W} (body : M W unit) (pending : locals -> option step) : Prop :=
  forall n l w t1 c0 x t2,
    events (while_retries body n l w) = t1 ++ EvCall c0 (Raise x) :: t2 ->
    exists l1 w1,
      (forall s, cached l s = true \/ existsb (settles s) t1 = true -> cached l1 s = true) /\
      (transient x = true ->
       exists r,
         S r + count is_sleep t1 = n /\
         t2 = warning_lines x ++ EvSleep 5 :: retries_left_lines r
              ++ events (while_retries body r l1 w1) /\
         ending (while_retries body n l w) = ending (while_retries body r l1 w1) /\
         (forall s, cached l1 s = true -> no_call_of s (events (while_retries body r l1 w1))) /\
         (0 < r -> first_call (events (while_retries body r l1 w1)) = pending l1)) /\
      (transient x = false ->
       exists r,
         S r + count is_sleep t1 = n /\
         t2 = [EvLog Error [ExnOf x]] /\
         ending (while_retries body n l w) = Norm (S r)).

(** ** Results that are not kept *)

(** The place of a sub-step in the code of the command. *)
Definition position (s : step) : nat :=
  match s with
  | GetCwd => 0
  | ReadImage => 1
  | NewSession => 2
  | NewNode => 3
  | NewService => 4
  | VerifyService => 5
  | UploadImage => 6
  | GetServiceParams => 7
  | GetNodeParams => 8
  | StartOta => 9
  | CheckOtaStatus => 10
  end.

(** The event: a call of a sub-step that comes after [s] in the code. *)
Definition calls_after (s : step) (e : event) : bool :=
  match e with
  | EvCall c _ => Nat.ltb (position s) (position (step_of c))
  | _ => false
  end.

(** No sub-step that comes after [s] is called in [t] before [s] is. *)
Fixpoint awaits (s : step) (t : trace) : bool :=
  match t with
  | [] => true
  | e :: t' => is_call_of s e || (negb (calls_after s e) && awaits s t')
  end.

(** ** Between the attempts *)



(** ** Scenarios *)
Module Scenarios.
Import Scripted.

Definition vars : pyval := vars_N1 "/srv/fw/fw.bin".

Definition service_params : res retval :=
  Ok (RPair (PList [PStr "ota_status"]) (PList [PStr "ota_url"])).

Definition node_params_doc : res retval :=
  Ok (RVal (PDict [("Light", PDict [("power", PBool true)])])).

Definition completed_status : res retval :=
  Ok (RVal (PDict [("ota_status", PStr "completed")])).

(** The upload succeeds at once, the device starts and reports. *)
Definition all_well : world :=
  upload_at_once ++ [service_params; node_params_doc; Ok (RVal (PBool true)); completed_status].

(** The upload fails to connect twice and succeeds the third time. *)
Definition upload_third_time : world :=
  [Ok (RBytes fw_bytes); Ok (RObj (Obj 1)); Ok (RObj (Obj 2)); Ok (RObj (Obj 3));
   Ok (RPair ota_config (PStr "ota"));
   Raise NetworkError; Raise NetworkError; upload_ok;
   service_params; node_params_doc; Ok (RVal (PBool true)); completed_status].

(** The node has no OTA service. *)
Definition no_ota_service : world :=
  [Ok (RBytes fw_bytes); Ok (RObj (Obj 1)); Ok (RObj (Obj 2)); Ok (RObj (Obj 3));
   Ok (RPair PNone PNone)].

(** The device refuses to start. *)
Definition start_refused : world :=
  upload_at_once ++ [service_params; node_params_doc; Ok (RVal (PBool false))].

(** The node has no parameters yet, and the start command times out once. *)
Definition empty_node_params : world :=
  upload_at_once ++
  [service_params; Ok (RVal (PDict [])); Raise RequestTimeoutError;
   node_params_doc; Ok (RVal (PBool true)); completed_status].

(** The cloud answers the upload with an empty status and an empty body. *)
Definition empty_upload_answers : world :=
  [Ok (RBytes fw_bytes); Ok (RObj (Obj 1)); Ok (RObj (Obj 2)); Ok (RObj (Obj 3));
   Ok (RPair ota_config (PStr "ota"));
   Ok (RPair (PStr "") (PDict [])); Ok (RPair (PStr "") (PDict [])); upload_ok;
   service_params; node_params_doc; Ok (RVal (PBool true)); completed_status].

(** The TLS handshake fails at the second attempt of the session. *)
Definition tls_broken : world :=
  [Ok (RBytes fw_bytes); Raise NetworkError; Raise SSLError].

(** The image cannot be opened. *)
Definition unreadable_image : world := [Raise OSError].

(** The image is given by a relative path, and cannot be opened. *)
Definition relative_vars : pyval := vars_N1 "build/fw.bin".

Definition unreadable_relative_image : world := [Ok (RStr "/home/user"); Raise OSError].

(** The upload call of these runs, and the answer that ends the upload loop. *)
Definition the_upload : call :=
  c_upload_ota_image (PObj (Obj 3)) (PObj (Obj 2)) "fw" (b64encode fw_bytes).

Definition the_upload_answer : retval :=
  RPair (PStr "success")
        (PDict [("status", PStr "success"); ("image_url", PStr "https://x/y")]).

(** The local variables once the session, the node, the service object and
    the service configuration are there. *)
Definition before_the_upload : locals :=
  with_service ota_config (PStr "ota")
    (with_service_obj (PObj (Obj 3))
       (with_node_object (PObj (Obj 2))
          (with_curr_session (PObj (Obj 1)) all_None))).

End Scenarios.

(** ** More readers of the runs of [ota_upgrade] *)

(** The event, if it opens a file, opens it by an absolute path. *)
Definition opens_absolute (e : event) : Prop :=
  match e with
  | EvCall (c_open_read p) _ => os_path_isabs p = true
  | _ => True
  end.

(** The event, if it is a sleep, is one of five seconds. *)
Definition sleeps_five (e : event) : Prop :=
  match e with
  | EvSleep n => n = 5
  | _ => True
  end.

(** The event: a call of the activation phase. *)
Definition is_activate_call (e : event) : bool :=
  match e with
  | EvCall c _ => in_activate_phase (step_of c)
  | _ => false
  end.

(** The event, if it starts the upgrade, sends the [image_url] of [response]. *)
Definition starts_with_url_of (response : pyval) (e : event) : Prop :=
  match e with
  | EvCall (c_start_ota _ _ _ _ _ url) _ => subscript response "image_url" = Ok url
  | _ => True
  end.

(** The event, if it is a call of the activation phase, is made on the
    service object, the node, the service configuration and the service
    name that the upload phase left in [l]. *)
Definition activates_with (l : locals) (e : event) : Prop :=
  match e with
  | EvCall (c_get_service_params so sc) _ => so = service_obj l /\ sc = service_config l
  | EvCall (c_get_node_params no) _ => no = node_object l
  | EvCall (c_start_ota so no _ sn _ _) _ =>
      so = service_obj l /\ no = node_object l /\ sn = service_name l
  | EvCall (c_check_ota_status so no sn _) _ =>
      so = service_obj l /\ no = node_object l /\ sn = service_name l
  | _ => True
  end.

(** In [t], the constructor of sub-step [s] returned the instance [v]. *)
Definition made_by (t : trace) (s : step) (v : pyval) : Prop :=
  exists c o, In (EvCall c (Ok (RObj o))) t /\ step_of c = s /\ v = PObj o.

(** In [t], service discovery returned this configuration and this name. *)
Definition service_found (t : trace) (config name : pyval) : Prop :=
  exists c, In (EvCall c (Ok (RPair config name))) t /\ step_of c = VerifyService.

(** In [t], an upload returned a response with this [image_url]. *)
Definition uploaded_url (t : trace) (url : pyval) : Prop :=
  exists c st resp,
    In (EvCall c (Ok (RPair st resp))) t /\ step_of c = UploadImage /\
    subscript resp "image_url" = Ok url.

(** The event, if it is a call of the activation phase, is made on what the
    calls of [t] returned: the service object, the node, the service
    configuration and name, and the URL of the image. *)
Definition fed_by (t : trace) (e : event) : Prop :=
  match e with
  | EvCall (c_get_service_params so sc) _ =>
      made_by t NewService so /\ exists name, service_found t sc name
  | EvCall (c_get_node_params no) _ => made_by t NewNode no
  | EvCall (c_start_ota so no _ sn _ url) _ =>
      made_by t NewService so /\ made_by t NewNode no /\
      (exists config, service_found t config sn) /\ uploaded_url t url
  | EvCall (c_check_ota_status so no sn _) _ =>
      made_by t NewService so /\ made_by t NewNode no /\
      exists config, service_found t config sn
  | _ => True
  end.

(** Where the variables that the upload phase hands over come from: each is
    as it was in [l], or is what a call of [t] returned. *)
Definition handed_over (l l' : locals) (t : trace) : Prop :=
  (service_obj l' = service_obj l \/ made_by t NewService (service_obj l')) /\
  (node_object l' = node_object l \/ made_by t NewNode (node_object l')) /\
  ((service_config l' = service_config l /\ service_name l' = service_name l) \/
   service_found t (service_config l') (service_name l')).

(** Once an upload has returned something that is kept, the service object,
    the node and the service configuration are there. *)
Definition ready (l : locals) : Prop :=
  cached l UploadImage = true ->
  truthy (service_obj l) = true /\ truthy (node_object l) = true /\
  truthy (service_config l) = true.

(** What holds of the variables whenever the upload loop goes round: the
    above, and a service name comes with a service configuration. *)
Definition settled (l : locals) : Prop :=
  ready l /\ (truthy (service_name l) = true -> truthy (service_config l) = true).

(** The variables that one phase hands over to the other. *)
Definition same_hand_over (l l' : locals) : Prop :=
  service_obj l' = service_obj l /\ node_object l' = node_object l /\
  service_name l' = service_name l /\ service_config l' = service_config l /\
  response l' = response l.

(** * The other commands of [node.py]

    [get_nodes], [get_node_config], [get_node_status], [set_params],
    [get_params], [remove_node], [get_mqtt_host] and [claim_node], lines
    37-312.  A string is a sequence of characters with code points below
    256. *)

(** ** Characters and strings *)

Definition code (c : ascii) : nat := nat_of_ascii c.

(** The code point of [c] is between [lo] and [hi]. *)
Definition between (lo hi : nat) (c : ascii) : bool :=
  Nat.leb lo (code c) && Nat.leb (code c) hi.

(** [[a-z]|[A-Z]], the class of the look-arounds of lines 134-136. *)
Definition is_letter (c : ascii) : bool :=
  between 97 122 c || between 65 90 c.

(** [\s] of a [str] pattern: the characters [str.isspace] accepts. *)
Definition is_space (c : ascii) : bool :=
  between 9 13 c || between 28 32 c || Nat.eqb (code c) 133 || Nat.eqb (code c) 160.

(** [[0-9A-F]] *)
Definition is_hex_upper (c : ascii) : bool :=
  between 48 57 c || between 65 70 c.

(** [str.lower] *)
Definition lower_char (c : ascii) : ascii :=
  if between 65 90 c || between 192 222 c && negb (Nat.eqb (code c) 215)
  then ascii_of_nat (code c + 32)
  else c.

Fixpoint lower (s : string) : string :=
  match s with
  | EmptyString => EmptyString
  | String c s' => String (lower_char c) (lower s')
  end.

(** ** Regular expressions without repetition

    What the pattern of [set_params] is made of: characters, [\s], and
    look-behind and look-ahead assertions on a class of characters, put in
    sequence; a pattern is a list of alternatives, tried in order. *)
Inductive atom :=
| Chr (c : ascii)
| Ws
| Behind (negated : bool) (class : ascii -> bool)
| Ahead (negated : bool) (class : ascii -> bool).

Definition holds (negated : bool) (class : ascii -> bool) (c : option ascii) : bool :=
  xorb negated (match c with Some x => class x | None => false end).

Definition next_char (s : string) : option ascii :=
  match s with
  | EmptyString => None
  | String c _ => Some c
  end.

(** Whether the sequence [p] matches at the head of [s], [prev] being the
    character before it; the result is the number of characters consumed. *)
Fixpoint match_seq (p : list atom) (prev : option ascii) (s : string) : option nat :=
  match p with
  | [] => Some 0
  | Chr c :: p' =>
      match s with
      | String x s' =>
          if Ascii.eqb x c then option_map S (match_seq p' (Some x) s') else None
      | EmptyString => None
      end
  | Ws :: p' =>
      match s with
      | String x s' =>
          if is_space x then option_map S (match_seq p' (Some x) s') else None
      | EmptyString => None
      end
  | Behind negated class :: p' =>
      if holds negated class prev then match_seq p' prev s else None
  | Ahead negated class :: p' =>
      if holds negated class (next_char s) then match_seq p' prev s else None
  end.

Fixpoint match_alts (alts : list (list atom)) (prev : option ascii) (s : string) : option nat :=
  match alts with
  | [] => None
  | p :: rest =>
      match match_seq p prev s with
      | Some n => Some n
      | None => match_alts rest prev s
      end
  end.

(** [re.sub(pattern, "", s)]: the matches, found from the left on [s] as it
    was given, are deleted; [skip] counts the characters of a match still to
    be deleted, [prev] is the character before the head of [s]. *)
Fixpoint re_delete_from (alts : list (list atom)) (skip : nat) (prev : option ascii)
    (s : string) : string :=
  match s with
  | EmptyString => EmptyString
  | String c s' =>
      match skip with
      | S k => re_delete_from alts k (Some c) s'
      | O =>
          match match_alts alts prev s with
          | Some (S k) => re_delete_from alts k (Some c) s'
          | _ => String c (re_delete_from alts 0 (Some c) s')
          end
      end
  end.

Definition re_delete (alts : list (list atom)) (s : string) : string :=
  re_delete_from alts 0 None s.

Fixpoint chars (s : string) : list atom :=
  match s with
  | EmptyString => []
  | String c s' => Chr c :: chars s'
  end.

Fixpoint spaces (n : nat) : string :=
  match n with
  | O => EmptyString
  | S k => String " " (spaces k)
  end.

(** The pattern of lines 134-136.  It is a raw string without the verbose
    flag: the backslash that ends its first two lines escapes the line feed,
    and the line feed and the indentation of the next line, 12 and 16
    spaces, are part of the second and third alternatives. *)
Definition trim_pattern : list (list atom) :=
  [ [Behind true is_letter; Ws; Ahead true is_letter];
    chars (newline ++ spaces 12) ++ [Behind false is_letter; Ws; Ahead true is_letter];
    chars (newline ++ spaces 16) ++ [Behind true is_letter; Ws; Ahead false is_letter] ].

Definition trim_data (data : string) : string := re_delete trim_pattern data.

(** [re.match(r'([0-9A-F]:?){12}', s)] is not [None]: [n] groups of a
    digit and an optional colon at the head of [s]. *)
Fixpoint mac_groups (n : nat) (s : string) : bool :=
  match n with
  | O => true
  | S k =>
      match s with
      | String c s' =>
          is_hex_upper c &&
          ((match s' with
            | String ":" s'' => mac_groups k s''
            | _ => false
            end) || mac_groups k s')
      | EmptyString => false
      end
  end.

Definition mac_matches (s : string) : bool := mac_groups 12 s.

(** The characters of [s] that [p] accepts, and whether it accepts all. *)
Fixpoint keep (p : ascii -> bool) (s : string) : string :=
  match s with
  | EmptyString => EmptyString
  | String c s' => if p c then String c (keep p s') else keep p s'
  end.

Fixpoint all_chars (p : ascii -> bool) (s : string) : bool :=
  match s with
  | EmptyString => true
  | String c s' => p c && all_chars p s'
  end.

Definition not_space (c : ascii) : bool := negb (is_space c).
Definition not_letter (c : ascii) : bool := negb (is_letter c).

(** Every whitespace character of [s] is next to a letter, [prev] being the
    character before [s]. *)
Fixpoint spaces_by_letters (prev : option ascii) (s : string) : bool :=
  match s with
  | EmptyString => true
  | String c s' =>
      (negb (is_space c) || holds false is_letter prev
       || holds false is_letter (next_char s'))
      && spaces_by_letters (Some c) s'
  end.

(** An atom that consumes nothing but whitespace, and the first [n]
    characters of a string. *)
Definition blank (a : atom) : bool :=
  match a with
  | Chr c => is_space c
  | _ => true
  end.

Fixpoint first_chars (n : nat) (s : string) : string :=
  match n, s with
  | S k, String c s' => String c (first_chars k s')
  | _, _ => EmptyString
  end.

(** ** What the commands do *)

Module Cli.

(** Exceptions of the interpreter; they derive from [Exception]. *)
Definition UnboundLocalError : exn := OtherException "UnboundLocalError".
Definition AttributeError : exn := OtherException "AttributeError".
Definition ValueError : exn := OtherException "ValueError".

(** A call to [rmaker_lib], [rmaker_tools], [requests], [json] or the file
    system, with its arguments. *)
Inductive request :=
| r_Session
| r_Node (nodeid : pyval) (session : obj)
| r_get_nodes (session : obj)
| r_get_nodeid (node : pyval)
| r_get_node_config (node : obj)
| r_get_node_status (node : obj)
| r_set_node_params (node : obj) (data : pyval)
| r_get_node_params (node : obj)
| r_remove_user_node_mapping (node : obj)
| r_json_loads (s : string)
| r_exists (path : string)
| r_open (path : string)
| r_json_load (fh : obj)
| r_requests_get (url : string) (verify : pyval)
| r_print_help (parser : pyval)
| r_claim (port node_platform mac_addr secret_key flash_address : pyval).

(** How a call ends: it returns, it raises an exception, or it leaves the
    interpreter through [sys.exit] ([SystemExit] is not an [Exception]). *)
Inductive answer (A : Type) :=
| Gives (a : A)
| Fails (e : exn)
| Quits (arg : pyval).
Arguments Fails {A} e.
Arguments Quits {A} arg.

Inductive io :=
| Call (c : request) (r : answer retval)
| Print (m : msg)
| PrintJson (indent : nat) (v : pyval)
| Log (lv : level) (m : msg).

(** The exceptions of [requests] that [get_mqtt_host] tells apart:
    [requests.exceptions.SSLError], which derives from
    [requests.ConnectionError]; a [ConnectionError] that is not an
    [SSLError]; any other exception. *)
Inductive requests_exn :=
| requests_SSLError
| requests_ConnectionError
| requests_other (e : exn).

Definition exn_of_requests (e : requests_exn) : exn :=
  match e with
  | requests_SSLError => OtherException "requests.exceptions.SSLError"
  | requests_ConnectionError => OtherException "requests.ConnectionError"
  | requests_other x => x
  end.

(** A [requests.Response]: its [text], what [raise_for_status] raises, and
    what [key in response] gives (a [Response] has no [__getitem__]). *)
Record Response := {
  text : string;
  raise_for_status : option requests_exn;
  Response_contains : string -> res bool
}.

(** Everything the commands call outside [node.py], over a world [W]. *)
Record library (W : Type) := {
  session_Session : W -> res obj * W;
  node_Node : pyval -> obj -> W -> res obj * W;
  Session_get_nodes : obj -> W -> res pyval * W;
  Node_get_nodeid : pyval -> W -> res pyval * W;
  Node_get_node_config : obj -> W -> res pyval * W;
  Node_get_node_status : obj -> W -> res pyval * W;
  Node_set_node_params : obj -> pyval -> W -> res pyval * W;
  Node_get_node_params : obj -> W -> res pyval * W;
  Node_remove_user_node_mapping : obj -> W -> res pyval * W;
  json_loads : string -> res pyval;
  Path_name : string -> string;
  Path_exists : string -> W -> res bool * W;
  open_ : string -> W -> res obj * W;
  json_load : obj -> W -> res pyval * W;
  serverconfig_HOST : string;
  serverconfig_VERSION : string;
  configmanager_CERT_FILE : pyval;
  requests_get : string -> pyval -> W -> (requests_exn + Response) * W;
  print_help : pyval -> W -> res pyval * W;
  claim : pyval -> pyval -> pyval -> pyval -> pyval -> W -> answer unit * W
}.

(** How a statement ends. *)
Inductive flow (A : Type) :=
| Next (a : A)
| Return (v : pyval)
| Throw (e : exn)
| SysExit (arg : pyval).
Arguments Return {A} v.
Arguments Throw {A} e.
Arguments SysExit {A} arg.

(** How a call of a command ends. *)
Inductive outcome :=
| Returns (v : pyval)
| Raises (e : exn)
| Exits (arg : pyval).

Section Commands.

Variable W : Type.
Variable lib : library W.

Definition Cmd (A : Type) : Type := W -> flow A * W * list io.

Definition ret {A} (a : A) : Cmd A := fun w => (Next a, w, []).

Definition bind {A B} (m : Cmd A) (f : A -> Cmd B) : Cmd B := fun w =>
  match m w with
  | (Next a, w1, t1) =>
      match f a w1 with
      | (c, w2, t2) => (c, w2, t1 ++ t2)
      end
  | (Return v, w1, t1) => (Return v, w1, t1)
  | (Throw e, w1, t1) => (Throw e, w1, t1)
  | (SysExit a, w1, t1) => (SysExit a, w1, t1)
  end.

Notation "x <- m ;; k" := (bind m (fun x => k))
  (at level 61, m at next level, right associativity).
Notation "m ;; k" := (bind m (fun _ => k))
  (at level 61, right associativity).

Definition emit (e : io) : Cmd unit := fun w => (Next tt, w, [e]).
Definition print (m : msg) : Cmd unit := emit (Print m).
Definition log (lv : level) (m : msg) : Cmd unit := emit (Log lv m).
Definition return_ {A} (v : pyval) : Cmd A := fun w => (Return v, w, []).
Definition raise {A} (e : exn) : Cmd A := fun w => (Throw e, w, []).
Definition sys_exit {A} (arg : pyval) : Cmd A := fun w => (SysExit arg, w, []).

Definition eval {A} (r : res A) : Cmd A :=
  match r with
  | Ok a => ret a
  | Raise e => raise e
  end.

(** A call that returns or raises. *)
Definition ask {A} (c : request) (inj : A -> retval) (f : W -> res A * W) : Cmd A :=
  fun w =>
    match f w with
    | (Ok a, w1) => (Next a, w1, [Call c (Gives (inj a))])
    | (Raise e, w1) => (Throw e, w1, [Call c (Fails e)])
    end.

(** [try: body except Exception ...: handler else: orelse].  The result
    tells whether the variable the body assigns is bound afterwards. *)
Definition try_except_else {A} (body : Cmd A) (handler : exn -> Cmd unit)
    (orelse : A -> Cmd unit) : Cmd (option A) := fun w =>
  match body w with
  | (Next a, w1, t1) =>
      match orelse a w1 with
      | (Next _, w2, t2) => (Next (Some a), w2, t1 ++ t2)
      | (Return v, w2, t2) => (Return v, w2, t1 ++ t2)
      | (Throw e, w2, t2) => (Throw e, w2, t1 ++ t2)
      | (SysExit x, w2, t2) => (SysExit x, w2, t1 ++ t2)
      end
  | (Throw e, w1, t1) =>
      match handler e w1 with
      | (Next _, w2, t2) => (Next None, w2, t1 ++ t2)
      | (Return v, w2, t2) => (Return v, w2, t1 ++ t2)
      | (Throw e', w2, t2) => (Throw e', w2, t1 ++ t2)
      | (SysExit x, w2, t2) => (SysExit x, w2, t1 ++ t2)
      end
  | (Return v, w1, t1) => (Return v, w1, t1)
  | (SysExit x, w1, t1) => (SysExit x, w1, t1)
  end.

(** Reading a local variable that an earlier statement may not have bound. *)
Definition local (v : option pyval) : Cmd pyval :=
  match v with
  | Some x => ret x
  | None => raise UnboundLocalError
  end.

(** The operand of a string concatenation, [... + v]. *)
Definition as_str (v : pyval) : res string :=
  match v with
  | PStr s => Ok s
  | _ => Raise TypeError
  end.

(** [print(json.dumps(v, indent=4))] *)
Definition print_json (v : pyval) : Cmd unit :=
  if json_serialisable v then emit (PrintJson 4 v) else raise TypeError.

(** [node.Node(vars['nodeid'], session.Session())] *)
Definition new_Node (vars : pyval) : Cmd obj :=
  nodeid <- eval (subscript vars "nodeid") ;;
  s <- ask r_Session RObj (session_Session lib) ;;
  ask (r_Node nodeid s) RObj (node_Node lib nodeid s).

(** How the function that runs the statements [m] ends. *)
Definition def (m : Cmd unit) (w : W) : outcome * W * list io :=
  match m w with
  | (Next _, w1, t) => (Returns PNone, w1, t)
  | (Return v, w1, t) => (Returns v, w1, t)
  | (Throw e, w1, t) => (Raises e, w1, t)
  | (SysExit x, w1, t) => (Exits x, w1, t)
  end.

(** *** [get_nodes], lines 37-60 *)

(** [v.keys()] *)
Definition keys (v : pyval) : res (list string) :=
  match v with
  | PDict kvs => Ok (map fst kvs)
  | _ => Raise AttributeError
  end.

Fixpoint for_each {A} (xs : list A) (body : A -> Cmd unit) : Cmd unit :=
  match xs with
  | [] => ret tt
  | x :: xs' => body x ;; for_each xs' body
  end.

(** Line 59, the body of the loop: [print(nodes[key].get_nodeid())] *)
Definition print_nodeid (nodes : pyval) (key : string) : Cmd unit :=
  n <- eval (subscript nodes key) ;;
  nodeid <- ask (r_get_nodeid n) RVal (Node_get_nodeid lib n) ;;
  print [StrOf nodeid].

Definition get_nodes (vars : pyval) : W -> outcome * W * list io :=
  def
    (try_except_else
       (s <- ask r_Session RObj (session_Session lib) ;;
        ask (r_get_nodes s) RVal (Session_get_nodes lib s))
       (fun get_nodes_err => log Error [ExnOf get_nodes_err])
       (fun nodes =>
          ks <- eval (keys nodes) ;;
          if Nat.eqb (List.length ks) 0 then
            (print [Lit "User is not associated with any nodes."] ;;
             return_ PNone)
          else
            (ks <- eval (keys nodes) ;;
             for_each ks (print_nodeid nodes))) ;;
     return_ PNone).

(** *** [get_node_config], lines 63-82 *)

Definition get_node_config (vars : pyval) : W -> outcome * W * list io :=
  def
    (node_config <-
       try_except_else
         (n <- new_Node vars ;;
          ask (r_get_node_config n) RVal (Node_get_node_config lib n))
         (fun get_nodes_err => log Error [ExnOf get_nodes_err])
         (fun node_config => print_json node_config) ;;
     v <- local node_config ;;
     return_ v).

(** *** [get_node_status], lines 85-104 *)

Definition get_node_status (vars : pyval) : W -> outcome * W * list io :=
  def
    (try_except_else
       (n <- new_Node vars ;;
        ask (r_get_node_status n) RVal (Node_get_node_status lib n))
       (fun get_node_status_err => log Error [ExnOf get_node_status_err])
       (fun node_status => print_json node_status) ;;
     return_ PNone).

(** *** [set_params], lines 107-170 *)

(** The three [except] clauses of lines 161-167 and 189-195. *)
Definition on_request_error (e : exn) : Cmd unit :=
  match e with
  | SSLError => log Error [ExnOf SSLError]
  | NetworkError => print [ExnOf e] ;; log Warn [ExnOf e]
  | _ => log Error [ExnOf e]
  end.

(** [if key in vars: name = vars[key]] *)
Definition bind_if_given (key : string) (vars : pyval) : Cmd (option pyval) :=
  given <- eval (contains key vars) ;;
  if (given : bool) then (v <- eval (subscript vars key) ;; ret (Some v))
  else ret None.

(** [try: body except Exception: raise InvalidJSONError] *)
Definition or_invalid_json {A} (body : Cmd A) : Cmd A := fun w =>
  match body w with
  | (Throw _, w1, t1) => (Throw InvalidJSONError, w1, t1)
  | o => o
  end.

Definition set_params (vars : pyval) : W -> outcome * W * list io :=
  def
    (nodeid <- eval (subscript vars "nodeid") ;;
     nodeid <- eval (as_str nodeid) ;;
     log Info [Lit ("Setting params of the node with nodeid : " ++ nodeid)] ;;
     data <- bind_if_given "data" vars ;;
     filepath <- bind_if_given "filepath" vars ;;
     d <- local data ;;
     data <-
       (if negb (is_None d) then
          (log Debug [Lit "Setting node parameters using JSON data."] ;;
           s <- eval (as_str d) ;;
           let data := trim_data s in
           or_invalid_json
             (log Debug [Lit ("JSON data : " ++ data)] ;;
              ask (r_json_loads data) RVal (fun w => (json_loads lib data, w))))
        else
          (f <- local filepath ;;
           if negb (is_None f) then
             (log Debug [Lit "Setting node parameters using JSON file."] ;;
              file <- eval (fspath f) ;;
              found <- ask (r_exists file) (fun b => RVal (PBool b)) (Path_exists lib file) ;;
              if negb found then
                (log Error [Lit ("File " ++ Path_name lib file ++ " does not exist!")] ;;
                 return_ PNone)
              else
                (fh <- ask (r_open file) RObj (open_ lib file) ;;
                 or_invalid_json
                   (data <- ask (r_json_load fh) RVal (json_load lib fh) ;;
                    log Debug [Lit ("JSON filename :" ++ Path_name lib file)] ;;
                    ret data)))
           else ret d)) ;;
     try_except_else
       (n <- new_Node vars ;;
        ask (r_set_node_params n data) RVal (Node_set_node_params lib n data))
       on_request_error
       (fun status => print [Lit "Node state updated successfully."]) ;;
     return_ PNone).

(** *** [get_params], lines 173-202 *)

Definition get_params (vars : pyval) : W -> outcome * W * list io :=
  def
    (params <-
       try_except_else
         (n <- new_Node vars ;;
          ask (r_get_node_params n) RVal (Node_get_node_params lib n))
         on_request_error
         (fun params =>
            if is_None params then
              (log Error [Lit "Node status not updated."] ;;
               return_ PNone)
            else print_json params) ;;
     v <- local params ;;
     return_ v).

(** *** [remove_node], lines 205-229 *)

Definition remove_node (vars : pyval) : W -> outcome * W * list io :=
  def
    (nodeid <- eval (subscript vars "nodeid") ;;
     nodeid <- eval (as_str nodeid) ;;
     log Info [Lit ("Removing user node mapping for node " ++ nodeid)] ;;
     try_except_else
       (n <- new_Node vars ;;
        ask (r_remove_user_node_mapping n) RVal (Node_remove_user_node_mapping lib n))
       (fun remove_node_err => log Error [ExnOf remove_node_err])
       (fun params =>
          log Debug [Lit "Removed the user node mapping successfully."] ;;
          nodeid <- eval (subscript vars "nodeid") ;;
          nodeid <- eval (as_str nodeid) ;;
          print [Lit ("Removed node " ++ nodeid ++ " successfully.")]) ;;
     return_ PNone).

(** *** [get_mqtt_host], lines 232-273 *)

(** [s.split(sep)], which refuses an empty separator. *)
Definition str_split (sep s : string) : res (list string) :=
  if String.eqb sep "" then Raise ValueError else Ok (split sep s).

(** A call to [requests]. *)
Definition ask_requests (c : request) (f : W -> (requests_exn + Response) * W)
    : W -> (requests_exn + Response) * W * list io := fun w =>
  match f w with
  | (inr r, w1) => (inr r, w1, [Call c (Gives (RStr (text r)))])
  | (inl e, w1) => (inl e, w1, [Call c (Fails (exn_of_requests e))])
  end.

(** Lines 256-263: the [except] clauses of the request. *)
Definition on_requests_error {A} (e : requests_exn) : Cmd A :=
  match e with
  | requests_SSLError => raise SSLError
  | requests_ConnectionError => raise NetworkError
  | requests_other x => log Error [ExnOf x] ;; return_ PNone
  end.

(** Lines 250-263: the request, once its URL is logged. *)
Definition fetch (request_url : string) : Cmd Response := fun w =>
  match ask_requests (r_requests_get request_url (configmanager_CERT_FILE lib))
          (requests_get lib request_url (configmanager_CERT_FILE lib)) w with
  | (inl e, w1, t1) =>
      match on_requests_error e w1 with
      | (c, w2, t2) => (c, w2, t1 ++ t2)
      end
  | (inr r, w1, t1) =>
      match raise_for_status r with
      | Some e =>
          match on_requests_error e w1 with
          | (c, w2, t2) =>
              (c, w2, (t1 ++ [Log Debug [Lit ("Get MQTT Host response : " ++ text r)]]) ++ t2)
          end
      | None =>
          (Next r, w1, t1 ++ [Log Debug [Lit ("Get MQTT Host response : " ++ text r)]])
      end
  end.

(** [key in response] and [response[key]], [response] being the
    [Response] or the document decoded from it. *)
Definition response_contains (key : string) (response : Response + pyval) : res bool :=
  match response with
  | inl r => Response_contains r key
  | inr v => contains key v
  end.

Definition response_subscript (response : Response + pyval) (key : string) : res pyval :=
  match response with
  | inl _ => Raise TypeError
  | inr v => subscript v key
  end.

Definition get_mqtt_host (vars : pyval) : W -> outcome * W * list io :=
  def
    (log Info [Lit "Getting MQTT Host endpoint."] ;;
     let path := "mqtt_host" in
     pieces <- eval (str_split (serverconfig_VERSION lib) (serverconfig_HOST lib)) ;;
     let request_url := (first_item pieces ++ path)%string in
     log Debug [Lit ("Get MQTT Host request url : " ++ request_url)] ;;
     r <- fetch request_url ;;
     decoded <-
       try_except_else
         (ask (r_json_loads (text r)) RVal (fun w => (json_loads lib (text r), w)))
         (fun json_decode_err => log Error [ExnOf json_decode_err])
         (fun _ => ret tt) ;;
     let response := match decoded with Some v => inr v | None => inl r end in
     has <- eval (response_contains "mqtt_host" response) ;;
     (if (has : bool) then
        (log Info [Lit "Received MQTT Host endpoint successfully."] ;;
         v <- eval (response_subscript response "mqtt_host") ;;
         print [StrOf v])
      else log Error [Lit "MQTT Host does not exists."]) ;;
     v <- eval (response_subscript response "mqtt_host") ;;
     return_ v).

(** *** [claim_node], lines 276-312 *)

(** [vars[key]] as a condition. *)
Definition given (vars : pyval) (key : string) : res bool :=
  match subscript vars key with
  | Ok v => Ok (truthy v)
  | Raise e => Raise e
  end.

(** [not a] and [a and b] on conditions that may raise; [b] is not
    evaluated when [a] is false or raises. *)
Definition not_ (a : res bool) : res bool :=
  match a with
  | Ok b => Ok (negb b)
  | Raise e => Raise e
  end.

Definition and_ (a b : res bool) : res bool :=
  match a with
  | Ok true => b
  | _ => a
  end.

(** [re.match(r'([0-9A-F]:?){12}', v)] is not [None]. *)
Definition re_match_mac (v : pyval) : res bool :=
  match v with
  | PStr s => Ok (mac_matches s)
  | _ => Raise TypeError
  end.

(** [v.lower() == "esp32"] *)
Definition lower_is_esp32 (v : pyval) : res bool :=
  match v with
  | PStr s => Ok (String.eqb (lower s) "esp32")
  | _ => Raise AttributeError
  end.

(** A call that may also leave through [sys.exit]. *)
Definition ask_claim (c : request) (f : W -> answer unit * W) : Cmd unit := fun w =>
  match f w with
  | (Gives _, w1) => (Next tt, w1, [Call c (Gives (RVal PNone))])
  | (Fails e, w1) => (Throw e, w1, [Call c (Fails e)])
  | (Quits x, w1) => (SysExit x, w1, [Call c (Quits x)])
  end.

(** [claim(port=vars['port'], node_platform=vars['platform'],
    mac_addr=vars['mac'], secret_key=vars['secret_key'],
    flash_address=vars['addr'])] *)
Definition call_claim (vars : pyval) : Cmd unit :=
  port <- eval (subscript vars "port") ;;
  platform <- eval (subscript vars "platform") ;;
  mac <- eval (subscript vars "mac") ;;
  secret_key <- eval (subscript vars "secret_key") ;;
  addr <- eval (subscript vars "addr") ;;
  ask_claim (r_claim port platform mac secret_key addr)
    (claim lib port platform mac secret_key addr).

(** [if cond: block] *)
Definition when (cond : res bool) (block : Cmd unit) : Cmd unit :=
  c <- eval cond ;;
  if (c : bool) then block else ret tt.

(** Lines 290-309: the body of the [try]. *)
Definition claim_checks (vars : pyval) : Cmd unit :=
  when (and_ (not_ (given vars "port"))
          (and_ (not_ (given vars "mac"))
             (and_ (not_ (given vars "platform"))
                (and_ (not_ (given vars "secret_key"))
                   (not_ (given vars "addr"))))))
    (parser <- eval (subscript vars "parser") ;;
     shown <- ask (r_print_help parser) RVal (print_help lib parser) ;;
     sys_exit shown) ;;
  when (and_ (given vars "addr")
          (and_ (not_ (given vars "port")) (not_ (given vars "platform"))))
    (sys_exit (PStr "Invalid. <port> or --platform argument is needed.")) ;;
  when (and_ (given vars "secret_key") (not_ (given vars "platform")))
    (sys_exit (PStr "Invalid. --platform argument is missing.")) ;;
  when (given vars "port")
    (when (and_ (not_ (given vars "mac"))
             (and_ (not_ (given vars "platform"))
                (not_ (given vars "secret_key"))))
       (call_claim vars ;;
        return_ PNone)) ;;
  when (and_ (given vars "mac") (not_ (given vars "platform")))
    (sys_exit (PStr "Invalid. --platform argument needed.")) ;;
  when (and_ (not_ (given vars "mac")) (given vars "platform"))
    (sys_exit (PStr "Invalid. --mac argument needed.")) ;;
  when (given vars "mac")
    (mac <- eval (subscript vars "mac") ;;
     when (not_ (re_match_mac mac))
       (sys_exit (PStr "Invalid MAC address."))) ;;
  platform <- eval (subscript vars "platform") ;;
  when (and_ (lower_is_esp32 platform) (given vars "secret_key"))
    (sys_exit
       (PStr "Invalid. --secret-key argument not applicable for esp32 platform")) ;;
  call_claim vars.

Definition claim_node (vars : pyval) : W -> outcome * W * list io :=
  def
    (try_except_else
       (claim_checks vars)
       (fun claim_err => log Error [ExnOf claim_err] ;; return_ PNone)
       (fun _ => ret tt) ;;
     ret tt).

End Commands.

(** The parts of what a call of a command gives. *)
Definition result {W} (r : outcome * W * list io) : outcome := fst (fst r).
Definition world_left {W} (r : outcome * W * list io) : W := snd (fst r).
Definition said {W} (r : outcome * W * list io) : list io := snd r.

Definition is_print (e : io) : bool :=
  match e with Print _ | PrintJson _ _ => true | _ => false end.

Definition is_call (e : io) : bool :=
  match e with Call _ _ => true | _ => false end.

Definition is_error (e : io) : bool :=
  match e with Log Error _ => true | _ => false end.

(** The event: a call to the file system. *)
Definition is_file_call (e : io) : bool :=
  match e with
  | Call (r_exists _) _ | Call (r_open _) _ | Call (r_json_load _) _ => true
  | _ => false
  end.

(** The event: a call to the cloud. *)
Definition is_cloud_call (e : io) : bool :=
  match e with
  | Call r_Session _ | Call (r_Node _ _) _ | Call (r_get_nodes _) _
  | Call (r_get_node_config _) _ | Call (r_get_node_status _) _
  | Call (r_set_node_params _ _) _ | Call (r_get_node_params _) _
  | Call (r_remove_user_node_mapping _) _ | Call (r_requests_get _ _) _ => true
  | _ => false
  end.

(** The event: [claim] is called. *)
Definition is_claim (e : io) : bool :=
  match e with Call (r_claim _ _ _ _ _) _ => true | _ => false end.

(** What the [except] clauses of lines 161-167 and 189-195 report. *)
Definition report_lines (e : exn) : list io :=
  match e with
  | SSLError => [Log Error [ExnOf SSLError]]
  | NetworkError => [Print [ExnOf NetworkError]; Log Warn [ExnOf NetworkError]]
  | _ => [Log Error [ExnOf e]]
  end.

(** The three calls of the commands on a node: session, node, request. *)
Definition node_calls (nodeid : pyval) (s n : obj) (c : request) (v : pyval) : list io :=
  [Call r_Session (Gives (RObj s)); Call (r_Node nodeid s) (Gives (RObj n));
   Call c (Gives (RVal v))].

(** The calls of a command on a node, when one of them raises [e]: the
    node id is missing, or the session, the node or the request fails. *)
Definition failed_calls (vars : pyval) (c : obj -> request) (e : exn) (t : list io) : Prop :=
  (subscript vars "nodeid" = Raise e /\ t = []) \/
  (exists nodeid, subscript vars "nodeid" = Ok nodeid /\
     (t = [Call r_Session (Fails e)] \/
      (exists s, t = [Call r_Session (Gives (RObj s)); Call (r_Node nodeid s) (Fails e)]) \/
      (exists s n, t = [Call r_Session (Gives (RObj s)); Call (r_Node nodeid s) (Gives (RObj n));
                        Call (c n) (Fails e)]))).

(** The request URL of [get_mqtt_host]: what precedes the first occurrence
    of the API version in the host URL, and the path. *)
Definition mqtt_host_url {W} (lib : library W) : string :=
  (before_first (serverconfig_VERSION lib) (serverconfig_HOST lib) ++ "mqtt_host")%string.

(** How [get_mqtt_host] ends when the request fails with [e]. *)
Definition request_failure (e : requests_exn) : outcome :=
  match e with
  | requests_SSLError => Raises SSLError
  | requests_ConnectionError => Raises NetworkError
  | requests_other _ => Returns PNone
  end.

(** The event: [json.loads] is called. *)
Definition is_json_loads (e : io) : bool :=
  match e with Call (r_json_loads _) _ => true | _ => false end.

(** An optional argument of the command line: a string, or [None]. *)
Definition optional_str (v : pyval) : bool :=
  match v with
  | PNone | PStr _ => true
  | _ => false
  end.

(** What [claim_node] lets through to [claim]: a port alone, or a MAC
    address that matches the pattern together with a platform, without a
    secret key when the platform is [esp32]. *)
Definition claimable (port platform mac secret_key : pyval) : Prop :=
  (truthy port = true /\ truthy mac = false /\ truthy platform = false /\
   truthy secret_key = false) \/
  (truthy mac = true /\ truthy platform = true /\ re_match_mac mac = Ok true /\
   (lower_is_esp32 platform = Ok false \/
    lower_is_esp32 platform = Ok true /\ truthy secret_key = false)).

(** None of the five arguments of [claim_node] is given. *)
Definition nothing_given (vars : pyval) : Prop :=
  given vars "port" = Ok false /\ given vars "mac" = Ok false /\
  given vars "platform" = Ok false /\ given vars "secret_key" = Ok false /\
  given vars "addr" = Ok false.

(** Why [claim_node] refuses its arguments with the message [x]. *)
Definition refused (vars : pyval) (x : string) : Prop :=
  (x = "Invalid. <port> or --platform argument is needed." /\
   given vars "addr" = Ok true /\ given vars "port" = Ok false /\
   given vars "platform" = Ok false) \/
  (x = "Invalid. --platform argument is missing." /\
   given vars "secret_key" = Ok true /\ given vars "platform" = Ok false) \/
  (x = "Invalid. --platform argument needed." /\
   given vars "mac" = Ok true /\ given vars "platform" = Ok false) \/
  (x = "Invalid. --mac argument needed." /\
   given vars "mac" = Ok false /\ given vars "platform" = Ok true) \/
  (x = "Invalid MAC address." /\
   exists mac, subscript vars "mac" = Ok mac /\ truthy mac = true /\
               re_match_mac mac = Ok false) \/
  (x = "Invalid. --secret-key argument not applicable for esp32 platform" /\
   given vars "secret_key" = Ok true /\
   exists platform, subscript vars "platform" = Ok platform /\
                    lower_is_esp32 platform = Ok true).

(** The arguments make a check of [claim_node] raise [e]: one of the five
    is missing; none is given and there is no parser to print the help of;
    the MAC address is given and is not a string; or the platform is. *)
Definition ill_formed (vars : pyval) (e : exn) : Prop :=
  (exists key, subscript vars key = Raise e /\
               In key ["port"; "mac"; "platform"; "secret_key"; "addr"]) \/
  (nothing_given vars /\ subscript vars "parser" = Raise e) \/
  (exists mac, subscript vars "mac" = Ok mac /\ truthy mac = true /\
               re_match_mac mac = Raise e) \/
  (exists platform, subscript vars "platform" = Ok platform /\
                    truthy platform = true /\ lower_is_esp32 platform = Raise e).

(** What [claim_node] says once [claim] has ended as [ans], and how it ends. *)
Definition claim_report (ans : answer retval) : list io :=
  match ans with
  | Fails e => [Log Error [ExnOf e]]
  | _ => []
  end.

Definition claim_result (ans : answer retval) : outcome :=
  match ans with
  | Quits x => Exits x
  | _ => Returns PNone
  end.

(** How the statements of [claim_node] go on after [claim] ended as [ans]. *)
Definition after_claim (ans : answer retval) (c : flow unit) : Prop :=
  match ans with
  | Gives _ => c = Next tt \/ c = Return PNone
  | Fails e => c = Throw e
  | Quits x => c = SysExit x
  end.

(** The node ids that the calls of [get_nodeid] returned, and the nodes it
    was called on, in the order of the calls. *)
Fixpoint nodeids (t : list io) : list pyval :=
  match t with
  | [] => []
  | Call (r_get_nodeid _) (Gives (RVal v)) :: t' => v :: nodeids t'
  | _ :: t' => nodeids t'
  end.

Fixpoint asked_nodes (t : list io) : list pyval :=
  match t with
  | [] => []
  | Call (r_get_nodeid n) _ :: t' => n :: asked_nodes t'
  | _ :: t' => asked_nodes t'
  end.

(** What is printed, in order. *)
Definition prints (t : list io) : list io := filter is_print t.

(** ** A scripted library

    A world that is the list of the answers still to come, as for
    [ota_upgrade]; [json.loads] decodes the texts of a table. *)
Module Script.

Definition world := list (res retval).

Definition pick_bool (r : retval) : option bool :=
  match r with RVal (PBool b) => Some b | _ => None end.

Definition decode (docs : list (string * pyval)) (s : string) : res pyval :=
  match lookup s docs with
  | Some v => Ok v
  | None => Raise (OtherException "JSONDecodeError")
  end.

Definition respond (w : world) : (requests_exn + Response) * world :=
  match w with
  | Ok (RStr body) :: w' =>
      (inr {| text := body; raise_for_status := None;
              Response_contains := fun _ => Ok false |}, w')
  | Raise SSLError :: w' => (inl requests_SSLError, w')
  | Raise NetworkError :: w' => (inl requests_ConnectionError, w')
  | Raise e :: w' => (inl (requests_other e), w')
  | _ :: w' => (inl (requests_other (OtherException "unexpected answer")), w')
  | [] => (inl (requests_other (OtherException "end of script")), [])
  end.

Definition claimed (w : world) : answer unit * world :=
  match w with
  | Raise e :: w' => (Fails e, w')
  | _ :: w' => (Gives tt, w')
  | [] => (Quits (PInt 1), [])
  end.

Definition lib (docs : list (string * pyval)) (host version : string) : library world :=
  {| session_Session := Scripted.next Scripted.pick_obj;
     node_Node := fun _ _ => Scripted.next Scripted.pick_obj;
     Session_get_nodes := fun _ => Scripted.next Scripted.pick_val;
     Node_get_nodeid := fun _ => Scripted.next Scripted.pick_val;
     Node_get_node_config := fun _ => Scripted.next Scripted.pick_val;
     Node_get_node_status := fun _ => Scripted.next Scripted.pick_val;
     Node_set_node_params := fun _ _ => Scripted.next Scripted.pick_val;
     Node_get_node_params := fun _ => Scripted.next Scripted.pick_val;
     Node_remove_user_node_mapping := fun _ => Scripted.next Scripted.pick_val;
     json_loads := decode docs;
     Path_name := last_component;
     Path_exists := fun _ => Scripted.next pick_bool;
     open_ := fun _ => Scripted.next Scripted.pick_obj;
     json_load := fun _ => Scripted.next Scripted.pick_val;
     serverconfig_HOST := host;
     serverconfig_VERSION := version;
     configmanager_CERT_FILE := PStr "server_cert/server_cert.pem";
     requests_get := fun _ _ => respond;
     print_help := fun _ => Scripted.next Scripted.pick_val;
     claim := fun _ _ _ _ _ => claimed |}.

End Script.

End Cli.

(** ** The other commands, run on scripted answers *)
Module CliRuns.

(** What [json.loads] makes of the texts of these runs. *)
Definition docs : list (string * pyval) :=
  [("[1,2]", PList [PInt 1; PInt 2]);
   ("{mqtt_host}", PDict [("mqtt_host", PStr "mqtt.example.com")])].

Definition cloud : Cli.library Cli.Script.world :=
  Cli.Script.lib docs "https://api.example.com/v1/" "v1".

(** The arguments of [setparams] with data on the command line. *)
Definition set_data (data : pyval) : list (string * pyval) :=
  [("nodeid", PStr "N1"); ("data", data); ("filepath", PNone)].

(** The session, the node, and the status that [set_node_params] returns. *)
Definition set_params_answers : Cli.Script.world :=
  [Ok (RObj (Obj 1)); Ok (RObj (Obj 2)); Ok (RVal (PDict [("status", PStr "success")]))].

(** The arguments of [claim]. *)
Definition claim_vars (port platform mac secret_key addr : pyval) : pyval :=
  PDict [("port", port); ("platform", platform); ("mac", mac);
         ("secret_key", secret_key); ("addr", addr); ("parser", PObj (Obj 0))].

(** Two nodes of a user. *)
Definition two_nodes : list (string * pyval) :=
  [("N1", PObj (Obj 2)); ("N2", PObj (Obj 3))].

End CliRuns.

(** * Proofs *)

(** ** The helpers, run *)

Example split_at_slash : split "/" "/home/u/fw.bin" = [""; "home"; "u"; "fw.bin"].
Proof. reflexivity. Qed.

Example split_at_bin : split ".bin" "app.bin.bin" = ["app"; ""; ""].
Proof. reflexivity. Qed.

Example b64_Man : b64encode ["M"%byte; "a"%byte; "n"%byte] = "TWFu".
Proof. reflexivity. Qed.

Example b64_Ma : b64encode ["M"%byte; "a"%byte] = "TWE=".
Proof. reflexivity. Qed.

Example b64_M : b64encode ["M"%byte] = "TQ==".
Proof. reflexivity. Qed.

Lemma after_each_split trigger (P : trace -> Prop) t :
  after_each trigger P t <->
  (forall t1 e t2, t = t1 ++ e :: t2 -> trigger e = true -> P t2).
Proof.
  induction t as [|x t IH]; cbn.
  - split; [|tauto]. intros _ [|? ?] ? ? Heq; discriminate.
  - rewrite IH. split.
    + intros [Hx Ht] [|y t1] e t2 Heq He; cbn in Heq; injection Heq as -> ->.
      * auto.
      * eapply Ht; eauto.
    + intros H. split.
      * intros Hx. apply (H [] x t); auto.
      * intros t1 e t2 -> He. apply (H (x :: t1) e t2); auto.
Qed.

Lemma after_each_none trigger (P : trace -> Prop) t :
  existsb trigger t = false -> after_each trigger P t.
Proof.
  induction t as [|x t IH]; cbn; auto.
  intros H. apply orb_false_iff in H as [Hx Ht]. split; auto. congruence.
Qed.

Lemma after_each_app_none trigger (P : trace -> Prop) a b :
  existsb trigger a = false -> after_each trigger P b -> after_each trigger P (a ++ b).
Proof.
  induction a as [|x a IH]; cbn; auto.
  intros H Hb. apply orb_false_iff in H as [Hx Ha]. split; auto. congruence.
Qed.

(** What follows a selected event of [a] may be extended by [b] when [P]
    allows it. *)
Lemma after_each_app trigger (P : trace -> Prop) a b :
  after_each trigger P a ->
  after_each trigger P b ->
  (existsb trigger a = true -> forall u, P u -> P (u ++ b)) ->
  after_each trigger P (a ++ b).
Proof.
  induction a as [|x a IH]; cbn; auto.
  intros [Hx Ha] Hb Hext. split.
  - intros Ht. apply Hext; auto. now rewrite Ht.
  - apply IH; auto. intros Hex. apply Hext. rewrite Hex. apply orb_true_r.
Qed.

Lemma no_call_of_app s a b : no_call_of s (a ++ b) <-> no_call_of s a /\ no_call_of s b.
Proof. unfold no_call_of. rewrite existsb_app, orb_false_iff. tauto. Qed.

Lemma not_true_false b : b <> true -> b = false.
Proof. destruct b; congruence. Qed.

Lemma seq_closed_memo : seq_closed memo_rel.
Proof.
  split.
  - intros l s. cbn. repeat split; auto; discriminate.
  - intros l l1 l2 c t1 t2 H1 H2 s.
    destruct (H1 s) as (Hs1 & Ha1 & He1), (H2 s) as (Hs2 & Ha2 & He2).
    repeat split.
    + apply no_call_of_app. destruct (Hs1 H) as [? Hc]. destruct (Hs2 Hc). auto.
    + destruct (Hs1 H) as [? Hc]. now destruct (Hs2 Hc).
    + apply after_each_app; auto.
      intros Hex u Hu. apply no_call_of_app. split; auto.
      destruct (He1 Hex) as [Hc|]; [|discriminate]. now destruct (Hs2 Hc).
    + rewrite existsb_app, orb_true_iff. intros [Hex|Hex]; auto.
      destruct (He1 Hex) as [Hc|]; [|discriminate]. left. now destruct (Hs2 Hc).
Qed.

Lemma seq_closed_stops trigger Q : seq_closed (stops trigger Q).
Proof.
  split.
  - intros l. split; cbn; auto. discriminate.
  - intros l l1 l2 c t1 t2 [Ha1 Hn1] [Ha2 Hn2].
    assert (Hno : existsb trigger t1 = false).
    { apply not_true_false. intros Hex. now apply Hn1. }
    split.
    + now apply after_each_app_none.
    + rewrite existsb_app, Hno. exact Hn2.
Qed.

Lemma seq_closed_only_calls phase : seq_closed (only_calls phase).
Proof.
  split.
  - intros l s _. reflexivity.
  - intros l l1 l2 c t1 t2 H1 H2 s Hs. apply no_call_of_app. split; auto.
Qed.

Lemma seq_closed_upload_exit name b64 : seq_closed (upload_exit name b64).
Proof.
  split.
  - intros l. unfold upload_exit. cbn. repeat split; auto; try discriminate; tauto.
  - intros l l1 l2 c t1 t2
      (Hs1 & He1 & Hu1 & Hn1 & Hr1 & Hf1 & Hl1 & Ha1)
      (Hs2 & He2 & Hu2 & Hn2 & Hr2 & Hf2 & Hl2 & Ha2).
    assert (Her : existsb is_error_log t1 = false).
    { apply not_true_false. intros Hex. now specialize (He1 Hex). }
    assert (Hup : existsb upload_succeeded t1 = false).
    { apply not_true_false. intros Hex. now destruct (Hu1 Hex). }
    assert (Hnf : existsb service_not_found t1 = false).
    { apply not_true_false. intros Hex. now specialize (Hn1 Hex). }
    unfold upload_exit. rewrite !existsb_app, Hs1, Hs2, Her, Hup, Hnf. cbn.
    repeat split; auto.
    + now apply Hu2.
    + now apply Hu2.
    + intros c0 x Hin. apply in_app_or in Hin as [Hin|Hin]; eauto.
      now specialize (Hr1 _ _ Hin).
    + destruct Hl2 as [[-> ->]|(c0 & Hin & Hc0)].
      * destruct Hl1 as [|(c0 & Hin & Hc0)]; auto.
        right. exists c0. split; auto. apply in_or_app; auto.
      * right. exists c0. split; auto. apply in_or_app; auto.
    + apply Forall_app; auto.
Qed.

Lemma seq_closed_activate_exit : seq_closed activate_exit.
Proof.
  split.
  - intros l. unfold activate_exit. cbn. repeat split; auto; try discriminate; tauto.
  - intros l l1 l2 c t1 t2
      (Hs1 & He1 & Hp1 & Hn1 & Hr1 & Hf1 & Hl1)
      (Hs2 & He2 & Hp2 & Hn2 & Hr2 & Hf2 & Hl2).
    assert (Her : existsb is_error_log t1 = false).
    { apply not_true_false. intros Hex. now specialize (He1 Hex). }
    assert (Hup : existsb polled t1 = false).
    { apply not_true_false. intros Hex. now destruct (Hp1 Hex). }
    assert (Hnf : existsb start_rejected t1 = false).
    { apply not_true_false. intros Hex. now specialize (Hn1 Hex). }
    unfold activate_exit. rewrite !existsb_app, Hs1, Hs2, Her, Hup, Hnf. cbn.
    repeat split; auto.
    + now apply Hp2.
    + now apply Hp2.
    + destruct Hp2 as (_ & _ & t0 & c0 & -> & Hc0); auto.
      exists (t1 ++ t0), c0. split; auto. now rewrite app_assoc.
    + intros c0 x Hin. apply in_app_or in Hin as [Hin|Hin]; eauto.
      now specialize (Hr1 _ _ Hin).
    + intros Hex. rewrite (Hf2 Hex). auto.
    + congruence.
Qed.

Ltac destruct_scrutinee :=
  match goal with
  | |- context [match ?x with _ => _ end] =>
      lazymatch x with
      | context [match _ with _ => _ end] => fail
      | _ => destruct x eqn:?
      end
  | |- context [if ?x then _ else _] =>
      lazymatch x with
      | context [match _ with _ => _ end] => fail
      | _ => destruct x eqn:?
      end
  end.

(** Runs a piece of the command on every answer of its collaborators. *)
Ltac run_body H :=
  cbv [bind when invoke assign get log print emit ret break raise eval
       json_dumps pair_retval] in H;
  cbn in H; revert H;
  repeat (destruct_scrutinee; cbn);
  intros H; injection H as <- <- <- <-.

Ltac bool_finish :=
  repeat match goal with
  | H : context [truthy ?x] |- _ => destruct (truthy x); cbn in *; try discriminate
  | |- context [truthy ?x] => destruct (truthy x); cbn in *; try discriminate
  end;
  cbn in *; try congruence; auto.

Ltac stage :=
  let H := fresh "H" in
  intros ? ? ? ? ? ? H; run_body H; cbn.

Section Bodies.
Variable W : Type.
Variable env : collab W.

Lemma sat_bind {A B} (m : M W A) (k : A -> M W B) R :
  seq_closed R -> sat m R -> (forall a, sat (k a) R) -> sat (bind m k) R.
Proof.
  intros [_ Hseq] Hm Hk l w c l' w' t. unfold bind.
  destruct (m l w) as [[[cm l1] w1] t1] eqn:Em.
  specialize (Hm _ _ _ _ _ _ Em).
  destruct cm as [a| |e]; cbn in Hm.
  - destruct (k a l1 w1) as [[[ck l2] w2] t2] eqn:Ek.
    specialize (Hk _ _ _ _ _ _ _ Ek).
    intros H; injection H as <- <- <- <-. eapply Hseq; eauto.
  - intros H; injection H as <- <- <- <-. exact Hm.
  - intros H; injection H as <- <- <- <-. exact Hm.
Qed.

Lemma sat_and {A} (m : M W A) (R1 R2 : rel) :
  sat m R1 -> sat m R2 -> sat m (fun l c l' t => R1 l c l' t /\ R2 l c l' t).
Proof. intros H1 H2 l w c l' w' t H. split; eauto. Qed.


Lemma sat_weaken {A} (m : M W A) (R1 R2 : rel) :
  (forall l c l' t, R1 l c l' t -> R2 l c l' t) -> sat m R1 -> sat m R2.
Proof. intros HR H1 l w c l' w' t H. eauto. Qed.

End Bodies.

Ltac sat_steps closed :=
  repeat first
    [ apply sat_bind; [exact closed | | intro]
    | match goal with |- sat (if ?b then _ else _) _ => destruct b end ].

Section BodyFacts.
Variable W : Type.
Variable env : collab W.

Lemma upload_body_memo node_id name b64 :
  sat (upload_body env node_id name b64) memo_rel.
Proof.
  unfold upload_body. sat_steps seq_closed_memo.
  all: stage; intros s; destruct s; unfold no_call_of; cbn; bool_finish; intuition congruence.
Qed.

Lemma activate_body_memo : sat (activate_body env) memo_rel.
Proof.
  unfold activate_body. sat_steps seq_closed_memo.
  all: stage; intros s; destruct s; unfold no_call_of; cbn; bool_finish; intuition congruence.
Qed.


Lemma upload_body_calls node_id name b64 :
  sat (upload_body env node_id name b64) (only_calls in_upload_phase).
Proof.
  unfold upload_body. sat_steps (seq_closed_only_calls in_upload_phase).
  all: stage; intros s; destruct s; unfold no_call_of; cbn; congruence.
Qed.

Lemma activate_body_calls : sat (activate_body env) (only_calls in_activate_phase).
Proof.
  unfold activate_body. sat_steps (seq_closed_only_calls in_activate_phase).
  all: stage; intros s; destruct s; unfold no_call_of; cbn; congruence.
Qed.

Ltac stops_stage :=
  stage; unfold stops; cbn; bool_finish; repeat split; try discriminate; try congruence; auto.

Lemma upload_body_success node_id name b64 :
  sat (upload_body env node_id name b64) (stops upload_succeeded (fun u => u = [])).
Proof.
  unfold upload_body. sat_steps (seq_closed_stops upload_succeeded (fun u => u = [])).
  all: stops_stage.
Qed.

Lemma upload_body_not_found node_id name b64 :
  sat (upload_body env node_id name b64)
    (stops service_not_found (fun u => u = [not_found_line (OTA_SERVICE_TYPE env)])).
Proof.
  unfold upload_body.
  sat_steps (seq_closed_stops service_not_found
               (fun u => u = [not_found_line (OTA_SERVICE_TYPE env)])).
  all: stops_stage.
Qed.

Lemma upload_body_raise node_id name b64 :
  sat (upload_body env node_id name b64) (stops is_raise (fun u => u = [])).
Proof.
  unfold upload_body. sat_steps (seq_closed_stops is_raise (fun u => u = [])).
  all: stops_stage.
Qed.

Lemma activate_body_polled :
  sat (activate_body env) (stops polled (fun u => u = [])).
Proof.
  unfold activate_body. sat_steps (seq_closed_stops polled (fun u => u = [])).
  all: stops_stage.
Qed.

Lemma activate_body_rejected :
  sat (activate_body env)
    (stops start_rejected
       (fun u => exists v, u = [EvLog Debug [Lit "OTA status received: "; StrOf v];
                                EvLog Error [Lit "Failed to start OTA service...Exiting..."]])).
Proof.
  unfold activate_body.
  sat_steps (seq_closed_stops start_rejected
       (fun u => exists v, u = [EvLog Debug [Lit "OTA status received: "; StrOf v];
                                EvLog Error [Lit "Failed to start OTA service...Exiting..."]])).
  all: stops_stage.
  all: eexists; reflexivity.
Qed.

Lemma activate_body_raise :
  sat (activate_body env) (stops is_raise (fun u => u = [])).
Proof.
  unfold activate_body. sat_steps (seq_closed_stops is_raise (fun u => u = [])).
  all: stops_stage.
Qed.

Lemma upload_body_exit node_id name b64 :
  sat (upload_body env node_id name b64) (upload_exit name b64).
Proof.
  unfold upload_body. sat_steps (seq_closed_upload_exit name b64).
  all: stage; unfold upload_exit; cbn; bool_finish.
  all: repeat split; try discriminate; try congruence; auto.
  all: try solve [intuition congruence | repeat constructor].
  all: try solve [right; eexists; split; [left; reflexivity | reflexivity]].
  all: try solve [right; eexists; split; [right; left; reflexivity | reflexivity]].
Qed.

Lemma activate_body_exit : sat (activate_body env) activate_exit.
Proof.
  unfold activate_body. sat_steps seq_closed_activate_exit.
  all: stage; unfold activate_exit; cbn; bool_finish.
  all: repeat split; try discriminate; try congruence; auto.
  all: try solve [intuition congruence].
  all: try solve [eexists [], _; split; reflexivity].
  all: try solve [eexists [_], _; split; reflexivity].
Qed.


Lemma upload_body_first node_id name b64 l w c l' w' t :
  upload_body env node_id name b64 l w = (c, l', w', t) ->
  first_call t = pending_upload l /\ (pending_upload l = None -> pending_upload l' = None).
Proof.
  intros H. unfold upload_body in H.
  run_body H.
  all: unfold pending_upload; cbn; bool_finish.
  all: split; congruence.
Qed.

Lemma activate_body_first l w c l' w' t :
  activate_body env l w = (c, l', w', t) ->
  first_call t = pending_activate l /\
  (pending_activate l = None -> pending_activate l' = None).
Proof.
  intros H. unfold activate_body in H.
  run_body H.
  all: unfold pending_activate; cbn; bool_finish.
  all: repeat match goal with H : _ = _ |- _ => rewrite H end; cbn; split; congruence.
Qed.

End BodyFacts.

(** ** The retry loop, for any body *)

Lemma count_app p (a b : trace) : count p (a ++ b) = count p a + count p b.
Proof. unfold count. now rewrite filter_app, length_app. Qed.

Lemma count_none p (t : trace) : existsb p t = false -> count p t = 0.
Proof.
  unfold count. induction t as [|x t IH]; cbn; auto.
  intros H. apply orb_false_iff in H as [-> Ht]. auto.
Qed.

Lemma handler_lines_no_call c : existsb is_call (handler_lines c) = false.
Proof. destruct c as [| |e]; cbn; auto. destruct (transient e); reflexivity. Qed.

Lemma retries_left_lines_no_call r : existsb is_call (retries_left_lines r) = false.
Proof. unfold retries_left_lines. destruct (Nat.eqb r 0); reflexivity. Qed.

(** A predicate that selects calls only finds nothing in the lines of the
    [except] clauses and of the back-off. *)
Lemma existsb_calls_only p (t : trace) :
  (forall e, p e = true -> is_call e = true) ->
  existsb is_call t = false -> existsb p t = false.
Proof.
  intros Hp. induction t as [|x t IH]; cbn; auto.
  intros H. apply orb_false_iff in H as [Hx Ht]. rewrite IH by auto.
  destruct (p x) eqn:E; auto. apply Hp in E. congruence.
Qed.

Lemma between_no_call c r :
  existsb is_call (handler_lines c ++ EvSleep 5 :: retries_left_lines r) = false.
Proof.
  rewrite existsb_app, handler_lines_no_call. cbn. apply retries_left_lines_no_call.
Qed.

Lemma is_call_of_is_call s e : is_call_of s e = true -> is_call e = true.
Proof. destruct e; cbn; auto. Qed.

Lemma settles_is_call s e : settles s e = true -> is_call e = true.
Proof. destruct e; cbn; auto. Qed.

Lemma returns_is_call s e : returns s e = true -> is_call e = true.
Proof. destruct e; cbn; auto. Qed.

Lemma upload_succeeded_is_call e : upload_succeeded e = true -> is_call e = true.
Proof. destruct e; cbn; auto. Qed.

Lemma service_not_found_is_call e : service_not_found e = true -> is_call e = true.
Proof. destruct e; cbn; auto. Qed.

Lemma start_rejected_is_call e : start_rejected e = true -> is_call e = true.
Proof. destruct e; cbn; auto. Qed.

Lemma is_raise_is_call e : is_raise e = true -> is_call e = true.
Proof. destruct e; cbn; auto. Qed.

Lemma no_call_of_both s a b : no_call_of s a -> no_call_of s b -> no_call_of s (a ++ b).
Proof. intros. now apply no_call_of_app. Qed.

Section AnyLoop.
Variable W : Type.
Variable env : collab W.
Variable body : M W unit.

(** One iteration, then the rest of the loop. *)
Lemma while_retries_S r l w :
  while_retries body (S r) l w =
  match body l w with
  | (cb, l1, w1, tb) =>
      if goes_on cb then
        match while_retries body r l1 w1 with
        | (c, l2, w2, t2) =>
            (c, l2, w2,
             tb ++ (handler_lines cb ++ EvSleep 5 :: retries_left_lines r) ++ t2)
        end
      else (Norm (S r), l1, w1, tb ++ handler_lines cb)
  end.
Proof.
  change (while_retries body (S r) l w) with
    (match bind (try_except body (@on_error W)) (fun _ => @back_off W r) l w with
     | (Norm _, l1, w1, t1) =>
         match while_retries body r l1 w1 with
         | (c, l2, w2, t2) => (c, l2, w2, t1 ++ t2)
         end
     | (Brk, l1, w1, t1) => (Norm (S r), l1, w1, t1)
     | (Exc e, l1, w1, t1) => (Exc e, l1, w1, t1)
     end).
  unfold bind, try_except, back_off, on_error, retries_left_lines, warning_lines,
    sleep, print, log, emit, break, ret.
  destruct (body l w) as [[[cb l1] w1] tb].
  destruct cb as [[]| |e]; cbn.
  - destruct (Nat.eqb r 0); cbn; destruct (while_retries body r l1 w1) as [[[c l2] w2] t2];
      cbn; now rewrite ?app_nil_r, <- ?app_assoc.
  - now rewrite app_nil_r.
  - destruct e; cbn; try reflexivity;
      destruct (Nat.eqb r 0); cbn; destruct (while_retries body r l1 w1) as [[[c l2] w2] t2];
      cbn; now rewrite <- ?app_assoc.
Qed.

(** Induction on the iterations of a loop. *)
Lemma while_retries_ind (P : nat -> locals -> nat -> locals -> trace -> Prop) :
  (forall l, P 0 l 0 l []) ->
  (forall r l w cb l1 w1 tb,
      body l w = (cb, l1, w1, tb) -> goes_on cb = false ->
      P (S r) l (S r) l1 (tb ++ handler_lines cb)) ->
  (forall r l w cb l1 w1 tb k l2 w2 t2,
      body l w = (cb, l1, w1, tb) -> goes_on cb = true ->
      while_retries body r l1 w1 = (Norm k, l2, w2, t2) ->
      P r l1 k l2 t2 ->
      P (S r) l k l2
        (tb ++ (handler_lines cb ++ EvSleep 5 :: retries_left_lines r) ++ t2)) ->
  forall n l w, exists k l' w' t,
    while_retries body n l w = (Norm k, l', w', t) /\ P n l k l' t.
Proof.
  intros H0 Hstop Hgo. induction n as [|r IH]; intros l w.
  - exists 0, l, w, []. split; auto.
  - rewrite while_retries_S.
    destruct (body l w) as [[[cb l1] w1] tb] eqn:Eb.
    destruct (goes_on cb) eqn:Eg.
    + destruct (IH l1 w1) as (k & l2 & w2 & t2 & E & HP). rewrite E.
      eexists _, _, _, _. split; [reflexivity|]. eauto.
    + eexists _, _, _, _. split; [reflexivity|]. eauto.
Qed.

(** The same, for a run that is given. *)
Lemma while_retries_run (P : nat -> locals -> nat -> locals -> trace -> Prop) :
  (forall l, P 0 l 0 l []) ->
  (forall r l w cb l1 w1 tb,
      body l w = (cb, l1, w1, tb) -> goes_on cb = false ->
      P (S r) l (S r) l1 (tb ++ handler_lines cb)) ->
  (forall r l w cb l1 w1 tb k l2 w2 t2,
      body l w = (cb, l1, w1, tb) -> goes_on cb = true ->
      while_retries body r l1 w1 = (Norm k, l2, w2, t2) ->
      P r l1 k l2 t2 ->
      P (S r) l k l2
        (tb ++ (handler_lines cb ++ EvSleep 5 :: retries_left_lines r) ++ t2)) ->
  forall n l w c l' w' t,
    while_retries body n l w = (c, l', w', t) ->
    exists k, c = Norm k /\ P n l k l' t.
Proof.
  intros H0 Hstop Hgo n l w c l' w' t H.
  destruct (while_retries_ind P H0 Hstop Hgo n l w) as (k & l2 & w2 & t2 & E & HP).
  rewrite E in H. injection H as <- <- <- <-. eauto.
Qed.

(** A loop ends normally: no exception leaves it. *)
Lemma while_retries_total n l w :
  exists k l' w' t, while_retries body n l w = (Norm k, l', w', t).
Proof.
  destruct (while_retries_ind (fun _ _ _ _ _ => True)) with (n := n) (l := l) (w := w)
    as (k & l' & w' & t & E & _); eauto.
Qed.

(** The retries left and the sleeps behind add up to the budget. *)
Lemma while_retries_budget n l w c l' w' t :
  (forall l w cb l1 w1 tb, body l w = (cb, l1, w1, tb) -> existsb is_sleep tb = false) ->
  while_retries body n l w = (c, l', w', t) ->
  exists k, c = Norm k /\ k + count is_sleep t = n.
Proof.
  intros Hq. revert n l w c l' w' t.
  apply (while_retries_run (fun n _ k _ t => k + count is_sleep t = n)).
  - reflexivity.
  - intros r l w cb l1 w1 tb Hb Hg. rewrite count_app, (count_none _ _ (Hq _ _ _ _ _ _ Hb)).
    rewrite count_none; [lia|].
    destruct cb as [| |e]; cbn in *; auto. now rewrite Hg.
  - intros r l w cb l1 w1 tb k l2 w2 t2 Hb Hg _ IH.
    rewrite !count_app, (count_none _ _ (Hq _ _ _ _ _ _ Hb)).
    assert (count is_sleep (handler_lines cb) = 0) as ->.
    { apply count_none. destruct cb as [| |e]; cbn in *; auto. now rewrite Hg. }
    assert (count is_sleep (EvSleep 5 :: retries_left_lines r) = 1) as ->.
    { unfold retries_left_lines. destruct (Nat.eqb r 0); reflexivity. }
    lia.
Qed.

(** Events that make the body [break] are the last ones of the loop but for
    what the body still does after them, and leave the budget as it is. *)
Lemma while_retries_stops trigger Q n l w c l' w' t :
  (forall e, trigger e = true -> is_call e = true) ->
  (forall l w cb l1 w1 tb, body l w = (cb, l1, w1, tb) ->
     after_each trigger Q tb /\ (existsb trigger tb = true -> cb = Brk)) ->
  while_retries body n l w = (c, l', w', t) ->
  after_each trigger Q t /\
  (existsb trigger t = true -> exists k, c = Norm (S k)).
Proof.
  intros Hcall Hb H.
  cut (exists k, c = Norm k /\
         (after_each trigger Q t /\ (existsb trigger t = true -> exists j, k = S j))).
  { intros (k & -> & Ha & Hk). split; auto. intros Hex. destruct (Hk Hex) as [j ->]. eauto. }
  revert n l w c l' w' t H.
  apply (while_retries_run
           (fun _ _ k _ t => after_each trigger Q t /\
                             (existsb trigger t = true -> exists j, k = S j))).
  - intros _. cbn. split; auto. discriminate.
  - intros r l w cb l1 w1 tb Eb Hg. destruct (Hb _ _ _ _ _ _ Eb) as [Ha Hbrk].
    split; eauto.
    destruct (existsb trigger tb) eqn:Ex.
    + rewrite (Hbrk eq_refl). cbn. now rewrite app_nil_r.
    + apply after_each_app_none; auto. apply after_each_none.
      apply existsb_calls_only; auto. apply handler_lines_no_call.
  - intros r l w cb l1 w1 tb k l2 w2 t2 Eb Hg _ [IHa IHk].
    destruct (Hb _ _ _ _ _ _ Eb) as [Ha Hbrk].
    assert (Ex : existsb trigger tb = false).
    { apply not_true_false. intros Ex. rewrite (Hbrk Ex) in Hg. discriminate. }
    assert (Ey : existsb trigger (handler_lines cb ++ EvSleep 5 :: retries_left_lines r) = false).
    { apply existsb_calls_only; auto. apply between_no_call. }
    split.
    + apply after_each_app_none; auto. now apply after_each_app_none.
    + rewrite existsb_app, Ex. cbn [orb]. rewrite existsb_app, Ey. exact IHk.
Qed.

(** Memoization across the iterations. *)
Lemma while_retries_memo n l w c l' w' t :
  sat body memo_rel ->
  while_retries body n l w = (c, l', w', t) ->
  forall s,
    (cached l s = true -> no_call_of s t /\ cached l' s = true) /\
    after_each (settles s) (no_call_of s) t.
Proof.
  intros Hb H.
  cut (exists k, c = Norm k /\ forall s,
    (cached l s = true -> no_call_of s t /\ cached l' s = true) /\
    after_each (settles s) (no_call_of s) t).
  { intros (k & _ & ?). auto. }
  revert n l w c l' w' t H.
  apply (while_retries_run (fun _ l _ l' t => forall s,
    (cached l s = true -> no_call_of s t /\ cached l' s = true) /\
    after_each (settles s) (no_call_of s) t)).
  - intros l s. cbn. repeat split; auto.
  - intros r l w cb l1 w1 tb Eb Hg s.
    destruct (Hb _ _ _ _ _ _ Eb s) as (Hs & Ha & He).
    assert (Hn : no_call_of s (handler_lines cb)).
    { apply existsb_calls_only; [apply is_call_of_is_call | apply handler_lines_no_call]. }
    split.
    + intros Hc. destruct (Hs Hc). split; auto. now apply no_call_of_both.
    + apply after_each_app; auto.
      * apply after_each_none.
        apply existsb_calls_only; [apply settles_is_call | apply handler_lines_no_call].
      * intros _ u Hu. now apply no_call_of_both.
  - intros r l w cb l1 w1 tb k l2 w2 t2 Eb Hg _ IH s.
    destruct (Hb _ _ _ _ _ _ Eb s) as (Hs & Ha & He).
    destruct (IH s) as (IHs & IHa).
    set (mid := handler_lines cb ++ EvSleep 5 :: retries_left_lines r).
    assert (Hn : no_call_of s mid).
    { apply existsb_calls_only; [apply is_call_of_is_call | apply between_no_call]. }
    assert (Hm : existsb (settles s) mid = false).
    { apply existsb_calls_only; [apply settles_is_call | apply between_no_call]. }
    split.
    + intros Hc. destruct (Hs Hc) as [? Hc1]. destruct (IHs Hc1).
      split; auto. apply no_call_of_both; auto. now apply no_call_of_both.
    + apply after_each_app; auto.
      * now apply after_each_app_none.
      * intros Hex u Hu. apply no_call_of_both; auto. apply no_call_of_both; auto.
        destruct (He Hex) as [Hc1|Hbrk].
        -- now destruct (IHs Hc1).
        -- destruct cb; cbn in *; try discriminate.
Qed.

(** Only the sub-steps of the body are called. *)
Lemma while_retries_only_calls phase n l w c l' w' t :
  sat body (only_calls phase) ->
  while_retries body n l w = (c, l', w', t) ->
  forall s, phase s = false -> no_call_of s t.
Proof.
  intros Hb H.
  cut (exists k, c = Norm k /\ forall s, phase s = false -> no_call_of s t).
  { intros (k & _ & ?). auto. }
  revert n l w c l' w' t H.
  apply (while_retries_run (fun _ _ _ _ t => forall s, phase s = false -> no_call_of s t)).
  - reflexivity.
  - intros r l w cb l1 w1 tb Eb Hg s Hs. apply no_call_of_both.
    + exact (Hb _ _ _ _ _ _ Eb s Hs).
    + apply existsb_calls_only; [apply is_call_of_is_call | apply handler_lines_no_call].
  - intros r l w cb l1 w1 tb k l2 w2 t2 Eb Hg _ IH s Hs.
    apply no_call_of_both; [|apply no_call_of_both; auto].
    + exact (Hb _ _ _ _ _ _ Eb s Hs).
    + apply existsb_calls_only; [apply is_call_of_is_call | apply between_no_call].
Qed.

End AnyLoop.

(** ** The paths through the command *)

Section Paths.
Variable W : Type.
Variable env : collab W.

Lemma after_upload_cases l w :
  exists c l' w' t,
    after_upload env l w = (c, l', w', t) /\ c <> Brk /\
    after_upload_shape env l w
      (t ++ match c with Exc e => [command_error_line e] | _ => [] end).
Proof.
  unfold after_upload, after_upload_shape, upload_accepted, activate_phase.
  cbv [bind get eval ret raise log print emit json_dumps assign when].
  destruct (is_None (node_object l)) eqn:En; cbn.
  { eexists _, _, _, _. split; [reflexivity|]. split; [discriminate|]. auto. }
  destruct (truthy (status l)) eqn:Es; cbn.
  2:{ eexists _, _, _, _. split; [reflexivity|]. split; [discriminate|]. auto 10. }
  destruct (contains "success" (status l)) as [[|]|e] eqn:Ec; cbn.
  - destruct (json_serialisable (status l)) eqn:Ej1; cbn.
    + destruct (json_serialisable (response l)) eqn:Ej2; cbn.
      * destruct (while_retries_total (activate_body env) MAX_HTTP_CONNECTION_RETRIES
                    (init_activate l) w) as (k & l2 & w2 & tB & E).
        rewrite E. unfold final_lines.
        destruct (in_None_False (ota_status l2)) eqn:Ef; cbn;
          eexists _, _, _, _; (split; [reflexivity|]); (split; [discriminate|]);
          right; (split; [reflexivity|]); right; right; right;
          (split; [reflexivity|]); (split; [reflexivity|]);
          exists k, l2, w2, tB; (split; [reflexivity|]);
          rewrite Ef, ?app_nil_r; reflexivity.
      * eexists _, _, _, _. split; [reflexivity|]. split; [discriminate|]. auto 10.
    + eexists _, _, _, _. split; [reflexivity|]. split; [discriminate|]. auto 10.
  - eexists _, _, _, _. split; [reflexivity|]. split; [discriminate|]. auto 10.
  - eexists _, _, _, _. split; [reflexivity|]. split; [discriminate|].
    right. split; [reflexivity|]. left. eauto.
Qed.

Lemma upgrade_with_cases node_id path w :
  exists c l' w' t,
    upgrade_with env node_id path all_None w = (c, l', w', t) /\ c <> Brk /\
    image_shape env node_id path w
      (t ++ match c with Exc e => [command_error_line e] | _ => [] end).
Proof.
  unfold upgrade_with, image_shape, upload_phase.
  cbv [bind invoke assign].
  destruct (open_read env path w) as [[bs|e] w1] eqn:Er.
  - change (init_upload all_None) with all_None.
    destruct (while_retries_total (upload_body env node_id (img_name_of path) (b64encode bs))
                MAX_HTTP_CONNECTION_RETRIES all_None w1) as (k & l1 & w2 & tA & E).
    rewrite E.
    destruct (after_upload_cases l1 w2) as (c & l2 & w3 & t2 & Ea & Hc & Hs).
    rewrite Ea. cbn.
    eexists _, _, _, _. split; [reflexivity|]. split; auto.
    right. eexists bs, w1, k, l1, w2, tA, _.
    split; [reflexivity|]. split; [first [exact E | reflexivity]|]. split; [exact Hs|].
    cbn. now rewrite <- app_assoc.
  - eexists _, _, _, _. split; [reflexivity|]. split; [discriminate|].
    left. eauto.
Qed.

(** The command returns, along one of its paths. *)
Lemma run_cases vars w :
  exists l' w' t, run env vars w = (Norm tt, l', w', t) /\ run_shape env vars w t.
Proof.
  unfold run, ota_upgrade, run_shape, arguments.
  cbv [try_except bind eval ret raise invoke on_command_error log emit].
  destruct (subscript vars "nodeid") as [node_id|e] eqn:E1.
  2:{ destruct e; eexists _, _, _; (split; [reflexivity|]); left; eauto. }
  destruct (subscript vars "otaimagepath") as [given|e] eqn:E2.
  2:{ destruct e; eexists _, _, _; (split; [reflexivity|]); left; eauto. }
  destruct (fspath given) as [p|e] eqn:E3.
  2:{ destruct e; eexists _, _, _; (split; [reflexivity|]); left; eauto. }
  destruct (os_path_isabs p) eqn:Eabs; cbn.
  - destruct (upgrade_with_cases node_id p w) as (c & l' & w' & t & E & Hc & Hs).
    rewrite E.
    destruct c as [[]| |e]; [| congruence |].
    + eexists _, _, _. split; [reflexivity|]. right. exists node_id, p. split; auto.
      left. split; auto. now rewrite app_nil_r in Hs.
    + destruct e; eexists _, _, _; (split; [reflexivity|]); right; exists node_id, p;
        (split; auto); left; (split; auto).
  - destruct (os_getcwd env w) as [[cwd|e] w1] eqn:Eg; cbn.
    + destruct (upgrade_with_cases node_id (os_path_join cwd p) w1)
        as (c & l' & w' & t & E & Hc & Hs).
      rewrite E.
      destruct c as [[]| |e]; [| congruence |].
      * eexists _, _, _. split; [reflexivity|]. right. exists node_id, p. split; auto.
        right. split; auto. right. exists cwd, w1, t. rewrite app_nil_r in Hs. auto.
      * destruct e; eexists _, _, _; (split; [reflexivity|]); right; exists node_id, p;
          (split; auto); right; (split; auto); right; eexists cwd, w1, _;
          (split; [reflexivity|]); (split; [exact Hs|reflexivity]).
    + destruct e; eexists _, _, _; (split; [reflexivity|]); right; exists node_id, p;
        (split; auto); right; (split; auto); left; eauto.
Qed.

End Paths.

(** ** The two loops *)

Lemma forget_unit (c : ctl unit) : forget c = c.
Proof. now destruct c as [[]| |]. Qed.

Lemma sat_run W (m : M W unit) R l w c l' w' t :
  sat m R -> m l w = (c, l', w', t) -> R l c l' t.
Proof. intros Hs H. rewrite <- (forget_unit c). eauto. Qed.

(** Two kinds of events that each end a trace cannot both be in it. *)
Lemma after_each_exclusive (A B : event -> bool) (Q : trace -> Prop) t :
  after_each A (fun u => u = []) t ->
  after_each B Q t ->
  (forall u, Q u -> existsb A u = false) ->
  (forall e, B e = true -> A e = false) ->
  existsb B t = true -> existsb A t = false.
Proof.
  intros HA HB HQ HAB. induction t as [|e t IH]; cbn in *; auto.
  destruct HA as [HAe HAt], HB as [HBe HBt].
  destruct (B e) eqn:Eb; cbn.
  - intros _. rewrite (HAB _ Eb). cbn. apply HQ. auto.
  - intros Hex. destruct (A e) eqn:Ea; cbn; auto.
    rewrite (HAe eq_refl) in Hex. discriminate.
Qed.

Lemma Forall_uploads_no_call name b64 t :
  existsb is_call t = false -> Forall (uploads name b64) t.
Proof.
  induction t as [|e t IH]; cbn; auto.
  intros H. apply orb_false_iff in H as [He Ht]. constructor; auto.
  destruct e; cbn in *; auto. discriminate.
Qed.

Lemma goes_on_no_error c : goes_on c = true -> existsb is_error_log (handler_lines c) = false.
Proof. destruct c as [| |e]; cbn; auto. now intros ->. Qed.

Lemma retries_left_no_error r : existsb is_error_log (retries_left_lines r) = false.
Proof. unfold retries_left_lines. now destruct (Nat.eqb r 0). Qed.

Lemma between_no_error c r :
  goes_on c = true ->
  existsb is_error_log (handler_lines c ++ EvSleep 5 :: retries_left_lines r) = false.
Proof.
  intros H. rewrite existsb_app, (goes_on_no_error _ H). cbn. apply retries_left_no_error.
Qed.

Lemma in_no_call e t : In e t -> existsb is_call t = false -> is_call e = false.
Proof.
  induction t as [|x t IH]; cbn; [tauto|].
  intros [->|Hin] H; apply orb_false_iff in H as [Hx Ht]; auto.
Qed.

Section PhaseLoops.
Variable W : Type.
Variable env : collab W.

Section Upload.
Variables (node_id : pyval) (img_name base64_fw_img : string).
Variables (n : nat) (l : locals) (w : W) (c : ctl nat) (l' : locals) (w' : W) (t : trace).
Hypothesis Hrun :
  while_retries (upload_body env node_id img_name base64_fw_img) n l w = (c, l', w', t).

Lemma upload_loop_success :
  after_each upload_succeeded (fun u => u = []) t /\
  (existsb upload_succeeded t = true -> exists k, c = Norm (S k)).
Proof.
  eapply while_retries_stops; [apply upload_succeeded_is_call | | exact Hrun].
  intros l0 w0 cb l1 w1 tb Hb. split.
  - apply (@sat_run _ _ _ _ _ _ _ _ _ (upload_body_success env node_id img_name base64_fw_img) Hb).
  - apply (@sat_run _ _ _ _ _ _ _ _ _ (upload_body_exit env node_id img_name base64_fw_img) Hb).
Qed.

Lemma upload_loop_not_found :
  after_each service_not_found (fun u => u = [not_found_line (OTA_SERVICE_TYPE env)]) t /\
  (existsb service_not_found t = true -> exists k, c = Norm (S k)).
Proof.
  eapply while_retries_stops; [apply service_not_found_is_call | | exact Hrun].
  intros l0 w0 cb l1 w1 tb Hb. split.
  - apply (@sat_run _ _ _ _ _ _ _ _ _ (upload_body_not_found env node_id img_name base64_fw_img) Hb).
  - apply (@sat_run _ _ _ _ _ _ _ _ _ (upload_body_exit env node_id img_name base64_fw_img) Hb).
Qed.

Lemma upload_loop_memo s :
  (cached l s = true -> no_call_of s t /\ cached l' s = true) /\
  after_each (settles s) (no_call_of s) t.
Proof. eapply while_retries_memo; [apply upload_body_memo | exact Hrun]. Qed.

Lemma upload_loop_only s : in_upload_phase s = false -> no_call_of s t.
Proof. eapply while_retries_only_calls; [apply upload_body_calls | exact Hrun]. Qed.

Lemma upload_loop_exclusive :
  existsb service_not_found t = true -> existsb upload_succeeded t = false.
Proof.
  eapply after_each_exclusive.
  - apply upload_loop_success.
  - apply upload_loop_not_found.
  - intros u ->. reflexivity.
  - intros [[] [[]|]| | |]; cbn; try discriminate; auto.
Qed.

End Upload.

Lemma upload_loop_link node_id img_name base64_fw_img n l w c l' w' t :
  while_retries (upload_body env node_id img_name base64_fw_img) n l w = (c, l', w', t) ->
  (truthy (status l) = false -> existsb upload_succeeded t = false ->
   truthy (status l') = false) /\
  ((status l' = status l /\ response l' = response l) \/
   exists c0, In (EvCall c0 (Ok (RPair (status l') (response l')))) t /\
              step_of c0 = UploadImage) /\
  (existsb upload_succeeded t = true -> existsb is_error_log t = false) /\
  Forall (uploads img_name base64_fw_img) t.
Proof.
  intros H.
  cut (exists k, c = Norm k /\
    ((truthy (status l) = false -> existsb upload_succeeded t = false ->
      truthy (status l') = false) /\
     ((status l' = status l /\ response l' = response l) \/
      exists c0, In (EvCall c0 (Ok (RPair (status l') (response l')))) t /\
                 step_of c0 = UploadImage) /\
     (existsb upload_succeeded t = true -> existsb is_error_log t = false) /\
     Forall (uploads img_name base64_fw_img) t)).
  { intros (k & _ & ?). auto. }
  revert n l w c l' w' t H.
  apply (@while_retries_run _ (upload_body env node_id img_name base64_fw_img) (fun _ l _ l' t =>
    (truthy (status l) = false -> existsb upload_succeeded t = false ->
      truthy (status l') = false) /\
     ((status l' = status l /\ response l' = response l) \/
      exists c0, In (EvCall c0 (Ok (RPair (status l') (response l')))) t /\
                 step_of c0 = UploadImage) /\
     (existsb upload_succeeded t = true -> existsb is_error_log t = false) /\
     Forall (uploads img_name base64_fw_img) t)).
  - intros l. cbn. repeat split; auto; discriminate.
  - intros r l w cb l1 w1 tb Eb Hg.
    destruct (@sat_run _ _ _ _ _ _ _ _ _ (upload_body_exit env node_id img_name base64_fw_img) Eb)
      as (_ & He & Hu & _ & _ & Hf & Hl & Ha).
    assert (Hh : existsb upload_succeeded (handler_lines cb) = false).
    { apply existsb_calls_only; [apply upload_succeeded_is_call | apply handler_lines_no_call]. }
    rewrite !existsb_app, Hh, orb_false_r. repeat split.
    + exact Hf.
    + destruct Hl as [|(c0 & Hin & Hc0)]; auto.
      right. exists c0. split; auto. apply in_or_app; auto.
    + intros Hex. destruct (Hu Hex) as [-> ->]. reflexivity.
    + apply Forall_app. split; auto.
      apply Forall_uploads_no_call, handler_lines_no_call.
  - intros r l w cb l1 w1 tb k l2 w2 t2 Eb Hg _ (IHf & IHl & IHe & IHa).
    destruct (@sat_run _ _ _ _ _ _ _ _ _ (upload_body_exit env node_id img_name base64_fw_img) Eb)
      as (_ & He & Hu & _ & _ & Hf & Hl & Ha).
    set (mid := handler_lines cb ++ EvSleep 5 :: retries_left_lines r).
    assert (Hm : existsb upload_succeeded mid = false).
    { apply existsb_calls_only; [apply upload_succeeded_is_call | apply between_no_call]. }
    assert (Hme : existsb is_error_log mid = false) by now apply between_no_error.
    assert (Hb1 : existsb upload_succeeded tb = false).
    { apply not_true_false. intros Hex. destruct (Hu Hex) as [-> _]. discriminate. }
    assert (Hb2 : existsb is_error_log tb = false).
    { apply not_true_false. intros Hex. rewrite (He Hex) in Hg. discriminate. }
    rewrite !existsb_app, Hm, Hme, Hb1, Hb2. cbn [orb]. repeat split.
    + intros Hs Hex. apply IHf; auto.
    + destruct IHl as [[-> ->]|(c0 & Hin & Hc0)].
      * destruct Hl as [|(c0 & Hin & Hc0)]; auto.
        right. exists c0. split; auto. apply in_or_app; auto.
      * right. exists c0. split; auto. apply in_or_app. right. apply in_or_app; auto.
    + exact IHe.
    + apply Forall_app. split; auto. apply Forall_app. split; auto.
      apply Forall_uploads_no_call, between_no_call.
Qed.

Section Activate.
Variables (n : nat) (l : locals) (w : W) (c : ctl nat) (l' : locals) (w' : W) (t : trace).
Hypothesis Hrun : while_retries (activate_body env) n l w = (c, l', w', t).

Lemma activate_loop_polled :
  after_each polled (fun u => u = []) t /\
  (existsb polled t = true -> exists k, c = Norm (S k)).
Proof.
  eapply while_retries_stops; [apply returns_is_call | | exact Hrun].
  intros l0 w0 cb l1 w1 tb Hb. split.
  - apply (@sat_run _ _ _ _ _ _ _ _ _ (activate_body_polled env) Hb).
  - apply (@sat_run _ _ _ _ _ _ _ _ _ (activate_body_exit env) Hb).
Qed.

Lemma activate_loop_rejected :
  after_each start_rejected
    (fun u => exists v, u = [EvLog Debug [Lit "OTA status received: "; StrOf v];
                             EvLog Error [Lit "Failed to start OTA service...Exiting..."]]) t /\
  (existsb start_rejected t = true -> exists k, c = Norm (S k)).
Proof.
  eapply while_retries_stops; [apply start_rejected_is_call | | exact Hrun].
  intros l0 w0 cb l1 w1 tb Hb. split.
  - apply (@sat_run _ _ _ _ _ _ _ _ _ (activate_body_rejected env) Hb).
  - apply (@sat_run _ _ _ _ _ _ _ _ _ (activate_body_exit env) Hb).
Qed.

Lemma activate_loop_memo s :
  (cached l s = true -> no_call_of s t /\ cached l' s = true) /\
  after_each (settles s) (no_call_of s) t.
Proof. eapply while_retries_memo; [apply activate_body_memo | exact Hrun]. Qed.

Lemma activate_loop_only s : in_activate_phase s = false -> no_call_of s t.
Proof. eapply while_retries_only_calls; [apply activate_body_calls | exact Hrun]. Qed.

Lemma activate_loop_exclusive :
  existsb start_rejected t = true -> existsb polled t = false.
Proof.
  eapply after_each_exclusive.
  - apply activate_loop_polled.
  - apply activate_loop_rejected.
  - intros u [v ->]. reflexivity.
  - intros [[] [[]|]| | |]; cbn; try discriminate; auto.
Qed.

End Activate.

End PhaseLoops.

Lemma app_eq_app_cons (A : Type) (t1 t2 a b : list A) e :
  t1 ++ e :: t2 = a ++ b ->
  (exists a', a = t1 ++ e :: a' /\ t2 = a' ++ b) \/
  (exists b', t1 = a ++ b' /\ b = b' ++ e :: t2).
Proof.
  revert a. induction t1 as [|x t1 IH]; intros a H.
  - destruct a as [|y a]; cbn in *.
    + right. exists []. auto.
    + injection H as -> ->. left. exists a. auto.
  - destruct a as [|y a]; cbn in *.
    + right. exists (x :: t1). auto.
    + injection H as -> H. destruct (IH _ H) as [(a' & -> & ->)|(b' & -> & ->)].
      * left. exists a'. auto.
      * right. exists b'. auto.
Qed.

Lemma existsb_in (p : event -> bool) e t : In e t -> p e = true -> existsb p t = true.
Proof. intros Hin He. apply existsb_exists. eauto. Qed.

Lemma after_each_last trigger t1 e t2 :
  after_each trigger (fun u => u = []) (t1 ++ e :: t2) -> trigger e = true -> t2 = [].
Proof. intros H. apply (proj1 (after_each_split _ _ _) H t1 e t2 eq_refl). Qed.

Section PhaseLinks.
Variable W : Type.
Variable env : collab W.

Lemma activate_body_no_url l w c l' w' t :
  activate_body env l w = (c, l', w', t) ->
  contains "image_url" (response l) <> Ok true -> t = [].
Proof.
  unfold activate_body. cbv [bind get eval ret raise].
  destruct (contains "image_url" (response l)) as [[|]|e]; cbn.
  - congruence.
  - intros H _. now injection H as <- <- <- <-.
  - intros H _. now injection H as <- <- <- <-.
Qed.

Lemma activate_loop_link n l w c l' w' t :
  while_retries (activate_body env) n l w = (c, l', w', t) ->
  (existsb polled t = false -> ota_status l' = ota_status l) /\
  (existsb polled t = true ->
   existsb is_error_log t = false /\
   exists t0 c0, t = t0 ++ [EvCall c0 (Ok (RVal (ota_status l')))] /\
                 step_of c0 = CheckOtaStatus) /\
  response l' = response l /\
  (contains "image_url" (response l) <> Ok true -> existsb is_call t = false).
Proof.
  intros H.
  cut (exists k, c = Norm k /\
    ((existsb polled t = false -> ota_status l' = ota_status l) /\
     (existsb polled t = true ->
      existsb is_error_log t = false /\
      exists t0 c0, t = t0 ++ [EvCall c0 (Ok (RVal (ota_status l')))] /\
                    step_of c0 = CheckOtaStatus) /\
     response l' = response l /\
     (contains "image_url" (response l) <> Ok true -> existsb is_call t = false))).
  { intros (k & _ & ?). auto. }
  revert n l w c l' w' t H.
  apply (@while_retries_run _ (activate_body env) (fun _ l _ l' t =>
    (existsb polled t = false -> ota_status l' = ota_status l) /\
     (existsb polled t = true ->
      existsb is_error_log t = false /\
      exists t0 c0, t = t0 ++ [EvCall c0 (Ok (RVal (ota_status l')))] /\
                    step_of c0 = CheckOtaStatus) /\
     response l' = response l /\
     (contains "image_url" (response l) <> Ok true -> existsb is_call t = false))).
  - intros l. cbn. repeat split; auto; discriminate.
  - intros r l w cb l1 w1 tb Eb Hg.
    destruct (@sat_run _ _ _ _ _ _ _ _ _ (activate_body_exit env) Eb)
      as (_ & He & Hp & _ & _ & Hf & Hl).
    assert (Hh : existsb polled (handler_lines cb) = false).
    { apply existsb_calls_only; [apply returns_is_call | apply handler_lines_no_call]. }
    rewrite !existsb_app, Hh, orb_false_r. repeat split; auto.
    + destruct (Hp H) as (-> & -> & _). reflexivity.
    + destruct (Hp H) as (-> & _ & t0 & c0 & -> & Hc0).
      exists t0, c0. cbn. rewrite app_nil_r. auto.
    + intros Hno. rewrite (activate_body_no_url _ _ Eb Hno). cbn.
      apply handler_lines_no_call.
  - intros r l w cb l1 w1 tb k l2 w2 t2 Eb Hg _ (IHf & IHp & IHl & IHn).
    destruct (@sat_run _ _ _ _ _ _ _ _ _ (activate_body_exit env) Eb)
      as (_ & He & Hp & _ & _ & Hf & Hl).
    set (mid := handler_lines cb ++ EvSleep 5 :: retries_left_lines r).
    assert (Hm : existsb polled mid = false).
    { apply existsb_calls_only; [apply returns_is_call | apply between_no_call]. }
    assert (Hme : existsb is_error_log mid = false) by now apply between_no_error.
    assert (Hb1 : existsb polled tb = false).
    { apply not_true_false. intros Hex. destruct (Hp Hex) as [-> _]. discriminate. }
    assert (Hb2 : existsb is_error_log tb = false).
    { apply not_true_false. intros Hex. rewrite (He Hex) in Hg. discriminate. }
    rewrite !existsb_app, Hm, Hme, Hb1, Hb2. cbn [orb]. repeat split.
    + intros Hex. rewrite (IHf Hex). auto.
    + now apply IHp.
    + destruct (IHp H) as (_ & t0 & c0 & -> & Hc0).
      exists (tb ++ mid ++ t0), c0. split; auto. now rewrite <- !app_assoc.
    + congruence.
    + intros Hno. rewrite (activate_body_no_url _ _ Eb Hno). cbn [existsb orb].
      unfold mid. rewrite between_no_call. cbn [orb].
      apply IHn. now rewrite Hl.
Qed.

(** Service discovery is only called with a node at hand. *)
Lemma upload_body_node node_id name b64 l w c l' w' t :
  upload_body env node_id name b64 l w = (c, l', w', t) ->
  existsb (is_call_of VerifyService) t = true -> truthy (node_object l') = true.
Proof.
  intros H. unfold upload_body in H. run_body H.
  all: cbn; bool_finish.
Qed.

Lemma upload_loop_node node_id name b64 n l w c l' w' t :
  while_retries (upload_body env node_id name b64) n l w = (c, l', w', t) ->
  existsb (is_call_of VerifyService) t = true -> truthy (node_object l') = true.
Proof.
  intros H.
  cut (exists k, c = Norm k /\
         (existsb (is_call_of VerifyService) t = true -> truthy (node_object l') = true)).
  { intros (k & _ & ?). auto. }
  revert n l w c l' w' t H.
  apply (@while_retries_run _ (upload_body env node_id name b64) (fun _ l _ l' t =>
     existsb (is_call_of VerifyService) t = true -> truthy (node_object l') = true)).
  - discriminate.
  - intros r l w cb l1 w1 tb Eb Hg.
    rewrite existsb_app.
    rewrite (@existsb_calls_only (is_call_of VerifyService) (handler_lines cb)
               (@is_call_of_is_call _) (handler_lines_no_call cb)), orb_false_r.
    eapply upload_body_node; eauto.
  - intros r l w cb l1 w1 tb k l2 w2 t2 Eb Hg E2 IH.
    rewrite existsb_app.
    rewrite (existsb_app _ (handler_lines cb ++ EvSleep 5 :: retries_left_lines r) t2).
    rewrite (@existsb_calls_only (is_call_of VerifyService) _
               (@is_call_of_is_call _) (between_no_call cb r)). cbn [orb].
    intros Hex. apply orb_true_iff in Hex as [Hex|Hex]; auto.
    pose proof (upload_body_node _ _ _ _ _ Eb Hex) as Hn.
    destruct (@upload_loop_memo _ _ _ _ _ _ _ _ _ _ _ _ E2 NewNode) as [Hs _]. now destruct (Hs Hn).
Qed.

End PhaseLinks.

(** ** Facts about whole runs *)

Lemma after_each_app_gen trigger (Q P : trace -> Prop) a b :
  after_each trigger Q a ->
  (existsb trigger a = true -> forall u, Q u -> P (u ++ b)) ->
  after_each trigger P b ->
  after_each trigger P (a ++ b).
Proof.
  induction a as [|x a IH]; cbn; auto.
  intros [Hx Ha] Hext Hb. split.
  - intros Ht. apply Hext; auto. now rewrite Ht.
  - apply IH; auto. intros Hex. apply Hext. rewrite Hex. apply orb_true_r.
Qed.

Lemma calm_no_call t : calm t -> existsb is_call t = false.
Proof.
  unfold calm. induction t as [|e t IH]; cbn; auto.
  intros H. apply orb_false_iff in H as [He Ht]. apply orb_false_iff in He as [-> _].
  cbn. auto.
Qed.

Lemma no_call_calls_within phase t : existsb is_call t = false -> calls_within phase t.
Proof.
  intros H s _. apply existsb_calls_only; auto. apply is_call_of_is_call.
Qed.

Lemma calls_within_app phase a b :
  calls_within phase a -> calls_within phase b -> calls_within phase (a ++ b).
Proof. intros Ha Hb s Hs. apply no_call_of_both; auto. Qed.

Lemma settles_calls s e : settles s e = true -> is_call_of s e = true.
Proof. destruct e as [c [r|]| | |]; cbn; try discriminate. now intros H%andb_true_iff. Qed.

Lemma existsb_impl (p q : event -> bool) t :
  (forall e, p e = true -> q e = true) -> existsb q t = false -> existsb p t = false.
Proof.
  intros Hpq. induction t as [|e t IH]; cbn; auto.
  intros H. apply orb_false_iff in H as [He Ht]. rewrite IH by auto.
  destruct (p e) eqn:E; auto. apply Hpq in E. congruence.
Qed.

Lemma settled_within phase s t :
  calls_within phase t -> existsb (settles s) t = true -> phase s = true.
Proof.
  intros Hw Hex. destruct (phase s) eqn:E; auto.
  rewrite (existsb_impl _ _ _ (@settles_calls s) (Hw s E)) in Hex. discriminate.
Qed.

Lemma command_error_line_error e : is_error_log (command_error_line e) = true.
Proof. now destruct e. Qed.

Lemma command_error_line_call e : is_call (command_error_line e) = false.
Proof. now destruct e. Qed.

Lemma command_error_line_sleep e : is_sleep (command_error_line e) = false.
Proof. now destruct e. Qed.

Lemma final_lines_no_call l : existsb is_call (final_lines l) = false.
Proof. unfold final_lines. now destruct (in_None_False (ota_status l)). Qed.

Lemma final_lines_calm l : calm (final_lines l).
Proof. unfold final_lines, calm. now destruct (in_None_False (ota_status l)). Qed.



Section AfterUpload.
Variable W : Type.
Variable env : collab W.

Lemma trace_of_shape vars w :
  ending_of env vars w = Norm tt /\ run_shape env vars w (trace_of env vars w).
Proof.
  unfold ending_of, trace_of.
  destruct (run_cases env vars w) as (l' & w' & t & -> & Hs). auto.
Qed.

Lemma lines_facts l rest :
  existsb is_call rest = false ->
  existsb is_error_log rest = true ->
  (upload_accepted l = Ok false ->
   calm rest /\ (is_None (node_object l) = false -> In failed_line rest)) ->
  calls_within in_activate_phase rest /\
  (forall s, after_each (settles s) (no_call_of s) rest) /\
  (existsb is_call rest = true ->
   upload_accepted l = Ok true /\ contains "image_url" (response l) = Ok true) /\
  after_each start_rejected reported_failed rest /\
  (upload_accepted l = Ok false ->
   calm rest /\ (is_None (node_object l) = false -> In failed_line rest)) /\
  (existsb is_error_log rest = false ->
   upload_accepted l = Ok true /\
   exists t0 c0 v, rest = t0 ++ [EvCall c0 (Ok (RVal v))] /\ step_of c0 = CheckOtaStatus /\
                   in_None_False v = false) /\
  ((exists t0 e, rest = t0 ++ [e] /\ is_call e = true) ->
   existsb is_error_log rest = false).
Proof.
  intros Hc He Hf.
  split; [now apply no_call_calls_within|].
  split; [intros s; apply after_each_none, existsb_calls_only;
          [apply settles_is_call | assumption]|].
  split; [congruence|].
  split; [apply after_each_none, existsb_calls_only;
          [apply start_rejected_is_call | assumption]|].
  split; [assumption|].
  split; [congruence|].
  intros (t0 & e & -> & Hcall). exfalso.
  assert (Hin : In e (t0 ++ [e])) by (apply in_or_app; right; now left).
  rewrite (in_no_call _ _ Hin Hc) in Hcall. discriminate.
Qed.

(** What the command does after the upload loop. *)
Lemma after_upload_facts l w rest :
  after_upload_shape env l w rest ->
  calls_within in_activate_phase rest /\
  (forall s, after_each (settles s) (no_call_of s) rest) /\
  (existsb is_call rest = true ->
   upload_accepted l = Ok true /\ contains "image_url" (response l) = Ok true) /\
  after_each start_rejected reported_failed rest /\
  (upload_accepted l = Ok false ->
   calm rest /\ (is_None (node_object l) = false -> In failed_line rest)) /\
  (existsb is_error_log rest = false ->
   upload_accepted l = Ok true /\
   exists t0 c0 v, rest = t0 ++ [EvCall c0 (Ok (RVal v))] /\ step_of c0 = CheckOtaStatus /\
                   in_None_False v = false) /\
  ((exists t0 e, rest = t0 ++ [e] /\ is_call e = true) ->
   existsb is_error_log rest = false).
Proof.
  intros [[Hn ->]|[Hn [(e & Ha & ->)|[[Ha ->]|[(Ha & Hj & ->)|(Ha & Hj & k & l2 & w2 & tB & E & ->)]]]]].
  - apply lines_facts; try reflexivity. intros _. split; [reflexivity|congruence].
  - apply lines_facts; cbn.
    + now rewrite command_error_line_call.
    + now rewrite command_error_line_error.
    + congruence.
  - apply lines_facts; try reflexivity. intros _. split; [reflexivity|]. intros _. cbn. auto.
  - apply lines_facts; try reflexivity. congruence.
  - destruct (@activate_loop_link _ _ _ _ _ _ _ _ _ E) as (Hf & Hp & Hr & Hu).
    destruct (@activate_loop_rejected _ _ _ _ _ _ _ _ _ E) as [Hrej _].
    pose proof (@activate_loop_exclusive _ _ _ _ _ _ _ _ _ E) as Hexcl.
    assert (Hdone : existsb is_call (upload_done_lines l) = false) by reflexivity.
    split; [|split; [|split; [|split; [|split; [|split]]]]].
    + apply calls_within_app; [now apply no_call_calls_within|].
      apply calls_within_app; [|apply no_call_calls_within, final_lines_no_call].
      intros s Hs. eapply activate_loop_only; eauto.
    + intros s. apply after_each_app_none.
      { apply existsb_calls_only; [apply settles_is_call | assumption]. }
      apply after_each_app.
      * eapply activate_loop_memo; eauto.
      * apply after_each_none. apply existsb_calls_only;
          [apply settles_is_call | apply final_lines_no_call].
      * intros _ u Hu0. apply no_call_of_both; auto.
        apply existsb_calls_only; [apply is_call_of_is_call | apply final_lines_no_call].
    + intros H. split; [assumption|].
      destruct (contains "image_url" (response l)) as [[|]|e] eqn:Ec; auto; exfalso.
      all: rewrite !existsb_app, Hdone, final_lines_no_call, orb_false_r in H; cbn in H.
      all: rewrite Hu in H; [discriminate | cbn; rewrite Ec; discriminate].
    + apply after_each_app_none; [reflexivity|].
      eapply after_each_app_gen; [exact Hrej | |].
      * intros Hex u [v ->]. pose proof (Hf (Hexcl Hex)) as Ho. cbn in Ho.
        unfold final_lines. rewrite Ho. cbn. split; [reflexivity|]. cbn. auto.
      * apply after_each_none. apply existsb_calls_only;
          [apply start_rejected_is_call | apply final_lines_no_call].
    + congruence.
    + intros H. split; [assumption|].
      rewrite !existsb_app in H. apply orb_false_iff in H as [_ H].
      apply orb_false_iff in H as [Hb Hfin].
      assert (Hi : in_None_False (ota_status l2) = false).
      { unfold final_lines in Hfin. destruct (in_None_False (ota_status l2)); auto. }
      assert (Hpo : existsb polled tB = true).
      { destruct (existsb polled tB) eqn:Ep; auto. rewrite (Hf eq_refl) in Hi. discriminate. }
      destruct (Hp Hpo) as (_ & t0 & c0 & -> & Hc0).
      exists (upload_done_lines l ++ t0), c0, (ota_status l2).
      unfold final_lines. rewrite Hi, app_nil_r, <- app_assoc. auto.
    + intros (t0 & e & H & He).
      assert (Hi : in_None_False (ota_status l2) = false).
      { destruct (in_None_False (ota_status l2)) eqn:Ei; auto. exfalso.
        unfold final_lines in H. rewrite Ei in H.
        rewrite !app_assoc in H.
        change [failed_line; EvLog Debug [Lit "OTA Upgrade...Failed ota_status: ";
                                          StrOf (ota_status l2)]]
          with ([failed_line] ++ [EvLog Debug [Lit "OTA Upgrade...Failed ota_status: ";
                                          StrOf (ota_status l2)]]) in H.
        rewrite app_assoc in H. apply app_inj_tail in H as [_ <-]. discriminate. }
      assert (Hpo : existsb polled tB = true).
      { destruct (existsb polled tB) eqn:Ep; auto. rewrite (Hf eq_refl) in Hi. discriminate. }
      destruct (Hp Hpo) as (Hne & _).
      unfold final_lines. rewrite Hi, !existsb_app, Hne. reflexivity.
Qed.

End AfterUpload.

Lemma calm_app a b : calm (a ++ b) <-> calm a /\ calm b.
Proof. unfold calm. rewrite existsb_app, orb_false_iff. tauto. Qed.

Lemma truthy_not_None v : truthy v = true -> is_None v = false.
Proof. now destruct v. Qed.

Lemma phases_disjoint s : in_upload_phase s = true -> in_activate_phase s = false.
Proof. now destruct s. Qed.

Lemma not_found_calls e : service_not_found e = true -> is_call_of VerifyService e = true.
Proof. destruct e as [[] [[]|]| | |]; cbn; auto. Qed.

Lemma rejected_calls e : start_rejected e = true -> is_call_of StartOta e = true.
Proof. destruct e as [[] [[]|]| | |]; cbn; auto. Qed.


Lemma accepted_status l :
  upload_accepted l = Ok true ->
  truthy (status l) = true /\ contains "success" (status l) = Ok true.
Proof. unfold upload_accepted. destruct (truthy (status l)); cbn; auto. discriminate. Qed.

Lemma not_accepted l : truthy (status l) = false -> upload_accepted l = Ok false.
Proof. unfold upload_accepted. now intros ->. Qed.


Lemma error_line_none (p : event -> bool) e :
  (forall x, p x = true -> is_call x = true) -> p (command_error_line e) = false.
Proof.
  intros Hp. destruct (p (command_error_line e)) eqn:E; auto.
  apply Hp in E. now rewrite command_error_line_call in E.
Qed.

Section Images.
Variable W : Type.
Variable env : collab W.
Variables (node_id : pyval) (path : string) (w : W) (t : trace).
Hypothesis Himage : image_shape env node_id path w t.


Lemma image_no_getcwd : no_call_of GetCwd t.
Proof.
  destruct Himage as [(e & w1 & _ & ->)|(bs & w1 & k & l1 & w2 & tA & rest & Er & E & Hs & ->)].
  - unfold no_call_of. cbn.
    now rewrite (error_line_none _ e (@is_call_of_is_call _)).
  - destruct (after_upload_facts Hs) as (Hw & _).
    change (no_call_of GetCwd ([EvCall (c_open_read path) (Ok (RBytes bs))] ++ tA ++ rest)).
    apply no_call_of_both; [reflexivity|]. apply no_call_of_both.
    + eapply upload_loop_only; eauto.
    + now apply Hw.
Qed.

Lemma image_memo s : after_each (settles s) (no_call_of s) t.
Proof.
  destruct Himage as [(e & w1 & _ & ->)|(bs & w1 & k & l1 & w2 & tA & rest & Er & E & Hs & ->)].
  - apply after_each_none. cbn.
    now rewrite (error_line_none _ e (@settles_is_call _)).
  - destruct (after_upload_facts Hs) as (Hw & Hm & _).
    assert (HwA : calls_within in_upload_phase tA).
    { intros s0 Hs0. eapply upload_loop_only; eauto. }
    cbn. split.
    + intros Hset. destruct s; try discriminate.
      apply no_call_of_both; [now apply HwA | now apply Hw].
    + apply after_each_app; auto.
      * eapply upload_loop_memo; eauto.
      * intros Hex u Hu. apply no_call_of_both; auto.
        apply Hw, phases_disjoint. eapply settled_within; eauto.
Qed.

Lemma image_not_found : after_each service_not_found reported_failed t.
Proof.
  destruct Himage as [(e & w1 & _ & ->)|(bs & w1 & k & l1 & w2 & tA & rest & Er & E & Hs & ->)].
  - apply after_each_none. cbn.
    now rewrite (error_line_none _ e service_not_found_is_call).
  - destruct (after_upload_facts Hs) as (Hw & _ & _ & _ & Hf & _).
    destruct (@upload_loop_not_found _ _ _ _ _ _ _ _ _ _ _ _ E) as [Hnf _].
    destruct (@upload_loop_link _ _ _ _ _ _ _ _ _ _ _ _ E) as (Hst & _).
    cbn. split; [discriminate|].
    eapply after_each_app_gen; [exact Hnf | |].
    + intros Hex u ->.
      assert (Hfalse : truthy (status l1) = false).
      { apply Hst; [reflexivity|]. eapply upload_loop_exclusive; eauto. }
      assert (Hnode : is_None (node_object l1) = false).
      { apply truthy_not_None. eapply upload_loop_node; eauto.
        destruct (existsb (is_call_of VerifyService) tA) eqn:Ev; auto.
        rewrite (existsb_impl _ _ _ not_found_calls Ev) in Hex. discriminate. }
      destruct (Hf (not_accepted _ Hfalse)) as [Hcalm Hin].
      split.
      * apply calm_app. split; [reflexivity | assumption].
      * cbn. right. auto.
    + apply after_each_none. eapply existsb_impl; [apply not_found_calls|].
      now apply Hw.
Qed.

Lemma image_rejected : after_each start_rejected reported_failed t.
Proof.
  destruct Himage as [(e & w1 & _ & ->)|(bs & w1 & k & l1 & w2 & tA & rest & Er & E & Hs & ->)].
  - apply after_each_none. cbn.
    now rewrite (error_line_none _ e start_rejected_is_call).
  - destruct (after_upload_facts Hs) as (_ & _ & _ & Hr & _).
    cbn. split; [discriminate|].
    apply after_each_app_none; auto.
    eapply existsb_impl; [apply rejected_calls|].
    eapply upload_loop_only; eauto.
Qed.

Lemma image_entry s :
  in_activate_phase s = true -> existsb (is_call_of s) t = true ->
  exists c st resp,
    In (EvCall c (Ok (RPair st resp))) t /\ step_of c = UploadImage /\
    truthy st = true /\ contains "success" st = Ok true /\
    contains "image_url" resp = Ok true.
Proof.
  intros Hs Hcall.
  destruct Himage as [(e & w1 & _ & ->)|(bs & w1 & k & l1 & w2 & tA & rest & Er & E & Hsh & ->)].
  - exfalso. cbn in Hcall.
    rewrite (error_line_none _ e (@is_call_of_is_call _)) in Hcall.
    destruct s; discriminate.
  - destruct (after_upload_facts Hsh) as (_ & _ & Hacc & _).
    destruct (@upload_loop_link _ _ _ _ _ _ _ _ _ _ _ _ E) as (_ & Hl & _).
    assert (HA : no_call_of s tA).
    { eapply upload_loop_only; eauto. destruct s; auto; discriminate. }
    cbn in Hcall. rewrite existsb_app, HA in Hcall.
    assert (Hrest : existsb is_call rest = true).
    { destruct (existsb is_call rest) eqn:Er'; auto.
      rewrite (@existsb_calls_only (is_call_of s) rest (@is_call_of_is_call _) Er') in Hcall.
      destruct s; discriminate. }
    destruct (Hacc Hrest) as [Ha Hu]. destruct (accepted_status _ Ha) as [Ht Hc].
    destruct Hl as [[Hst _]|(c0 & Hin & Hc0)].
    + rewrite Hst in Ht. discriminate.
    + exists c0, (status l1), (response l1). repeat split; auto.
      right. apply in_or_app. auto.
Qed.


End Images.


Lemma step_eqb_refl s : step_eqb s s = true.
Proof. now destruct s. Qed.

Section WholeRuns.
Variable W : Type.
Variable env : collab W.
Variables (vars : pyval) (w : W).

Lemma run_memo s : after_each (settles s) (no_call_of s) (trace_of env vars w).
Proof.
  destruct (trace_of_shape env vars w) as [_ Hs].
  destruct Hs as [(e & _ & ->)|(node_id & p & _ &
    [[_ Hi]|[_ [(e & w1 & _ & ->)|(cwd & w1 & t' & _ & Hi & ->)]]])].
  - apply after_each_none. cbn. now rewrite (error_line_none _ e (@settles_is_call _)).
  - now apply image_memo with (1 := Hi).
  - apply after_each_none. cbn. now rewrite (error_line_none _ e (@settles_is_call _)).
  - cbn. split.
    + intros Hset. destruct s; try discriminate. now apply image_no_getcwd with (1 := Hi).
    + now apply image_memo with (1 := Hi).
Qed.

Lemma run_fatal :
  after_each service_not_found reported_failed (trace_of env vars w) /\
  after_each start_rejected reported_failed (trace_of env vars w).
Proof.
  destruct (trace_of_shape env vars w) as [_ Hs].
  destruct Hs as [(e & _ & ->)|(node_id & p & _ &
    [[_ Hi]|[_ [(e & w1 & _ & ->)|(cwd & w1 & t' & _ & Hi & ->)]]])].
  - split; apply after_each_none; cbn.
    + now rewrite (error_line_none _ e service_not_found_is_call).
    + now rewrite (error_line_none _ e start_rejected_is_call).
  - split; [now apply image_not_found with (1 := Hi) | now apply image_rejected with (1 := Hi)].
  - split; apply after_each_none; cbn.
    + now rewrite (error_line_none _ e service_not_found_is_call).
    + now rewrite (error_line_none _ e start_rejected_is_call).
  - split; cbn; (split; [discriminate|]).
    + now apply image_not_found with (1 := Hi).
    + now apply image_rejected with (1 := Hi).
Qed.

Lemma run_entry s :
  in_activate_phase s = true -> existsb (is_call_of s) (trace_of env vars w) = true ->
  exists c st resp,
    In (EvCall c (Ok (RPair st resp))) (trace_of env vars w) /\ step_of c = UploadImage /\
    truthy st = true /\ contains "success" st = Ok true /\
    contains "image_url" resp = Ok true.
Proof.
  intros Hs.
  destruct (trace_of_shape env vars w) as [_ Hsh].
  destruct Hsh as [(e & _ & ->)|(node_id & p & _ &
    [[_ Hi]|[_ [(e & w1 & _ & ->)|(cwd & w1 & t' & _ & Hi & ->)]]])].
  - cbn. rewrite (error_line_none _ e (@is_call_of_is_call _)). discriminate.
  - now apply image_entry with (1 := Hi).
  - cbn. rewrite (error_line_none _ e (@is_call_of_is_call _)). destruct s; discriminate.
  - cbn. intros Hcall.
    assert (Hc : existsb (is_call_of s) t' = true) by (destruct s; auto; discriminate).
    destruct (image_entry Hi s Hs Hc) as (c & st & resp & Hin & H).
    exists c, st, resp. split; auto.
Qed.


End WholeRuns.

(** ** Strings *)

Local Open Scope string_scope.

Lemma append_assoc (a b c : string) : (a ++ b) ++ c = a ++ (b ++ c).
Proof. induction a as [|x a IH]; cbn; congruence. Qed.

Lemma append_nil_r (a : string) : a ++ "" = a.
Proof. induction a as [|x a IH]; cbn; congruence. Qed.

Lemma length_append (a b : string) : String.length (a ++ b) = String.length a + String.length b.
Proof. induction a as [|x a IH]; cbn; auto. Qed.

Lemma startswith_iff p s : startswith p s = true <-> exists r, s = p ++ r.
Proof.
  revert s. induction p as [|a p IH]; intros s; cbn.
  - split; eauto.
  - destruct s as [|b s].
    + split; [discriminate|]. intros [r H]. discriminate.
    + rewrite andb_true_iff, Ascii.eqb_eq, IH. split.
      * intros [-> [r ->]]. eauto.
      * intros [r H]. injection H as -> ->. eauto.
Qed.

Lemma str_contains_iff sub s : str_contains sub s = true <-> exists a b, s = a ++ sub ++ b.
Proof.
  induction s as [|c s IH].
  - cbn. rewrite orb_false_r, startswith_iff. split.
    + intros [r H]. exists "", r. auto.
    + intros (a & b & H). destruct a; cbn in H; [eauto | discriminate].
  - cbn [str_contains]. rewrite orb_true_iff, startswith_iff, IH. split.
    + intros [[r H]|(a & b & ->)].
      * exists "", r. auto.
      * exists (String c a), b. auto.
    + intros (a & b & H). destruct a as [|x a]; cbn in H.
      * left. eauto.
      * injection H as -> ->. right. eauto.
Qed.

(** The first piece of a split is what precedes the first separator. *)
Lemma split_first sep s : first_item (split sep s) = before_first sep s.
Proof.
  unfold split, first_item.
  induction s as [|c s IH]; cbn [split_from before_first].
  - destruct (startswith sep ""); reflexivity.
  - destruct (startswith sep (String c s)); cbn; auto.
    destruct (split_from sep 0 s) as [p ps]. cbn in *. congruence.
Qed.

(** The last piece of a split at ['/'] is what follows the last ['/']. *)
Lemma split_slash s :
  let (p, ps) := split_from "/" 0 s in
  (str_contains "/" s = false -> ps = [] /\ p = s) /\
  (str_contains "/" s = true -> ps <> []) /\
  last (p :: ps) "" = last_component s.
Proof.
  induction s as [|c s IH].
  - cbn. repeat split; auto; discriminate.
  - cbn [split_from str_contains last_component String.length Nat.sub].
    destruct (split_from "/" 0 s) as [p ps]. destruct IH as (Hno & Hyes & Hlast).
    destruct (startswith "/" (String c s)) eqn:Es.
    + cbn [orb]. split; [discriminate|]. split; [discriminate|].
      change (last ("" :: p :: ps) "") with (last (p :: ps) "").
      destruct (str_contains "/" s) eqn:Ec; auto.
      destruct (Hno eq_refl) as [-> ->]. reflexivity.
    + cbn [orb]. destruct (str_contains "/" s) eqn:Ec.
      * split; [discriminate|]. split; [auto|].
        specialize (Hyes eq_refl). destruct ps as [|q ps]; [congruence|].
        exact Hlast.
      * destruct (Hno eq_refl) as [-> ->]. repeat split; auto; try discriminate.
Qed.

Lemma split_last s : last_item (split "/" s) = last_component s.
Proof.
  unfold split, last_item. pose proof (split_slash s) as H.
  destruct (split_from "/" 0 s) as [p ps]. apply H.
Qed.

(** The code computes the image name of the rule. *)
Lemma img_name_of_rule path : img_name_of path = image_name_rule path.
Proof. unfold img_name_of, image_name_rule. now rewrite split_first, split_last. Qed.

(** [last_component] is the part of the path after its last ['/']. *)
Lemma last_component_spec s :
  exists dir,
    s = dir ++ last_component s /\
    (dir = "" \/ exists d, dir = d ++ "/") /\
    str_contains "/" (last_component s) = false.
Proof.
  induction s as [|c s (dir & Hs & Hdir & Hno)].
  - exists "". cbn. auto.
  - cbn [last_component]. destruct (str_contains "/" s) eqn:Ec.
    + exists (String c dir). repeat split; auto.
      * cbn. congruence.
      * right. destruct Hdir as [->|[d ->]].
        -- exfalso. cbn in Hs. rewrite <- Hs, Ec in Hno. discriminate.
        -- exists (String c d). reflexivity.
    + destruct (startswith "/" (String c s)) eqn:Es.
      * apply startswith_iff in Es as [r Hr]. cbn in Hr. injection Hr as -> ->.
        exists "/". repeat split; auto. right. exists "". reflexivity.
      * exists "". repeat split; auto. cbn [str_contains]. now rewrite Es, Ec.
Qed.

(** [before_first] stops at the first occurrence, if there is one. *)
Lemma before_first_spec sub s :
  (str_contains sub s = true ->
   (exists rest, s = before_first sub s ++ sub ++ rest) /\
   (forall a b, s = a ++ sub ++ b ->
                String.length (before_first sub s) <= String.length a)) /\
  (str_contains sub s = false -> before_first sub s = s).
Proof.
  induction s as [|c s [IHyes IHno]].
  - cbn. rewrite orb_false_r. destruct (startswith sub "") eqn:Es.
    + split; [|discriminate]. intros _. split.
      * apply startswith_iff in Es as [r Hr]. exists r. auto.
      * intros. cbn. lia.
    + split; [discriminate | auto].
  - cbn [str_contains before_first]. destruct (startswith sub (String c s)) eqn:Es.
    + cbn [orb]. split; [|discriminate]. intros _. split.
      * apply startswith_iff in Es as [r Hr]. exists r. auto.
      * intros. cbn. lia.
    + cbn [orb]. split.
      * intros Hc. destruct (IHyes Hc) as [[rest Hrest] Hmin]. split.
        -- exists rest. cbn. congruence.
        -- intros a b Hab. destruct a as [|x a]; cbn in Hab.
           ++ exfalso. assert (startswith sub (String c s) = true).
              { apply startswith_iff. eauto. }
              congruence.
           ++ injection Hab as -> Hab. cbn. apply le_n_S. eauto.
      * intros Hc. now rewrite (IHno Hc).
Qed.

Example img_name_app_bin_bin : img_name_of "/srv/fw/app.bin.bin" = "app".
Proof. reflexivity. Qed.

Example img_name_firmware_img : img_name_of "/srv/fw/firmware.img" = "firmware.img".
Proof. reflexivity. Qed.

Example img_name_dotted_dir : img_name_of "/srv/v1.bin/fw" = "fw".
Proof. reflexivity. Qed.

Local Open Scope list_scope.

(** ** Failures inside a loop *)

Lemma first_call_app a b :
  first_call (a ++ b) = match first_call a with Some s => Some s | None => first_call b end.
Proof.
  induction a as [|e a IH]; cbn; auto. destruct e; auto.
Qed.

Lemma first_call_none t : existsb is_call t = false -> first_call t = None.
Proof.
  induction t as [|e t IH]; cbn; auto. destruct e; cbn; auto. discriminate.
Qed.

Lemma in_split_last (t1 : trace) e t2 :
  after_each is_raise (fun u => u = []) (t1 ++ e :: t2) -> is_raise e = true -> t2 = [].
Proof. apply after_each_last. Qed.

Section FailuresInLoop.
Variable W : Type.
Variable body : M W unit.
Variable pending : locals -> option step.

Hypothesis Hraise : forall l w cb l1 w1 tb,
  body l w = (cb, l1, w1, tb) ->
  after_each is_raise (fun u => u = []) tb /\
  (forall c0 x, In (EvCall c0 (Raise x)) tb -> cb = Exc x).
Hypothesis Hquiet : forall l w cb l1 w1 tb,
  body l w = (cb, l1, w1, tb) -> existsb is_sleep tb = false.
Hypothesis Hmemo : sat body memo_rel.
Hypothesis Hfirst : forall l w cb l1 w1 tb,
  body l w = (cb, l1, w1, tb) ->
  first_call tb = pending l /\ (pending l = None -> pending l1 = None).

Lemma while_retries_idle n l w :
  pending l = None -> first_call (events (while_retries body n l w)) = None.
Proof.
  revert l w. induction n as [|r IH]; intros l w Hp; [reflexivity|].
  rewrite while_retries_S.
  destruct (body l w) as [[[cb l1] w1] tb] eqn:Eb.
  destruct (Hfirst Eb) as [Hf Hn]. rewrite Hp in Hf.
  destruct (goes_on cb).
  - specialize (IH l1 w1 (Hn Hp)).
    destruct (while_retries body r l1 w1) as [[[c l2] w2] t2]. cbn in *.
    rewrite first_call_app, Hf.
    rewrite (first_call_app (handler_lines cb ++ EvSleep 5 :: retries_left_lines r)).
    now rewrite (first_call_none _ (between_no_call cb r)), IH.
  - cbn. rewrite first_call_app, Hf. apply first_call_none, handler_lines_no_call.
Qed.

(** An iteration starts with the first sub-step that is not cached. *)
Lemma while_retries_first r l w :
  first_call (events (while_retries body (S r) l w)) = pending l.
Proof.
  rewrite while_retries_S.
  destruct (body l w) as [[[cb l1] w1] tb] eqn:Eb.
  destruct (Hfirst Eb) as [Hf Hn].
  destruct (pending l) as [s|] eqn:Ep.
  - destruct (goes_on cb).
    + destruct (while_retries body r l1 w1) as [[[c l2] w2] t2]. cbn.
      now rewrite first_call_app, Hf.
    + cbn. now rewrite first_call_app, Hf.
  - destruct (goes_on cb).
    + pose proof (@while_retries_idle r l1 w1 (Hn eq_refl)) as Hi.
      destruct (while_retries body r l1 w1) as [[[c l2] w2] t2]. cbn in *.
      rewrite first_call_app, Hf.
      rewrite (first_call_app (handler_lines cb ++ EvSleep 5 :: retries_left_lines r)).
      now rewrite (first_call_none _ (between_no_call cb r)), Hi.
    + cbn. rewrite first_call_app, Hf. apply first_call_none, handler_lines_no_call.
Qed.

(** What follows a call that raised, anywhere in a loop. *)
Lemma while_retries_raise n l w c l' w' t t1 c0 x t2 :
  while_retries body n l w = (c, l', w', t) ->
  t = t1 ++ EvCall c0 (Raise x) :: t2 ->
  exists l1 w1,
    (forall s, cached l s = true \/ existsb (settles s) t1 = true -> cached l1 s = true) /\
    (transient x = true ->
     exists r, S r + count is_sleep t1 = n /\
       t2 = warning_lines x ++ EvSleep 5 :: retries_left_lines r
            ++ events (while_retries body r l1 w1) /\
       c = ending (while_retries body r l1 w1) /\
       l' = locals_after (while_retries body r l1 w1)) /\
    (transient x = false ->
     exists r, S r + count is_sleep t1 = n /\
       t2 = [EvLog Error [ExnOf x]] /\ c = Norm (S r) /\ l' = l1).
Proof.
  intros H.
  cut (exists k, c = Norm k /\ forall t1 c0 x t2,
    t = t1 ++ EvCall c0 (Raise x) :: t2 ->
    exists l1 w1,
    (forall s, cached l s = true \/ existsb (settles s) t1 = true -> cached l1 s = true) /\
    (transient x = true ->
     exists r, S r + count is_sleep t1 = n /\
       t2 = warning_lines x ++ EvSleep 5 :: retries_left_lines r
            ++ events (while_retries body r l1 w1) /\
       Norm k = ending (while_retries body r l1 w1) /\
       l' = locals_after (while_retries body r l1 w1)) /\
    (transient x = false ->
     exists r, S r + count is_sleep t1 = n /\
       t2 = [EvLog Error [ExnOf x]] /\ k = S r /\ l' = l1)).
  { intros (k & -> & Hk) Ht. destruct (Hk _ _ _ _ Ht) as (l1 & w1 & Hc & Htr & Hnt).
    exists l1, w1. split; auto. split; auto.
    intros Hx. destruct (Hnt Hx) as (r & ? & ? & -> & ?). eauto. }
  clear t1 c0 x t2. revert n l w c l' w' t H.
  apply (@while_retries_run _ body (fun n l k l' t => forall t1 c0 x t2,
    t = t1 ++ EvCall c0 (Raise x) :: t2 ->
    exists l1 w1,
    (forall s, cached l s = true \/ existsb (settles s) t1 = true -> cached l1 s = true) /\
    (transient x = true ->
     exists r, S r + count is_sleep t1 = n /\
       t2 = warning_lines x ++ EvSleep 5 :: retries_left_lines r
            ++ events (while_retries body r l1 w1) /\
       Norm k = ending (while_retries body r l1 w1) /\
       l' = locals_after (while_retries body r l1 w1)) /\
    (transient x = false ->
     exists r, S r + count is_sleep t1 = n /\
       t2 = [EvLog Error [ExnOf x]] /\ k = S r /\ l' = l1))).
  - intros l [|? ?] c0 x t2 Heq; discriminate.
  - (* the body, or its handler, ran [break] *)
    intros r l w cb l1 w1 tb Eb Hg t1 c0 x t2 Heq.
    destruct (Hraise Eb) as [Hlast Hexc].
    pose proof (@sat_run _ _ _ _ _ _ _ _ _ Hmemo Eb) as Hm.
    symmetry in Heq. apply app_eq_app_cons in Heq as [(a' & -> & ->)|(b' & -> & Hb')].
    + assert (a' = []) as -> by (eapply after_each_last; eauto).
      assert (cb = Exc x) as -> by (apply (Hexc c0); apply in_or_app; right; now left).
      cbn in Hg. exists l1, w1. split; [|split].
      * intros s [Hc|Hs].
        -- now apply (proj1 (Hm s)).
        -- destruct (Hm s) as (_ & _ & He).
           destruct He as [|He]; auto; [|discriminate].
           rewrite existsb_app, Hs. reflexivity.
      * congruence.
      * intros _. exists r. cbn. rewrite Hg.
        assert (count is_sleep t1 = 0) as ->.
        { apply count_none. specialize (Hquiet Eb). rewrite existsb_app in Hquiet.
          now apply orb_false_iff in Hquiet. }
        repeat split; auto; lia.
    + exfalso. assert (Hin : In (EvCall c0 (Raise x)) (handler_lines cb)).
      { rewrite Hb'. apply in_or_app. right. now left. }
      pose proof (in_no_call _ _ Hin (handler_lines_no_call cb)). discriminate.
  - (* the iteration went on to sleep *)
    intros r l w cb l1 w1 tb k l2 w2 t2' Eb Hg E2 IH t1 c0 x t2 Heq.
    destruct (Hraise Eb) as [Hlast Hexc].
    pose proof (@sat_run _ _ _ _ _ _ _ _ _ Hmemo Eb) as Hm.
    assert (Hq : count is_sleep tb = 0) by (apply count_none; eauto).
    symmetry in Heq. apply app_eq_app_cons in Heq as [(a' & -> & ->)|(b' & -> & Hb')].
    + assert (a' = []) as -> by (eapply after_each_last; eauto).
      assert (cb = Exc x) as -> by (apply (Hexc c0); apply in_or_app; right; now left).
      cbn in Hg. exists l1, w1. split; [|split].
      * intros s [Hc|Hs].
        -- now apply (proj1 (Hm s)).
        -- destruct (Hm s) as (_ & _ & He).
           destruct He as [|He]; auto; [|discriminate].
           rewrite existsb_app, Hs. reflexivity.
      * intros _. exists r. rewrite E2. cbn. rewrite Hg.
        assert (count is_sleep t1 = 0) as ->.
        { rewrite count_app in Hq. lia. }
        repeat split; auto; lia.
      * congruence.
    + symmetry in Hb'. apply app_eq_app_cons in Hb' as [(a' & Ha' & _)|(b'' & -> & Hb'')].
      * exfalso.
        assert (Hin : In (EvCall c0 (Raise x))
                         (handler_lines cb ++ EvSleep 5 :: retries_left_lines r)).
        { rewrite Ha'. apply in_or_app. right. now left. }
        pose proof (in_no_call _ _ Hin (between_no_call cb r)). discriminate.
      * destruct (IH _ _ _ _ Hb'') as (l3 & w3 & Hc3 & Htr & Hnt).
        set (mid := handler_lines cb ++ EvSleep 5 :: retries_left_lines r) in *.
        assert (Hmid : count is_sleep mid = 1).
        { unfold mid. rewrite count_app.
          assert (count is_sleep (handler_lines cb) = 0) as ->.
          { apply count_none. destruct cb as [| |e]; cbn in *; auto. now rewrite Hg. }
          unfold retries_left_lines. now destruct (Nat.eqb r 0). }
        exists l3, w3. split; [|split].
        -- intros s Hs. apply Hc3.
           destruct Hs as [Hc|Hs]; [left; now apply (proj1 (Hm s))|].
           rewrite !existsb_app in Hs.
           rewrite (@existsb_calls_only (settles s) mid (@settles_is_call _)
                      (between_no_call cb r)) in Hs.
           apply orb_true_iff in Hs as [Hs|Hs]; auto.
           left. destruct (Hm s) as (_ & _ & [|He]); auto.
           rewrite He in Hg. discriminate.
        -- intros Hx. destruct (Htr Hx) as (r' & Hr' & ? & ? & ?).
           exists r'. rewrite !count_app, Hq, Hmid. repeat split; auto; lia.
        -- intros Hx. destruct (Hnt Hx) as (r' & Hr' & ? & ? & ?).
           exists r'. rewrite !count_app, Hq, Hmid. repeat split; auto; lia.
Qed.

End FailuresInLoop.

(** ** A loop whose every attempt fails *)


Section Down.
Variable W : Type.
Variable body : M W unit.
Variable Inv : locals -> Prop.

Hypothesis Hdown : forall l w,
  Inv l ->
  exists x l1 w1 tb,
    body l w = (Exc x, l1, w1, tb) /\ transient x = true /\ Inv l1 /\
    count is_call tb = 1 /\ count transport_failed tb = 1 /\
    existsb is_sleep tb = false /\ count is_retries_left tb = 0.


End Down.

Section PhasesDown.
Variable W : Type.
Variable env : collab W.



Lemma upload_body_forgets node_id name b64 l w c l' w' t :
  upload_body env node_id name b64 l w = (c, l', w', t) ->
  forallb (forgotten l') t = true.
Proof.
  intros H. unfold upload_body in H. run_body H.
  all: cbn; bool_finish.
Qed.

Lemma activate_body_forgets l w c l' w' t :
  activate_body env l w = (c, l', w', t) ->
  forallb (forgotten l') t = true.
Proof.
  intros H. unfold activate_body in H. run_body H.
  all: cbn; bool_finish.
Qed.

End PhasesDown.

(** ** The loops of the two phases *)

Section Policies.
Variable W : Type.
Variable env : collab W.

Lemma upload_body_raises node_id name b64 l w cb l1 w1 tb :
  upload_body env node_id name b64 l w = (cb, l1, w1, tb) ->
  after_each is_raise (fun u => u = []) tb /\
  (forall c0 x, In (EvCall c0 (Raise x)) tb -> cb = Exc x).
Proof.
  intros Hb. split.
  - apply (@sat_run _ _ _ _ _ _ _ _ _ (upload_body_raise env node_id name b64) Hb).
  - apply (@sat_run _ _ _ _ _ _ _ _ _ (upload_body_exit env node_id name b64) Hb).
Qed.

Lemma activate_body_raises l w cb l1 w1 tb :
  activate_body env l w = (cb, l1, w1, tb) ->
  after_each is_raise (fun u => u = []) tb /\
  (forall c0 x, In (EvCall c0 (Raise x)) tb -> cb = Exc x).
Proof.
  intros Hb. split.
  - apply (@sat_run _ _ _ _ _ _ _ _ _ (activate_body_raise env) Hb).
  - apply (@sat_run _ _ _ _ _ _ _ _ _ (activate_body_exit env) Hb).
Qed.

Lemma upload_body_quiet node_id name b64 l w cb l1 w1 tb :
  upload_body env node_id name b64 l w = (cb, l1, w1, tb) -> existsb is_sleep tb = false.
Proof.
  intros Hb. apply (@sat_run _ _ _ _ _ _ _ _ _ (upload_body_exit env node_id name b64) Hb).
Qed.

Lemma activate_body_quiet l w cb l1 w1 tb :
  activate_body env l w = (cb, l1, w1, tb) -> existsb is_sleep tb = false.
Proof.
  intros Hb. apply (@sat_run _ _ _ _ _ _ _ _ _ (activate_body_exit env) Hb).
Qed.

(** The policy of a loop, from what its body guarantees. *)
Lemma retry_policy_of (body : M W unit) pending :
  (forall l w cb l1 w1 tb,
      body l w = (cb, l1, w1, tb) ->
      after_each is_raise (fun u => u = []) tb /\
      (forall c0 x, In (EvCall c0 (Raise x)) tb -> cb = Exc x)) ->
  (forall l w cb l1 w1 tb, body l w = (cb, l1, w1, tb) -> existsb is_sleep tb = false) ->
  sat body memo_rel ->
  (forall l w cb l1 w1 tb,
      body l w = (cb, l1, w1, tb) ->
      first_call tb = pending l /\ (pending l = None -> pending l1 = None)) ->
  retry_policy body pending.
Proof.
  intros Hraise Hquiet Hmemo Hfirst n l w t1 c0 x t2 Heq.
  destruct (while_retries body n l w) as [[[c l'] w'] t] eqn:E. cbn in Heq.
  destruct (@while_retries_raise _ body Hraise Hquiet Hmemo _ _ _ _ _ _ _ _ _ _ _ E Heq) as (l1 & w1 & Hc & Htr & Hnt).
  exists l1, w1. split; [assumption|]. split.
  - intros Hx. destruct (Htr Hx) as (r & Hr & Ht2 & Hend & _).
    exists r. split; [assumption|]. split; [assumption|]. split; [assumption|]. split.
    + intros s Hs.
      destruct (while_retries body r l1 w1) as [[[c2 l2] w2] t3] eqn:E2.
      now apply (@while_retries_memo _ body _ _ _ _ _ _ _ Hmemo E2).
    + intros Hpos. destruct r as [|r]; [lia|].
      now apply (@while_retries_first _ body pending Hfirst).
  - intros Hx. destruct (Hnt Hx) as (r & Hr & Ht2 & Hend & _). eauto.
Qed.

End Policies.

(** ** The properties of the command *)

Lemma count_is_sleep_call (t1 : trace) e :
  is_call e = true -> count is_sleep (t1 ++ [e]) = count is_sleep t1.
Proof.
  intros He. rewrite count_app. destruct e; try discriminate. cbn. lia.
Qed.

Lemma read_position (t t1 t2 pre : trace) e0 rest c r :
  t = pre ++ e0 :: rest ->
  no_call_of ReadImage pre -> no_call_of ReadImage rest ->
  t = t1 ++ EvCall c r :: t2 -> step_of c = ReadImage ->
  t1 = pre /\ EvCall c r = e0 /\ t2 = rest.
Proof.
  intros -> Hpre Hrest Heq Hc.
  assert (Hr : is_call_of ReadImage (EvCall c r) = true) by (cbn; now rewrite Hc).
  apply app_eq_app_cons in Heq as [(a' & Ha & Hb)|(b' & Ha & Hb)].
  - exfalso. rewrite Hb in Hrest. unfold no_call_of in Hrest.
    rewrite existsb_app in Hrest. cbn [existsb] in Hrest. rewrite Hr in Hrest.
    rewrite orb_true_r in Hrest. discriminate.
  - destruct b' as [|y b'].
    + cbn in Hb. injection Hb as -> ->. rewrite app_nil_r in Ha. auto.
    + exfalso. cbn in Hb. injection Hb as <- _. rewrite Ha in Hpre.
      unfold no_call_of in Hpre.
      rewrite existsb_app in Hpre. cbn [existsb] in Hpre. rewrite Hr in Hpre.
      rewrite orb_true_r in Hpre. discriminate.
Qed.

Lemma Forall_uploads_none name b64 t : no_call_of UploadImage t -> Forall (uploads name b64) t.
Proof.
  unfold no_call_of. induction t as [|e t IH]; cbn; auto.
  intros H. apply orb_false_iff in H as [He Ht]. constructor; auto.
  destruct e as [[] ?| | |]; cbn in *; auto; discriminate.
Qed.

(** What follows the one call that reads the image. *)
Lemma image_read W (env : collab W) node_id path w t :
  image_shape env node_id path w t ->
  exists r rest,
    t = EvCall (c_open_read path) r :: rest /\
    no_call_of ReadImage rest /\
    (forall x, r = Raise x -> rest = [command_error_line x]) /\
    (forall bs, r = Ok (RBytes bs) -> Forall (uploads (img_name_of path) (b64encode bs)) rest).
Proof.
  intros [(e & w1 & _ & ->)|(bs & w1 & k & l1 & w2 & tA & rest & Er & E & Hs & ->)].
  - exists (Raise e), [command_error_line e]. split; [reflexivity|]. split; [|split].
    + unfold no_call_of. cbn. now rewrite (error_line_none _ e (@is_call_of_is_call _)).
    + intros x Hx. injection Hx as ->. reflexivity.
    + discriminate.
  - destruct (after_upload_facts Hs) as (Hw & _).
    exists (Ok (RBytes bs)), (tA ++ rest). split; [reflexivity|]. split; [|split].
    + apply no_call_of_both; [|now apply Hw].
      eapply upload_loop_only; eauto.
    + discriminate.
    + intros bs' Hbs. injection Hbs as <-. apply Forall_app. split.
      * apply (@upload_loop_link _ _ _ _ _ _ _ _ _ _ _ _ E).
      * apply Forall_uploads_none. now apply Hw.
Qed.

(** ** Where a call lies in a loop *)

Lemma first_sleep_unique (a b x y : trace) k1 k2 :
  a ++ EvSleep k1 :: x = b ++ EvSleep k2 :: y ->
  existsb is_sleep a = false -> existsb is_sleep b = false ->
  a = b /\ k1 = k2 /\ x = y.
Proof.
  revert b. induction a as [|e a IH]; intros [|e' b] H Ha Hb; cbn in *.
  - injection H as -> ->. auto.
  - injection H as <- _. discriminate.
  - injection H as -> _. discriminate.
  - injection H as -> H.
    apply orb_false_iff in Ha as [_ Ha]. apply orb_false_iff in Hb as [_ Hb].
    destruct (IH _ H Ha Hb) as (-> & -> & ->). auto.
Qed.

Lemma awaits_app s a b :
  awaits s (a ++ b) = awaits s a && (existsb (is_call_of s) a || awaits s b).
Proof.
  induction a as [|e a IH]; cbn; auto.
  rewrite IH. destruct (is_call_of s e); cbn; auto.
  destruct (calls_after s e); cbn; auto.
Qed.

Lemma awaits_lines s t : existsb is_call t = false -> awaits s t = true.
Proof.
  induction t as [|e t IH]; cbn; auto.
  intros H. apply orb_false_iff in H as [He Ht]. rewrite IH by auto.
  destruct e; cbn in *; try discriminate; auto.
Qed.

Lemma calls_after_other s e : calls_after s e = true -> is_call_of s e = false.
Proof.
  destruct e as [c r| | |]; cbn; try discriminate.
  destruct s, (step_of c); cbn; auto; discriminate.
Qed.

(** What [awaits] says of a call that comes after [s]. *)
Lemma awaits_split s t t1 e t2 :
  awaits s t = true -> t = t1 ++ e :: t2 -> calls_after s e = true ->
  existsb (is_call_of s) t1 = true.
Proof.
  intros H -> He. induction t1 as [|x t1 IH]; cbn in *.
  - rewrite He, (calls_after_other _ _ He) in H. discriminate.
  - destruct (is_call_of s x); cbn in *; auto.
    apply andb_true_iff in H as [_ H]. auto.
Qed.

Section Locate.
Variable W : Type.
Variable body : M W unit.

Hypothesis Hquiet : forall l w cb l1 w1 tb,
  body l w = (cb, l1, w1, tb) -> existsb is_sleep tb = false.
Hypothesis Hmemo : sat body memo_rel.

(** The iteration a call of the loop belongs to, and what follows the call:
    the rest of the body, the lines of the [except] clause and, unless the
    loop is left, the back-off and the rest of the loop.  What was cached
    when the loop began, or was returned and kept before the call, is cached
    after that iteration, unless it ran [break]. *)
Lemma while_retries_locate n l w c l' w' t t1 e t2 :
  while_retries body n l w = (c, l', w', t) ->
  t = t1 ++ e :: t2 -> is_call e = true ->
  exists r l0 w0 cb l1 w1 tb1 tb2,
    body l0 w0 = (cb, l1, w1, tb1 ++ e :: tb2) /\
    S r + count is_sleep t1 = n /\
    t2 = (tb2 ++ handler_lines cb) ++
         (if goes_on cb
          then EvSleep 5 :: retries_left_lines r ++ events (while_retries body r l1 w1)
          else []) /\
    (forall s, cached l s = true \/ existsb (settles s) t1 = true ->
               cached l1 s = true \/ cb = Brk).
Proof.
  intros H.
  cut (exists k, c = Norm k /\ forall t1 e t2,
    t = t1 ++ e :: t2 -> is_call e = true ->
    exists r l0 w0 cb l1 w1 tb1 tb2,
      body l0 w0 = (cb, l1, w1, tb1 ++ e :: tb2) /\
      S r + count is_sleep t1 = n /\
      t2 = (tb2 ++ handler_lines cb) ++
           (if goes_on cb
            then EvSleep 5 :: retries_left_lines r ++ events (while_retries body r l1 w1)
            else []) /\
      (forall s, cached l s = true \/ existsb (settles s) t1 = true ->
                 cached l1 s = true \/ cb = Brk)).
  { intros (k & _ & Hk). apply Hk. }
  clear t1 e t2. revert n l w c l' w' t H.
  apply (@while_retries_run _ body (fun n l _ _ t => forall t1 e t2,
    t = t1 ++ e :: t2 -> is_call e = true ->
    exists r l0 w0 cb l1 w1 tb1 tb2,
      body l0 w0 = (cb, l1, w1, tb1 ++ e :: tb2) /\
      S r + count is_sleep t1 = n /\
      t2 = (tb2 ++ handler_lines cb) ++
           (if goes_on cb
            then EvSleep 5 :: retries_left_lines r ++ events (while_retries body r l1 w1)
            else []) /\
      (forall s, cached l s = true \/ existsb (settles s) t1 = true ->
                 cached l1 s = true \/ cb = Brk))).
  - intros l [|x0 t0] e t2 Heq; discriminate.
  - intros r l w cb l1 w1 tb Eb Hg t1 e t2 Heq He.
    pose proof (@sat_run _ _ _ _ _ _ _ _ _ Hmemo Eb) as Hm.
    symmetry in Heq. apply app_eq_app_cons in Heq as [(a' & -> & ->)|(b' & -> & Hb')].
    + exists r, l, w, cb, l1, w1, t1, a'. split; [assumption|]. split; [|split].
      * assert (count is_sleep t1 = 0) as ->; [|lia].
        apply count_none. specialize (Hquiet Eb). rewrite existsb_app in Hquiet.
        now apply orb_false_iff in Hquiet.
      * rewrite Hg. now rewrite app_nil_r.
      * intros s [Hc|Hs].
        -- left. now apply (proj1 (Hm s)).
        -- apply (proj2 (proj2 (Hm s))). rewrite existsb_app, Hs. reflexivity.
    + exfalso. assert (Hin : In e (handler_lines cb)).
      { rewrite Hb'. apply in_or_app. right. now left. }
      pose proof (in_no_call _ _ Hin (handler_lines_no_call cb)). congruence.
  - intros r l w cb l1 w1 tb k l2 w2 t2' Eb Hg E2 IH t1 e t2 Heq He.
    pose proof (@sat_run _ _ _ _ _ _ _ _ _ Hmemo Eb) as Hm.
    assert (Hq : count is_sleep tb = 0) by (apply count_none; eauto).
    symmetry in Heq. apply app_eq_app_cons in Heq as [(a' & -> & ->)|(b' & -> & Hb')].
    + exists r, l, w, cb, l1, w1, t1, a'. split; [assumption|]. split; [|split].
      * assert (count is_sleep t1 = 0) as ->; [|lia].
        rewrite count_app in Hq. lia.
      * rewrite Hg, E2. cbn. now rewrite <- !app_assoc.
      * intros s [Hc|Hs].
        -- left. now apply (proj1 (Hm s)).
        -- apply (proj2 (proj2 (Hm s))). rewrite existsb_app, Hs. reflexivity.
    + symmetry in Hb'. apply app_eq_app_cons in Hb' as [(a' & Ha' & _)|(b'' & -> & Hb'')].
      * exfalso.
        assert (Hin : In e (handler_lines cb ++ EvSleep 5 :: retries_left_lines r)).
        { rewrite Ha'. apply in_or_app. right. now left. }
        pose proof (in_no_call _ _ Hin (between_no_call cb r)). congruence.
      * destruct (IH _ _ _ Hb'' He)
          as (r' & l0 & w0 & cb' & l1' & w1' & tb1 & tb2 & Eb' & Hr' & Ht2 & Hc').
        exists r', l0, w0, cb', l1', w1', tb1, tb2.
        set (mid := handler_lines cb ++ EvSleep 5 :: retries_left_lines r) in *.
        split; [assumption|]. split; [|split; [assumption|]].
        -- assert (Hmid : count is_sleep mid = 1).
           { unfold mid. rewrite count_app.
             assert (count is_sleep (handler_lines cb) = 0) as ->.
             { apply count_none. destruct cb as [| |x]; cbn in *; auto. now rewrite Hg. }
             unfold retries_left_lines. now destruct (Nat.eqb r 0). }
           rewrite !count_app, Hq, Hmid. lia.
        -- intros s Hs. apply Hc'.
           destruct Hs as [Hc|Hs]; [left; now apply (proj1 (Hm s))|].
           rewrite !existsb_app in Hs.
           rewrite (@existsb_calls_only (settles s) mid (@settles_is_call _)
                      (between_no_call cb r)) in Hs.
           apply orb_true_iff in Hs as [Hs|Hs]; auto.
           left. destruct (proj2 (proj2 (Hm s)) Hs) as [|Hbrk]; auto.
           rewrite Hbrk in Hg. discriminate.
Qed.

End Locate.

(** ** A result that is not kept *)

Section NotKept.
Variable W : Type.
Variable env : collab W.

(** An upload that returned a false status and a false response is the last
    event of its iteration, which ends normally and leaves the upload as the
    first sub-step that is not cached. *)
Lemma upload_body_falsy node_id name b64 l w cb l1 w1 tb c0 rv :
  upload_body env node_id name b64 l w = (cb, l1, w1, tb) ->
  In (EvCall c0 (Ok rv)) tb -> kept (step_of c0) rv = false ->
  step_of c0 = UploadImage /\ cb = Norm tt /\ pending_upload l1 = Some UploadImage /\
  after_each (returns UploadImage) (fun u => u = []) tb.
Proof.
  intros H. unfold upload_body in H. run_body H.
  all: cbn; intros Hin Hk.
  all: repeat match goal with
       | H : _ \/ _ |- _ => destruct H as [H|H]
       | H : False |- _ => destruct H
       | H : EvCall _ _ = EvCall _ _ |- _ => injection H as <- <-
       | H : _ = EvCall _ _ |- _ => discriminate H
       end.
  all: cbn in Hk; try discriminate.
  all: unfold pending_upload; cbn; bool_finish.
  all: repeat split; auto; try discriminate; try congruence.
Qed.

(** In the activation phase the results that are not kept are those of the
    service parameters and of the node parameters; the iteration leaves the
    sub-step not cached, and the first sub-step that is not cached is that
    one, or the service parameters. *)
Lemma activate_body_falsy l w cb l1 w1 tb c0 rv :
  activate_body env l w = (cb, l1, w1, tb) ->
  In (EvCall c0 (Ok rv)) tb -> kept (step_of c0) rv = false ->
  (step_of c0 = GetServiceParams \/ step_of c0 = GetNodeParams) /\
  cached l1 (step_of c0) = false /\
  (pending_activate l1 = Some GetServiceParams /\ cached l1 GetServiceParams = false \/
   pending_activate l1 = Some (step_of c0)).
Proof.
  intros H. unfold activate_body in H. run_body H.
  all: cbn; intros Hin Hk.
  all: repeat match goal with
       | H : _ \/ _ |- _ => destruct H as [H|H]
       | H : False |- _ => destruct H
       | H : EvCall _ _ = EvCall _ _ |- _ => injection H as <- <-
       | H : _ = EvCall _ _ |- _ => discriminate H
       end.
  all: cbn in Hk; try discriminate.
  all: unfold pending_activate; cbn; bool_finish.
  all: repeat match goal with H : _ = _ |- _ => rewrite H end; cbn.
  all: repeat split; auto; try discriminate; try congruence.
Qed.

(** A sub-step of the activation phase that is not cached when an iteration
    begins is called before the sub-steps that come after it, and is still
    not cached after an iteration that has not called it. *)
Lemma activate_body_awaits l w cb l1 w1 tb s :
  activate_body env l w = (cb, l1, w1, tb) ->
  s = GetServiceParams \/ s = GetNodeParams ->
  cached l s = false ->
  awaits s tb = true /\ (existsb (is_call_of s) tb = false -> cached l1 s = false).
Proof.
  intros H. unfold activate_body in H. run_body H.
  all: intros [->| ->]; cbn; intros Hc; bool_finish.
Qed.

End NotKept.

Lemma handler_lines_no_sleep c : existsb is_sleep (handler_lines c) = false.
Proof. destruct c as [| |e]; cbn; auto. destruct (transient e); reflexivity. Qed.

Section Requeued.
Variable W : Type.
Variable env : collab W.

(** After an upload that returned a false status and a false response the
    loop sleeps and goes on; with a retry left, the next iteration begins
    with the upload. *)
Lemma upload_loop_requeues node_id name b64 n l w t1 c0 rv t2 :
  events (while_retries (upload_body env node_id name b64) n l w)
  = t1 ++ EvCall c0 (Ok rv) :: t2 ->
  kept (step_of c0) rv = false ->
  exists r l1 w1,
    S r + count is_sleep t1 = n /\
    t2 = EvSleep 5 :: retries_left_lines r
         ++ events (while_retries (upload_body env node_id name b64) r l1 w1) /\
    (0 < r ->
     first_call (events (while_retries (upload_body env node_id name b64) r l1 w1))
     = Some UploadImage).
Proof.
  intros Heq Hk.
  destruct (while_retries _ n l w) as [[[c l'] w'] t] eqn:E. cbn in Heq.
  edestruct (@while_retries_locate W (upload_body env node_id name b64)
               (@upload_body_quiet W env node_id name b64)
               (@upload_body_memo W env node_id name b64))
    as (r & l0 & w0 & cb & l1 & w1 & tb1 & tb2 & Eb & Hr & Ht2 & _);
    [exact E | exact Heq | reflexivity |].
  assert (Hin : In (EvCall c0 (Ok rv)) (tb1 ++ EvCall c0 (Ok rv) :: tb2)).
  { apply in_or_app. right. now left. }
  pose proof Eb as Hf. eapply upload_body_falsy in Hf; [|exact Hin|exact Hk].
  destruct Hf as (Hs & -> & Hp & Ha).
  assert (tb2 = []) as ->.
  { eapply after_each_last; [exact Ha|]. cbn. now rewrite Hs. }
  exists r, l1, w1. split; [assumption|]. split; [exact Ht2|].
  intros Hpos. destruct r as [|r]; [lia|].
  rewrite <- Hp.
  apply (@while_retries_first _ (upload_body env node_id name b64) pending_upload).
  intros ? ? ? ? ? ? Hb. eapply upload_body_first; eauto.
Qed.

(** In the activation loop, after a result that is not kept, the iteration
    that follows the next sleep begins with the service parameters or with
    the sub-step that returned that result; with that sub-step, when the
    service parameters are cached. *)
Lemma activate_loop_requeues n l w t1 c0 rv t3 k v :
  events (while_retries (activate_body env) n l w)
  = t1 ++ EvCall c0 (Ok rv) :: t3 ++ EvSleep k :: v ->
  kept (step_of c0) rv = false ->
  existsb is_sleep t3 = false ->
  exists r l1 w1,
    S r + count is_sleep t1 = n /\ k = 5 /\
    v = retries_left_lines r ++ events (while_retries (activate_body env) r l1 w1) /\
    (0 < r ->
     first_call (events (while_retries (activate_body env) r l1 w1)) = Some GetServiceParams \/
     first_call (events (while_retries (activate_body env) r l1 w1)) = Some (step_of c0)) /\
    (0 < r ->
     cached l GetServiceParams = true \/ existsb (settles GetServiceParams) t1 = true ->
     first_call (events (while_retries (activate_body env) r l1 w1)) = Some (step_of c0)).
Proof.
  intros Heq Hk Hq.
  destruct (while_retries _ n l w) as [[[c l'] w'] t] eqn:E. cbn in Heq.
  edestruct (@while_retries_locate W (activate_body env) (@activate_body_quiet W env)
               (@activate_body_memo W env))
    as (r & l0 & w0 & cb & l1 & w1 & tb1 & tb2 & Eb & Hr & Ht2 & Hkeep);
    [exact E | exact Heq | reflexivity |].
  assert (Hin : In (EvCall c0 (Ok rv)) (tb1 ++ EvCall c0 (Ok rv) :: tb2)).
  { apply in_or_app. right. now left. }
  pose proof Eb as Hf. eapply activate_body_falsy in Hf; [|exact Hin|exact Hk].
  destruct Hf as (_ & _ & Hp).
  assert (Hp0 : existsb is_sleep (tb2 ++ handler_lines cb) = false).
  { rewrite existsb_app, handler_lines_no_sleep, orb_false_r.
    pose proof (activate_body_quiet _ _ _ Eb) as Hb.
    rewrite existsb_app in Hb. cbn in Hb. now apply orb_false_iff in Hb. }
  destruct (goes_on cb) eqn:Hg.
  - symmetry in Ht2. destruct (first_sleep_unique _ _ _ _ _ _ Ht2 Hp0 Hq) as (_ & <- & <-).
    exists r, l1, w1. split; [assumption|]. split; [reflexivity|]. split; [reflexivity|].
    assert (Hfirst : 0 < r ->
              first_call (events (while_retries (activate_body env) r l1 w1))
              = pending_activate l1).
    { intros Hpos. destruct r as [|r]; [lia|].
      apply (@while_retries_first _ (activate_body env) pending_activate).
      intros ? ? ? ? ? ? Hb. eapply activate_body_first; eauto. }
    split.
    + intros Hpos. rewrite (Hfirst Hpos). destruct Hp as [[-> _]| ->]; auto.
    + intros Hpos Hc. rewrite (Hfirst Hpos). destruct Hp as [[_ Hn]| ->]; auto.
      destruct (Hkeep _ Hc) as [Hc1|Hbrk].
      * congruence.
      * rewrite Hbrk in Hg. discriminate.
  - exfalso. rewrite app_nil_r in Ht2.
    assert (Hs : existsb is_sleep (t3 ++ EvSleep k :: v) = true).
    { rewrite existsb_app. cbn. now rewrite orb_true_r. }
    rewrite Ht2 in Hs. congruence.
Qed.

Lemma activate_loop_awaits_from s n l w :
  s = GetServiceParams \/ s = GetNodeParams ->
  cached l s = false ->
  awaits s (events (while_retries (activate_body env) n l w)) = true.
Proof.
  intros Hs. revert l w. induction n as [|r IH]; intros l w Hc; [reflexivity|].
  rewrite while_retries_S.
  destruct (activate_body env l w) as [[[cb l1] w1] tb] eqn:Eb.
  destruct (activate_body_awaits _ _ _ Eb Hs Hc) as [Ha Hn].
  destruct (goes_on cb).
  - destruct (while_retries (activate_body env) r l1 w1) as [[[c l2] w2] t2] eqn:E2. cbn.
    rewrite awaits_app, Ha. cbn [andb].
    destruct (existsb (is_call_of s) tb) eqn:Ex; auto. cbn [orb].
    rewrite awaits_app, (awaits_lines _ _ (between_no_call cb r)). cbn [andb].
    specialize (IH l1 w1 (Hn eq_refl)). rewrite E2 in IH. cbn in IH. rewrite IH.
    apply orb_true_r.
  - cbn. rewrite awaits_app, Ha, (awaits_lines _ _ (handler_lines_no_call cb)).
    now rewrite orb_true_r.
Qed.

(** In the activation loop, after a result of a sub-step that is not kept,
    a later iteration calls a sub-step that comes after it only once it has
    called that sub-step again. *)
Lemma activate_loop_awaits n l w t1 c0 rv t3 e t4 :
  events (while_retries (activate_body env) n l w)
  = t1 ++ EvCall c0 (Ok rv) :: t3 ++ e :: t4 ->
  kept (step_of c0) rv = false ->
  existsb is_sleep t3 = true ->
  calls_after (step_of c0) e = true ->
  existsb (is_call_of (step_of c0)) t3 = true.
Proof.
  intros Heq Hk Hq He.
  destruct (while_retries _ n l w) as [[[c l'] w'] t] eqn:E. cbn in Heq.
  edestruct (@while_retries_locate W (activate_body env) (@activate_body_quiet W env)
               (@activate_body_memo W env))
    as (r & l0 & w0 & cb & l1 & w1 & tb1 & tb2 & Eb & Hr & Ht2 & _);
    [exact E | exact Heq | reflexivity |].
  assert (Hin : In (EvCall c0 (Ok rv)) (tb1 ++ EvCall c0 (Ok rv) :: tb2)).
  { apply in_or_app. right. now left. }
  pose proof Eb as Hf. eapply activate_body_falsy in Hf; [|exact Hin|exact Hk].
  destruct Hf as (Hs & Hc & _).
  assert (Hp0 : existsb is_sleep (tb2 ++ handler_lines cb) = false).
  { rewrite existsb_app, handler_lines_no_sleep, orb_false_r.
    pose proof (activate_body_quiet _ _ _ Eb) as Hb.
    rewrite existsb_app in Hb. cbn in Hb. now apply orb_false_iff in Hb. }
  destruct (goes_on cb).
  - apply app_eq_app_cons in Ht2 as [(a' & Ha & _)|(b' & -> & Hb')].
    + exfalso. rewrite Ha, existsb_app, Hq in Hp0. discriminate.
    + destruct b' as [|x b'].
      * cbn in Hb'. injection Hb' as <- _. discriminate.
      * cbn in Hb'. injection Hb' as <- Hb'.
        pose proof (activate_loop_awaits_from r l1 w1 Hs Hc) as Hw.
        assert (Hy : awaits (step_of c0)
                       (retries_left_lines r
                        ++ events (while_retries (activate_body env) r l1 w1)) = true).
        { rewrite awaits_app, (awaits_lines _ _ (retries_left_lines_no_call r)), Hw.
          now rewrite orb_true_r. }
        rewrite existsb_app. cbn [existsb].
        rewrite (awaits_split _ _ _ _ Hy Hb' He). now rewrite !orb_true_r.
  - exfalso. rewrite app_nil_r in Ht2.
    assert (Hs' : existsb is_sleep (t3 ++ e :: t4) = true).
    { rewrite existsb_app, Hq. reflexivity. }
    rewrite Ht2 in Hs'. congruence.
Qed.

End Requeued.

(** ** Between the first attempt and the last *)





Section DownBetween.
Variable W : Type.
Variable body : M W unit.
Variable Inv : locals -> Prop.

Hypothesis Hdown : forall l w,
  Inv l ->
  exists x l1 w1 tb,
    body l w = (Exc x, l1, w1, tb) /\ transient x = true /\ Inv l1 /\
    count is_call tb = 1 /\ count transport_failed tb = 1 /\
    existsb is_sleep tb = false /\ count is_retries_left tb = 0.



End DownBetween.

(** ** The path that is opened *)

Lemma endswith_char_iff c s :
  endswith_char c s = true <-> exists d, s = (d ++ String c "")%string.
Proof.
  induction s as [|a s IH].
  - cbn. split; [discriminate|]. intros [[|? ?] H]; discriminate.
  - destruct s as [|b s].
    + cbn. rewrite Ascii.eqb_eq. split.
      * intros ->. exists ""%string. reflexivity.
      * intros [[|x [|y d]] H]; cbn in H; try discriminate; congruence.
    + change (endswith_char c (String a (String b s)))
        with (endswith_char c (String b s)).
      rewrite IH. split.
      * intros [d ->]. exists (String a d). reflexivity.
      * intros [[|x d] H]; cbn in H; [discriminate|].
        injection H as -> H. eauto.
Qed.

(** [os.path.isabs]: the path begins with a slash. *)
Lemma os_path_isabs_iff p : os_path_isabs p = true <-> exists q, p = ("/" ++ q)%string.
Proof. apply startswith_iff. Qed.

(** [os.path.join] on a relative path: the directory, a slash unless the
    directory is empty or ends with one, and the path. *)
Lemma os_path_join_relative cwd p :
  os_path_isabs p = false ->
  ((cwd = ""%string \/ exists d, cwd = (d ++ "/")%string) ->
   os_path_join cwd p = (cwd ++ p)%string) /\
  ((cwd <> ""%string /\ forall d, cwd <> (d ++ "/")%string) ->
   os_path_join cwd p = (cwd ++ "/" ++ p)%string).
Proof.
  unfold os_path_isabs, os_path_join. intros ->. split.
  - intros [->|Hd]; [reflexivity|].
    apply endswith_char_iff in Hd. rewrite Hd. now rewrite orb_true_r.
  - intros [Hne Hd].
    destruct (String.eqb_spec cwd ""); [contradiction|].
    destruct (endswith_char "/" cwd) eqn:E; [|reflexivity].
    apply endswith_char_iff in E as [d ->]. now destruct (Hd d).
Qed.

Section Claims.
Variable W : Type.
Variable env : collab W.

(** C1, as amended.  Within one run of [ota_upgrade], once a sub-step has
    returned a result that its guard takes as set (a true value; for the
    upload and for the service parameters, a pair with a true member), no
    later event of the run calls that sub-step again.  The session, the
    node, the service object, service discovery, the start command and the
    status poll are never called again once they have returned at all. *)
Theorem kept_results_are_not_recomputed vars w t1 c r t2 :
  trace_of env vars w = t1 ++ EvCall c (Ok r) :: t2 ->
  kept (step_of c) r = true ->
  no_call_of (step_of c) t2.
Proof.
  intros Heq Hk.
  apply (proj1 (after_each_split _ _ _) (run_memo env vars w (step_of c)) _ _ _ Heq).
  cbn. now rewrite step_eqb_refl, Hk.
Qed.


(** C3.  After service discovery has returned no configuration, or the start
    command a false value, the run makes no further call and does not sleep:
    it only prints and logs, and logs that the upgrade failed. *)
Theorem fatal_short_circuit vars w t1 e t2 :
  trace_of env vars w = t1 ++ e :: t2 ->
  service_not_found e = true \/ start_rejected e = true ->
  calm t2 /\ In failed_line t2.
Proof.
  intros Heq [He|He].
  - exact (proj1 (after_each_split _ _ _) (proj1 (run_fatal env vars w)) _ _ _ Heq He).
  - exact (proj1 (after_each_split _ _ _) (proj2 (run_fatal env vars w)) _ _ _ Heq He).
Qed.

(** C4.  A sub-step of the activation phase is called only in a run whose
    upload returned a true status that contains ["success"] and a response
    that contains ["image_url"]; so when no upload of the run returned such
    a response, no sub-step of the activation phase is called. *)
Theorem activation_entry vars w :
  (forall s, in_activate_phase s = true ->
     existsb (is_call_of s) (trace_of env vars w) = true ->
     exists c st resp,
       In (EvCall c (Ok (RPair st resp))) (trace_of env vars w) /\
       step_of c = UploadImage /\ truthy st = true /\
       contains "success" st = Ok true /\ contains "image_url" resp = Ok true) /\
  ((forall c st resp,
       In (EvCall c (Ok (RPair st resp))) (trace_of env vars w) ->
       step_of c = UploadImage -> contains "image_url" resp <> Ok true) ->
   forall s, in_activate_phase s = true -> no_call_of s (trace_of env vars w)).
Proof.
  split.
  - intros s. apply run_entry.
  - intros Hno s Hs. unfold no_call_of.
    destruct (existsb (is_call_of s) (trace_of env vars w)) eqn:Ec; auto. exfalso.
    destruct (run_entry env vars w s Hs Ec) as (c & st & resp & Hin & Hc & _ & _ & Hu).
    exact (Hno c st resp Hin Hc Hu).
Qed.


(** C6.  In the upload loop nothing follows an upload that returned a true
    status, and in the activation loop nothing follows a status poll that
    returned: the loop is left at once, with the retries it had when the
    iteration began, of which at least one is left. *)
Theorem success_short_circuit :
  (forall node_id img_name base64_fw_img n l w t1 e t2,
      let o := while_retries (upload_body env node_id img_name base64_fw_img) n l w in
      events o = t1 ++ e :: t2 -> upload_succeeded e = true ->
      t2 = [] /\ exists k, ending o = Norm (S k) /\ S k + count is_sleep t1 = n) /\
  (forall n l w t1 e t2,
      let o := while_retries (activate_body env) n l w in
      events o = t1 ++ e :: t2 -> polled e = true ->
      t2 = [] /\ exists k, ending o = Norm (S k) /\ S k + count is_sleep t1 = n).
Proof.
  split.
  - intros node_id img_name base64_fw_img n l w t1 e t2 o Heq He. subst o.
    destruct (while_retries _ n l w) as [[[c l'] w'] t] eqn:E. cbn in Heq. cbn [ending fst].
    destruct (@upload_loop_success _ _ _ _ _ _ _ _ _ _ _ _ E) as [Ha Hk].
    assert (t2 = []) as ->.
    { exact (proj1 (after_each_split _ _ _) Ha _ _ _ Heq He). }
    split; [reflexivity|].
    destruct Hk as [k ->].
    { rewrite Heq, existsb_app. cbn. now rewrite He, orb_true_r. }
    exists k. split; [reflexivity|].
    destruct (@while_retries_budget _ _ _ _ _ _ _ _ _
                (@upload_body_quiet _ env node_id img_name base64_fw_img) E)
      as (k' & Hk' & Hb).
    injection Hk' as <-. rewrite Heq in Hb.
    rewrite count_is_sleep_call in Hb; auto. now apply upload_succeeded_is_call.
  - intros n l w t1 e t2 o Heq He. subst o.
    destruct (while_retries _ n l w) as [[[c l'] w'] t] eqn:E. cbn in Heq. cbn [ending fst].
    destruct (@activate_loop_polled _ _ _ _ _ _ _ _ _ E) as [Ha Hk].
    assert (t2 = []) as ->.
    { exact (proj1 (after_each_split _ _ _) Ha _ _ _ Heq He). }
    split; [reflexivity|].
    destruct Hk as [k ->].
    { rewrite Heq, existsb_app. cbn. now rewrite He, orb_true_r. }
    exists k. split; [reflexivity|].
    destruct (@while_retries_budget _ _ _ _ _ _ _ _ _ (@activate_body_quiet _ env) E)
      as (k' & Hk' & Hb).
    injection Hk' as <-. rewrite Heq in Hb.
    rewrite count_is_sleep_call in Hb; auto. now apply (@returns_is_call CheckOtaStatus).
Qed.

(** C7, as amended.  In either loop, a call that raises [NetworkError] or
    [RequestTimeoutError] is followed by the printed and logged warning, a
    sleep of five seconds, the retries left printed and logged when at least
    one is left (nothing when none is), and the rest of the loop with one
    retry less, which starts from the local variables as the failed attempt
    left them, skips every sub-step they hold a result of and begins with the
    first sub-step that is not cached.  A call that raises [SSLError], or any
    other exception, is followed by its error line alone, and the loop ends
    with the retries it had when the iteration began. *)
Theorem transient_and_tls_failures :
  (forall node_id img_name base64_fw_img,
      retry_policy (upload_body env node_id img_name base64_fw_img) pending_upload) /\
  retry_policy (activate_body env) pending_activate.
Proof.
  split.
  - intros node_id img_name base64_fw_img. apply retry_policy_of.
    + apply upload_body_raises.
    + apply upload_body_quiet.
    + apply upload_body_memo.
    + intros l w cb l1 w1 tb Hb. eapply upload_body_first; eauto.
  - apply retry_policy_of.
    + apply activate_body_raises.
    + apply activate_body_quiet.
    + apply activate_body_memo.
    + intros l w cb l1 w1 tb Hb. eapply activate_body_first; eauto.
Qed.

(** C8.  The call that reads the image is the only one of the run; before
    it the run has at most asked for the current directory, which it does
    exactly when the given path is relative, that is when it does not begin
    with a slash.  An absolute path is opened as it is given; a relative
    path is opened joined to the current directory: the directory, a slash
    unless the directory is empty or ends with one, and the given path.
    When the read raises, the run only logs that error: no retry, no sleep.
    When it returns, every upload of the run carries the Base64 of all the
    bytes read and the image name of that path.  And the image is read
    whenever the arguments are there and the path is known. *)
Theorem image_read_once vars w :
  (forall t1 c r t2,
      trace_of env vars w = t1 ++ EvCall c r :: t2 -> step_of c = ReadImage ->
      exists node_id p,
        arguments vars = Ok (node_id, p) /\
        (((exists q, p = ("/" ++ q)%string) /\ os_path_isabs p = true /\
          t1 = [] /\ c = c_open_read p) \/
         ((forall q, p <> ("/" ++ q)%string) /\ os_path_isabs p = false /\
          exists cwd, fst (os_getcwd env w) = Ok cwd /\
                      t1 = [EvCall c_getcwd (Ok (RStr cwd))] /\
                      c = c_open_read (os_path_join cwd p) /\
                      ((cwd = ""%string \/ exists d, cwd = (d ++ "/")%string) ->
                       c = c_open_read (cwd ++ p)) /\
                      ((cwd <> ""%string /\ forall d, cwd <> (d ++ "/")%string) ->
                       c = c_open_read (cwd ++ "/" ++ p)))) /\
        no_call_of ReadImage t2 /\
        (forall x, r = Raise x -> t2 = [command_error_line x]) /\
        (forall bs path, r = Ok (RBytes bs) -> c = c_open_read path ->
                         Forall (uploads (img_name_of path) (b64encode bs)) t2)) /\
  (forall node_id p,
      arguments vars = Ok (node_id, p) ->
      os_path_isabs p = true \/ (exists cwd, fst (os_getcwd env w) = Ok cwd) ->
      count (is_call_of ReadImage) (trace_of env vars w) = 1).
Proof.
  destruct (trace_of_shape env vars w) as [_ Hsh].
  destruct Hsh as [(e & Ha & Ht)|(node_id & p & Ha &
    [[Habs Hi]|[Habs [(e & w1 & Hg & Ht)|(cwd & w1 & t0 & Hg & Hi & Ht)]]])].
  - split.
    + intros t1 c r t2 Heq Hc. rewrite Ht in Heq.
      destruct t1 as [|? [|? ?]]; cbn in Heq; try discriminate.
      inversion Heq. destruct e; cbn in *; congruence.
    + intros node_id p Ha'. congruence.
  - destruct (image_read Hi) as (r0 & rest & Ht & Hno & Hraise & Hok).
    split.
    + intros t1 c r t2 Heq Hc.
      destruct (@read_position _ t1 t2 [] _ rest c r Ht eq_refl Hno Heq Hc) as (-> & He & ->).
      injection He as -> ->.
      exists node_id, p. split; [assumption|]. split.
      { left. split; [now apply os_path_isabs_iff | auto]. }
      split; [assumption|]. split; [assumption|].
      intros bs path Hr Hp. injection Hp as <-. auto.
    + intros _ _ _ _. rewrite Ht. unfold count. cbn.
      unfold no_call_of in Hno.
      assert (filter (is_call_of ReadImage) rest = []) as ->; [|reflexivity].
      clear -Hno. induction rest as [|x rest IH]; cbn in *; auto.
      apply orb_false_iff in Hno as [-> Hr]. auto.
  - split.
    + intros t1 c r t2 Heq Hc. rewrite Ht in Heq.
      destruct t1 as [|? [|? [|? ?]]]; cbn in Heq; try discriminate.
      * inversion Heq. subst. discriminate.
      * inversion Heq. destruct e; cbn in *; congruence.
    + intros node_id' p' Ha' [Habs'|[cwd Hcwd]].
      * rewrite Ha in Ha'. injection Ha' as <- <-. congruence.
      * rewrite Hg in Hcwd. discriminate.
  - destruct (image_read Hi) as (r0 & rest & Ht0 & Hno & Hraise & Hok).
    assert (Hwhole : trace_of env vars w =
              [EvCall c_getcwd (Ok (RStr cwd))] ++ EvCall (c_open_read (os_path_join cwd p)) r0 :: rest).
    { rewrite Ht, Ht0. reflexivity. }
    split.
    + intros t1 c r t2 Heq Hc.
      destruct (@read_position _ t1 t2 _ _ rest c r Hwhole eq_refl Hno Heq Hc) as (-> & He & ->).
      injection He as -> ->.
      exists node_id, p. split; [assumption|]. split.
      { right. split.
        { intros q Hq. assert (os_path_isabs p = true) by (apply os_path_isabs_iff; eauto).
          congruence. }
        split; [assumption|]. exists cwd. rewrite Hg.
        destruct (@os_path_join_relative cwd p Habs) as [Hj1 Hj2].
        repeat split; auto.
        - intros Hd. now rewrite (Hj1 Hd).
        - intros Hd. now rewrite (Hj2 Hd). }
      split; [assumption|]. split; [assumption|].
      intros bs path Hr Hp. injection Hp as <-. auto.
    + intros _ _ _ _. rewrite Hwhole. unfold count. cbn.
      unfold no_call_of in Hno.
      assert (filter (is_call_of ReadImage) rest = []) as ->; [|reflexivity].
      clear -Hno. induction rest as [|x rest IH]; cbn in *; auto.
      apply orb_false_iff in Hno as [-> Hr]. auto.
Qed.

(** C9.  The guards of both loops test whether the stored values are true
    for Python, never whether the sub-step has run: a sub-step is skipped
    for as long as one of the variables it assigns holds a true value; each
    iteration begins with the first sub-step all of whose variables hold
    false values; and a sub-step that returned a result that is false (for
    the pairs, false in both members) is left not cached by the iteration,
    so that it is pending again like one that never ran.  So it is executed
    again.  After an upload that returned a false status and a false
    response the loop is not left: it sleeps and, with a retry left, the next
    iteration begins with the upload.  After service parameters that are
    both false, or node parameters that are false, the iteration that
    follows the next sleep begins, with a retry left, with that sub-step:
    always so for the service parameters, and for the node parameters when
    the service parameters are cached (when they are not, they come first,
    being not cached either); and whenever a later iteration calls a
    sub-step that comes after it in the code, it has called that sub-step
    again before. *)
Theorem truthiness_keyed_caching :
  (forall node_id img_name base64_fw_img r l w,
      let o := while_retries (upload_body env node_id img_name base64_fw_img) (S r) l w in
      (forall s, cached l s = true -> no_call_of s (events o)) /\
      first_call (events o) = pending_upload l) /\
  (forall r l w,
      let o := while_retries (activate_body env) (S r) l w in
      (forall s, cached l s = true -> no_call_of s (events o)) /\
      first_call (events o) = pending_activate l) /\
  (forall node_id img_name base64_fw_img l w c0 rv,
      let o := upload_body env node_id img_name base64_fw_img l w in
      In (EvCall c0 (Ok rv)) (events o) -> kept (step_of c0) rv = false ->
      cached (locals_after o) (step_of c0) = false) /\
  (forall l w c0 rv,
      let o := activate_body env l w in
      In (EvCall c0 (Ok rv)) (events o) -> kept (step_of c0) rv = false ->
      cached (locals_after o) (step_of c0) = false) /\
  (forall node_id img_name base64_fw_img n l w t1 c0 st resp t2,
      events (while_retries (upload_body env node_id img_name base64_fw_img) n l w)
      = t1 ++ EvCall c0 (Ok (RPair st resp)) :: t2 ->
      step_of c0 = UploadImage -> truthy st = false -> truthy resp = false ->
      exists r l1 w1,
        S r + count is_sleep t1 = n /\
        t2 = EvSleep 5 :: retries_left_lines r
             ++ events (while_retries (upload_body env node_id img_name base64_fw_img)
                          r l1 w1) /\
        (0 < r ->
         first_call (events (while_retries (upload_body env node_id img_name base64_fw_img)
                               r l1 w1))
         = Some UploadImage)) /\
  (forall n l w t1 c0 rv t3 k v,
      events (while_retries (activate_body env) n l w)
      = t1 ++ EvCall c0 (Ok rv) :: t3 ++ EvSleep k :: v ->
      kept (step_of c0) rv = false -> existsb is_sleep t3 = false ->
      exists r l1 w1,
        S r + count is_sleep t1 = n /\ k = 5 /\
        v = retries_left_lines r ++ events (while_retries (activate_body env) r l1 w1) /\
        (0 < r ->
         first_call (events (while_retries (activate_body env) r l1 w1))
         = Some GetServiceParams \/
         first_call (events (while_retries (activate_body env) r l1 w1))
         = Some (step_of c0)) /\
        (0 < r ->
         cached l GetServiceParams = true \/
         existsb (settles GetServiceParams) t1 = true ->
         first_call (events (while_retries (activate_body env) r l1 w1))
         = Some (step_of c0))) /\
  (forall n l w t1 c0 rv t3 e t4,
      events (while_retries (activate_body env) n l w)
      = t1 ++ EvCall c0 (Ok rv) :: t3 ++ e :: t4 ->
      kept (step_of c0) rv = false -> existsb is_sleep t3 = true ->
      calls_after (step_of c0) e = true ->
      existsb (is_call_of (step_of c0)) t3 = true).
Proof.
  split; [|split; [|split; [|split; [|split; [|split]]]]].
  - intros node_id img_name base64_fw_img r l w o. subst o. split.
    + intros s Hs.
      destruct (while_retries _ (S r) l w) as [[[c l'] w'] t] eqn:E. cbn.
      now apply (@upload_loop_memo _ _ _ _ _ _ _ _ _ _ _ _ E s).
    + apply (@while_retries_first _ (upload_body env node_id img_name base64_fw_img)
               pending_upload).
      intros l0 w0 cb l1 w1 tb Hb. eapply upload_body_first; eauto.
  - intros r l w o. subst o. split.
    + intros s Hs.
      destruct (while_retries _ (S r) l w) as [[[c l'] w'] t] eqn:E. cbn.
      now apply (@activate_loop_memo _ _ _ _ _ _ _ _ _ E s).
    + apply (@while_retries_first _ (activate_body env) pending_activate).
      intros l0 w0 cb l1 w1 tb Hb. eapply activate_body_first; eauto.
  - intros node_id img_name base64_fw_img l w c0 rv o Hin Hk. subst o.
    destruct (upload_body env node_id img_name base64_fw_img l w) as [[[c l'] w'] t] eqn:E.
    cbn in *. pose proof (upload_body_forgets _ _ _ _ _ _ E) as Hf.
    rewrite forallb_forall in Hf. specialize (Hf _ Hin). cbn in Hf.
    rewrite Hk in Hf. cbn in Hf. now apply negb_true_iff in Hf.
  - intros l w c0 rv o Hin Hk. subst o.
    destruct (activate_body env l w) as [[[c l'] w'] t] eqn:E.
    cbn in *. pose proof (activate_body_forgets _ _ _ E) as Hf.
    rewrite forallb_forall in Hf. specialize (Hf _ Hin). cbn in Hf.
    rewrite Hk in Hf. cbn in Hf. now apply negb_true_iff in Hf.
  - intros node_id img_name base64_fw_img n l w t1 c0 st resp t2 Heq Hs Hst Hresp.
    eapply upload_loop_requeues; [exact Heq|].
    rewrite Hs. cbn. now rewrite Hst, Hresp.
  - intros n l w t1 c0 rv t3 k v. apply activate_loop_requeues.
  - intros n l w t1 c0 rv t3 e t4. apply activate_loop_awaits.
Qed.

End Claims.

(** C10.  The image name the code computes is the one of the rule: of the
    part of the path after its last ['/'] (all of it when it has none), what
    precedes the first [".bin"], or all of that part when [".bin"] does not
    occur in it.  So ["app.bin.bin"] gives ["app"] and ["firmware.img"]
    gives ["firmware.img"]. *)
Theorem image_name_extraction (path : string) :
  img_name_of path = image_name_rule path /\
  (exists dir,
      path = (dir ++ last_component path)%string /\
      (dir = EmptyString \/ exists d, dir = (d ++ "/")%string) /\
      str_contains "/" (last_component path) = false) /\
  ((str_contains ".bin" (last_component path) = false /\
    img_name_of path = last_component path) \/
   (str_contains ".bin" (last_component path) = true /\
    (exists rest, last_component path = (img_name_of path ++ ".bin" ++ rest)%string) /\
    str_contains ".bin" (img_name_of path ++ ".bi")%string = false)) /\
  img_name_of "app.bin.bin" = "app"%string /\
  img_name_of "firmware.img" = "firmware.img"%string.
Proof.
  split; [apply img_name_of_rule|]. split; [apply last_component_spec|].
  split; [|split; reflexivity].
  rewrite img_name_of_rule. unfold image_name_rule.
  set (comp := last_component path).
  destruct (before_first_spec ".bin" comp) as [Hyes Hno].
  destruct (str_contains ".bin" comp) eqn:Ec.
  - right. destruct (Hyes eq_refl) as [[rest Hrest] Hmin].
    split; [reflexivity|]. split; [eauto|].
    destruct (str_contains ".bin" (before_first ".bin" comp ++ ".bi")) eqn:E; auto.
    exfalso. apply str_contains_iff in E as (a & b & Hab).
    assert (Hc : comp = (a ++ ".bin" ++ (b ++ "n" ++ rest))%string).
    { rewrite Hrest at 1.
      change (".bin" ++ rest)%string with (".bi" ++ ("n" ++ rest))%string.
      rewrite <- (append_assoc (before_first ".bin" comp) ".bi" ("n" ++ rest)), Hab.
      rewrite !append_assoc. reflexivity. }
    specialize (Hmin _ _ Hc).
    apply (f_equal String.length) in Hab. rewrite !length_append in Hab. cbn in Hab. lia.
  - left. split; [reflexivity|]. now apply Hno.
Qed.

(** ** The scenarios, run *)

Import Scripted Scenarios.


(** The upload that succeeds at the third attempt is not repeated while the
    device is activated. *)
Lemma kept_results_witness :
  no_call_of UploadImage (skipn 25 (trace_of env vars upload_third_time)).
Proof.
  apply (@kept_results_are_not_recomputed _ env vars upload_third_time
           (firstn 24 (trace_of env vars upload_third_time))
           the_upload the_upload_answer).
  - vm_compute. reflexivity.
  - vm_compute. reflexivity.
Defined.

(** A node without parameters: the empty document that [get_node_params]
    returned is fetched again after the start command has timed out, in a
    run where every failure is transient and that ends well. *)
Lemma recomputed_counterexample :
  completed (trace_of env vars empty_node_params) /\
  forallb (fun e => negb (is_raise e) || transport_failed e)
    (trace_of env vars empty_node_params) = true /\
  ~ (forall t1 c r t2,
        trace_of env vars empty_node_params = t1 ++ EvCall c (Ok r) :: t2 ->
        no_call_of (step_of c) t2).
Proof.
  split; [|split].
  - exists (firstn 34 (trace_of env vars empty_node_params)),
      (c_check_ota_status (PObj (Obj 3)) (PObj (Obj 2)) (PStr "ota")
         (PList [PStr "ota_status"])),
      (PDict [("ota_status", PStr "completed")]).
    split; [vm_compute; reflexivity|]. split; [reflexivity|].
    split; vm_compute; reflexivity.
  - vm_compute. reflexivity.
  - intros H.
    assert (Heq : trace_of env vars empty_node_params =
                  firstn 19 (trace_of env vars empty_node_params)
                  ++ EvCall (c_get_node_params (PObj (Obj 2))) (Ok (RVal (PDict [])))
                     :: skipn 20 (trace_of env vars empty_node_params))
      by (vm_compute; reflexivity).
    specialize (H _ _ _ _ Heq). vm_compute in H. discriminate H.
Qed.


(** The fifth sleep follows the last attempt. *)
Example offline_sleeps :
  count is_sleep (events (upload_phase Offline.env (PStr "N1") "fw" "" all_None tt)) = 5 /\
  last (events (upload_phase Offline.env (PStr "N1") "fw" "" all_None tt)) (EvPrint [])
  = EvSleep 5.
Proof. split; vm_compute; reflexivity. Qed.

(** A node without OTA service: nothing but lines after the discovery. *)
Lemma fatal_short_circuit_witness :
  calm (skipn 8 (trace_of env vars no_ota_service)) /\
  In failed_line (skipn 8 (trace_of env vars no_ota_service)).
Proof.
  apply (@fatal_short_circuit _ env vars no_ota_service
           (firstn 7 (trace_of env vars no_ota_service))
           (nth 7 (trace_of env vars no_ota_service) (EvSleep 0))).
  - vm_compute. reflexivity.
  - left. vm_compute. reflexivity.
Defined.

(** The poll of a run that went well was preceded by a successful upload. *)
Lemma activation_entry_witness :
  exists c st resp,
    In (EvCall c (Ok (RPair st resp))) (trace_of env vars all_well) /\
    step_of c = UploadImage /\ truthy st = true /\
    contains "success" st = Ok true /\ contains "image_url" resp = Ok true.
Proof.
  apply (proj1 (activation_entry env vars all_well) CheckOtaStatus).
  - reflexivity.
  - vm_compute. reflexivity.
Defined.


(** The upload loop ends with the upload that succeeds, three retries left. *)
Lemma success_short_circuit_witness :
  skipn 24 (events (while_retries (upload_body env (PStr "N1") "fw" "x") 5 all_None
                      (tl upload_third_time))) = [] /\
  exists k,
    ending (while_retries (upload_body env (PStr "N1") "fw" "x") 5 all_None
              (tl upload_third_time)) = Norm (S k) /\
    S k + count is_sleep
            (firstn 23 (events (while_retries (upload_body env (PStr "N1") "fw" "x") 5
                                  all_None (tl upload_third_time)))) = 5.
Proof.
  apply (proj1 (success_short_circuit env) (PStr "N1") "fw"%string "x"%string 5 all_None
           (tl upload_third_time)
           (firstn 23 (events (while_retries (upload_body env (PStr "N1") "fw" "x") 5
                                 all_None (tl upload_third_time))))
           (nth 23 (events (while_retries (upload_body env (PStr "N1") "fw" "x") 5
                              all_None (tl upload_third_time))) (EvSleep 0))).
  - vm_compute. reflexivity.
  - vm_compute. reflexivity.
Defined.

(** A TLS failure at the second attempt: the error line, and four retries
    left as when that attempt began. *)
Lemma tls_failure_witness :
  exists r,
    S r + count is_sleep
            (firstn 6 (events (while_retries (upload_body env (PStr "N1") "fw" "x") 5
                                 all_None (tl tls_broken)))) = 5 /\
    skipn 7 (events (while_retries (upload_body env (PStr "N1") "fw" "x") 5
                       all_None (tl tls_broken))) = [EvLog Error [ExnOf SSLError]] /\
    ending (while_retries (upload_body env (PStr "N1") "fw" "x") 5 all_None (tl tls_broken))
    = Norm (S r).
Proof.
  assert (Heq : events (while_retries (upload_body env (PStr "N1") "fw" "x") 5
                          all_None (tl tls_broken)) =
                firstn 6 (events (while_retries (upload_body env (PStr "N1") "fw" "x") 5
                                    all_None (tl tls_broken)))
                ++ EvCall c_Session (Raise SSLError)
                   :: skipn 7 (events (while_retries (upload_body env (PStr "N1") "fw" "x") 5
                                         all_None (tl tls_broken))))
    by (vm_compute; reflexivity).
  destruct (proj1 (transient_and_tls_failures env) (PStr "N1") "fw"%string "x"%string
              5 all_None (tl tls_broken) _ _ _ _ Heq)
    as (l1 & w1 & _ & _ & Hfatal).
  exact (Hfatal eq_refl).
Defined.

(** After the fifth failed attempt nothing tells the retries left. *)
Lemma retries_left_counterexample :
  ~ (forall t1 c x t2,
        events (upload_phase Offline.env (PStr "N1") "fw" "" all_None tt)
        = t1 ++ EvCall c (Raise x) :: t2 ->
        transient x = true -> existsb is_retries_left t2 = true).
Proof.
  intros H.
  assert (Heq : events (upload_phase Offline.env (PStr "N1") "fw" "" all_None tt) =
                firstn 24 (events (upload_phase Offline.env (PStr "N1") "fw" "" all_None tt))
                ++ EvCall c_Session (Raise NetworkError)
                   :: skipn 25 (events (upload_phase Offline.env (PStr "N1") "fw" ""
                                          all_None tt)))
    by (vm_compute; reflexivity).
  specialize (H _ _ _ _ Heq eq_refl). vm_compute in H. discriminate H.
Qed.

(** A relative path that cannot be opened: it is opened joined to the
    current directory with a slash, and the error line is all that follows. *)
Lemma image_read_once_witness :
  c_open_read "/home/user/build/fw.bin" = c_open_read ("/home/user" ++ "/" ++ "build/fw.bin") /\
  skipn 2 (trace_of env relative_vars unreadable_relative_image)
  = [command_error_line OSError].
Proof.
  assert (Heq : trace_of env relative_vars unreadable_relative_image =
                [EvCall c_getcwd (Ok (RStr "/home/user"))]
                ++ EvCall (c_open_read "/home/user/build/fw.bin") (Raise OSError)
                   :: skipn 2 (trace_of env relative_vars unreadable_relative_image))
    by (vm_compute; reflexivity).
  destruct (proj1 (image_read_once env relative_vars unreadable_relative_image)
              _ _ _ _ Heq eq_refl)
    as (node_id & p & Ha & Hpath & _ & Hraise & _).
  split; [|exact (Hraise OSError eq_refl)].
  injection Ha as <- <-.
  destruct Hpath as [([q Hq] & _)|(_ & _ & cwd & Hcwd & _ & _ & _ & Hjoin)];
    [discriminate Hq|].
  injection Hcwd as <-. apply Hjoin. split; [discriminate|].
  intros d Hd.
  assert (He : endswith_char "/" "/home/user" = true) by (apply endswith_char_iff; eauto).
  discriminate He.
Defined.

(** An empty status with an empty body: the loop sleeps, tells the four
    retries left, and uploads again. *)
Lemma truthiness_witness :
  exists r l1 w1,
    S r + count is_sleep
            (firstn 11 (events (while_retries (upload_body env (PStr "N1") "fw" "x") 5
                                  all_None (tl empty_upload_answers)))) = 5 /\
    skipn 12 (events (while_retries (upload_body env (PStr "N1") "fw" "x") 5
                        all_None (tl empty_upload_answers)))
    = EvSleep 5 :: retries_left_lines r
      ++ events (while_retries (upload_body env (PStr "N1") "fw" "x") r l1 w1) /\
    (0 < r ->
     first_call (events (while_retries (upload_body env (PStr "N1") "fw" "x") r l1 w1))
     = Some UploadImage).
Proof.
  apply (proj1 (proj2 (proj2 (proj2 (proj2 (truthiness_keyed_caching env)))))
           (PStr "N1") "fw"%string "x"%string 5 all_None (tl empty_upload_answers)
           (firstn 11 (events (while_retries (upload_body env (PStr "N1") "fw" "x") 5
                                 all_None (tl empty_upload_answers))))
           (c_upload_ota_image (PObj (Obj 3)) (PObj (Obj 2)) "fw" "x")
           (PStr "") (PDict [])).
  - vm_compute. reflexivity.
  - reflexivity.
  - reflexivity.
  - reflexivity.
Defined.

(** The upload that returned nothing is the next call of the loop. *)
Example empty_answer_is_asked_again :
  first_call (skipn 12 (events (while_retries (upload_body env (PStr "N1") "fw" "x") 5
                                  all_None (tl empty_upload_answers))))
  = Some UploadImage.
Proof. vm_compute. reflexivity. Qed.

(** The three runs of the specification. *)
Example scenario_A : existsb is_error_log (trace_of env vars all_well) = false.
Proof. vm_compute. reflexivity. Qed.

Example scenario_B :
  existsb is_error_log (trace_of env vars upload_third_time) = false /\
  count (is_call_of UploadImage) (trace_of env vars upload_third_time) = 3 /\
  count (is_call_of VerifyService) (trace_of env vars upload_third_time) = 1.
Proof. split; [|split]; vm_compute; reflexivity. Qed.

Example scenario_C :
  In failed_line (trace_of env vars no_ota_service) /\
  count (is_call_of UploadImage) (trace_of env vars no_ota_service) = 0 /\
  count is_sleep (trace_of env vars no_ota_service) = 0.
Proof. split; [|split; vm_compute; reflexivity]. vm_compute. tauto. Qed.

(** An empty answer to the upload is asked for again at every attempt. *)
Example empty_answers_are_retried :
  count (returns UploadImage) (trace_of env vars empty_upload_answers) = 3.
Proof. vm_compute. reflexivity. Qed.

(** * The other commands *)

(** Runs a command on every answer of what it calls. *)
Ltac open_cmd H :=
  cbv [Cli.def Cli.bind Cli.try_except_else Cli.ask Cli.eval Cli.ret Cli.raise
       Cli.return_ Cli.sys_exit Cli.log Cli.print Cli.emit Cli.local Cli.print_json
       Cli.new_Node Cli.when Cli.on_request_error Cli.bind_if_given
       Cli.or_invalid_json Cli.ask_claim Cli.call_claim] in H;
  cbn in H.

Ltac split_cmd H :=
  revert H;
  repeat (destruct_scrutinee; cbn);
  intros H; injection H as <- <- <-.

Ltac run_cmd H := open_cmd H; split_cmd H.

(** Names the three parts of a call of a command. *)
Ltac name_run r o w' t E :=
  destruct r as [[o w'] t] eqn:E; cbn [Cli.result Cli.said Cli.world_left fst snd].

Ltac failed_here :=
  unfold Cli.failed_calls;
  first
    [ left; split; [first [eassumption | reflexivity] | reflexivity]
    | right; eexists; split; [first [eassumption | reflexivity] |];
      first [ left; reflexivity
            | right; left; eexists; reflexivity
            | right; right; eexists _, _; reflexivity ] ].

(** Picks the exception that made a command fail and the calls before it. *)
Ltac pick_failure :=
  match goal with
  | |- exists e t, _ /\ _ /\ ?l = _ =>
      first
        [ match l with
          | context [Cli.Call _ (Cli.Fails ?x)] => exists x, (filter Cli.is_call l)
          end
        | match goal with
          | H : subscript _ _ = Raise ?x |- _ => exists x, (filter Cli.is_call l)
          end ]
  end;
  cbn [filter Cli.is_call];
  split; [failed_here | split; reflexivity].

Lemma lookup_in_keys key kvs :
  existsb (fun kv : string * pyval => String.eqb (fst kv) key) kvs
  = match lookup key kvs with Some _ => true | None => false end.
Proof.
  induction kvs as [|[k v] kvs IH]; cbn; auto.
  destruct (String.eqb k key); cbn; auto.
Qed.

Section NodeQueries.
Variable W : Type.
Variable lib : Cli.library W.

(** X1. [get_node_config] returns what [Node.get_node_config] returned,
    once it has printed it; when the node id is missing or one of its
    calls raises, it logs the error and then raises [UnboundLocalError]
    at [return node_config], and never returns [None] for a failure. *)
Theorem get_node_config_outcome vars w :
  let r := Cli.get_node_config lib vars w in
  (exists nodeid s n v,
      subscript vars "nodeid" = Ok nodeid /\ json_serialisable v = true /\
      Cli.result r = Cli.Returns v /\
      Cli.said r = Cli.node_calls nodeid s n (Cli.r_get_node_config n) v
                   ++ [Cli.PrintJson 4 v]) \/
  (exists nodeid s n v,
      subscript vars "nodeid" = Ok nodeid /\ json_serialisable v = false /\
      Cli.result r = Cli.Raises TypeError /\
      Cli.said r = Cli.node_calls nodeid s n (Cli.r_get_node_config n) v) \/
  (exists e t,
      Cli.failed_calls vars Cli.r_get_node_config e t /\
      Cli.result r = Cli.Raises Cli.UnboundLocalError /\
      Cli.said r = t ++ [Cli.Log Error [ExnOf e]]).
Proof.
  intros r. subst r. name_run (Cli.get_node_config lib vars w) o w' t H.
  unfold Cli.get_node_config in H. run_cmd H.
  - left. eexists _, _, _, _. repeat split; eauto.
  - right; left. eexists _, _, _, _. repeat split; eauto.
  - right; right. pick_failure.
  - right; right. pick_failure.
  - right; right. pick_failure.
  - right; right. pick_failure.
Qed.

(** X2. [get_node_status] prints the status when its three calls
    returned, and logs the error otherwise; it returns [None] in both
    cases, and raises only when the status cannot be serialised. *)
Theorem get_node_status_outcome vars w :
  let r := Cli.get_node_status lib vars w in
  (exists nodeid s n v,
      subscript vars "nodeid" = Ok nodeid /\ json_serialisable v = true /\
      Cli.result r = Cli.Returns PNone /\
      Cli.said r = Cli.node_calls nodeid s n (Cli.r_get_node_status n) v
                   ++ [Cli.PrintJson 4 v]) \/
  (exists nodeid s n v,
      subscript vars "nodeid" = Ok nodeid /\ json_serialisable v = false /\
      Cli.result r = Cli.Raises TypeError /\
      Cli.said r = Cli.node_calls nodeid s n (Cli.r_get_node_status n) v) \/
  (exists e t,
      Cli.failed_calls vars Cli.r_get_node_status e t /\
      Cli.result r = Cli.Returns PNone /\
      Cli.said r = t ++ [Cli.Log Error [ExnOf e]]).
Proof.
  intros r. subst r. name_run (Cli.get_node_status lib vars w) o w' t H.
  unfold Cli.get_node_status in H. run_cmd H.
  - left. eexists _, _, _, _. repeat split; eauto.
  - right; left. eexists _, _, _, _. repeat split; eauto.
  - right; right. pick_failure.
  - right; right. pick_failure.
  - right; right. pick_failure.
  - right; right. pick_failure.
Qed.

(** X3. [get_params] returns the parameters it printed; parameters that
    are [None] are an error that it logs, returning [None]; after a failure
    it reports it (a log line, and for [NetworkError] a printed line and a
    warning) and then raises [UnboundLocalError] at [return params]. *)
Theorem get_params_outcome vars w :
  let r := Cli.get_params lib vars w in
  (exists nodeid s n v,
      subscript vars "nodeid" = Ok nodeid /\ is_None v = false /\
      json_serialisable v = true /\
      Cli.result r = Cli.Returns v /\
      Cli.said r = Cli.node_calls nodeid s n (Cli.r_get_node_params n) v
                   ++ [Cli.PrintJson 4 v]) \/
  (exists nodeid s n,
      subscript vars "nodeid" = Ok nodeid /\
      Cli.result r = Cli.Returns PNone /\
      Cli.said r = Cli.node_calls nodeid s n (Cli.r_get_node_params n) PNone
                   ++ [Cli.Log Error [Lit "Node status not updated."]]) \/
  (exists nodeid s n v,
      subscript vars "nodeid" = Ok nodeid /\ json_serialisable v = false /\
      Cli.result r = Cli.Raises TypeError /\
      Cli.said r = Cli.node_calls nodeid s n (Cli.r_get_node_params n) v) \/
  (exists e t,
      Cli.failed_calls vars Cli.r_get_node_params e t /\
      Cli.result r = Cli.Raises Cli.UnboundLocalError /\
      Cli.said r = t ++ Cli.report_lines e).
Proof.
  intros r. subst r. name_run (Cli.get_params lib vars w) o w' t H.
  unfold Cli.get_params in H. run_cmd H.
  all: try match goal with
       | H : is_None ?v = true |- _ => destruct v; try discriminate
       end.
  all: try solve [right; left; eexists _, _, _; repeat split; eauto].
  all: try solve [left; eexists _, _, _, _; repeat split; eauto].
  all: try solve [right; right; left; eexists _, _, _, _; repeat split; eauto].
  all: right; right; right.
  all: pick_failure.
Qed.

(** X4. [remove_node] reports success whenever
    [remove_user_node_mapping] returned, whatever it returned, and logs the
    error when a call raised; it returns [None] in both cases.  A node id
    that is missing or is not a string is an exception of the command
    itself, raised before it calls anything. *)
Theorem remove_node_outcome vars w :
  let r := Cli.remove_node lib vars w in
  (exists nodeid s n v,
      subscript vars "nodeid" = Ok (PStr nodeid) /\
      Cli.result r = Cli.Returns PNone /\
      Cli.said r =
        Cli.Log Info [Lit ("Removing user node mapping for node " ++ nodeid)]
        :: Cli.node_calls (PStr nodeid) s n (Cli.r_remove_user_node_mapping n) v
        ++ [Cli.Log Debug [Lit "Removed the user node mapping successfully."];
            Cli.Print [Lit ("Removed node " ++ nodeid ++ " successfully.")]]) \/
  (exists nodeid e t,
      subscript vars "nodeid" = Ok (PStr nodeid) /\
      Cli.failed_calls vars Cli.r_remove_user_node_mapping e t /\
      Cli.result r = Cli.Returns PNone /\
      Cli.said r =
        Cli.Log Info [Lit ("Removing user node mapping for node " ++ nodeid)]
        :: t ++ [Cli.Log Error [ExnOf e]]) \/
  (exists e,
      (subscript vars "nodeid" = Raise e \/
       exists v, subscript vars "nodeid" = Ok v /\ Cli.as_str v = Raise e) /\
      Cli.result r = Cli.Raises e /\ Cli.said r = []).
Proof.
  intros r. subst r. name_run (Cli.remove_node lib vars w) o w' t H.
  unfold Cli.remove_node in H. run_cmd H.
  all: repeat match goal with
       | H : Cli.as_str ?v = Ok _ |- _ => destruct v; try discriminate; injection H as ->
       | H1 : ?x = Ok _, H2 : ?x = Ok _ |- _ => rewrite H1 in H2; injection H2 as <-
       | H1 : ?x = Ok _, H2 : ?x = Raise _ |- _ => rewrite H1 in H2; discriminate
       end.
  all: try solve [left; eexists _, _, _, _; repeat split; eauto].
  all: try solve [right; right; eexists; split; [eauto|split; reflexivity]].
  all: right; left.
  all: match goal with
       | |- exists n e t, _ /\ _ /\ _ /\ ?l = _ =>
           match l with
           | context [Cli.Call _ (Cli.Fails ?x)] => eexists _, x, (filter Cli.is_call l)
           end
       end.
  all: cbn [filter Cli.is_call].
  all: split; [reflexivity|]; split; [failed_here|]; split; reflexivity.
Qed.

End NodeQueries.

(** ** [set_params] *)

Section SetParams.
Variable W : Type.
Variable lib : Cli.library W.

(** X5. [set_params] prints that the node state is updated exactly when
    [set_node_params] returned, whatever status it returned; and an
    exception leaves [set_params] only before it has called the cloud:
    from the first call on, every failure is reported and [None] returned. *)
Theorem set_params_reports vars w :
  let r := Cli.set_params lib vars w in
  (In (Cli.Print [Lit "Node state updated successfully."]) (Cli.said r) <->
   exists n data v,
     In (Cli.Call (Cli.r_set_node_params n data) (Cli.Gives (RVal v))) (Cli.said r)) /\
  (Cli.result r = Cli.Returns PNone \/
   exists e, Cli.result r = Cli.Raises e /\ existsb Cli.is_cloud_call (Cli.said r) = false).
Proof.
  intros r. subst r. name_run (Cli.set_params lib vars w) o w' t H.
  unfold Cli.set_params in H. run_cmd H.
  all: split; [split|].
  all: try solve [left; reflexivity | right; eexists; split; reflexivity].
  all: try solve [intros _; eexists _, _, _; cbn; repeat first [left; reflexivity | right]].
  all: try solve [intros _; cbn; repeat first [left; reflexivity | right]].
  all: try solve [cbn; intuition discriminate].
  all: try solve [intros (n & d & v & Hin); cbn in Hin; intuition discriminate].
Qed.

Section Given.
Variables (kvs : list (string * pyval)) (nodeid : string) (w : W).
Hypothesis Hnodeid : lookup "nodeid" kvs = Some (PStr nodeid).

Let r := Cli.set_params lib (PDict kvs) w.

Ltac start H :=
  subst r; destruct (Cli.set_params lib (PDict kvs) w) as [[? ?] ?] eqn:H;
  cbn [Cli.result Cli.said Cli.world_left fst snd];
  unfold Cli.set_params in H; open_cmd H.

Ltac calls_carry :=
  let Hin := fresh "Hin" in
  intros ? ? ? Hin; cbn in Hin;
  repeat match goal with
  | H : _ \/ _ |- _ => destruct H as [H|H]
  | H : False |- _ => destruct H
  | H : Cli.Call _ _ = Cli.Call _ _ |- _ => injection H as <- <- <-
  | H : _ = _ |- _ => discriminate H
  end;
  try reflexivity.

(** X7. With JSON data on the command line, [set_params] does not touch
    the file system; it decodes the data once the pattern of lines 134-136
    has been deleted from it; data that do not decode raise
    [InvalidJSONError] before any call to the cloud; and what is decoded is
    what every call of [set_node_params] carries. *)
Theorem set_params_data data :
  lookup "data" kvs = Some (PStr data) ->
  existsb Cli.is_file_call (Cli.said r) = false /\
  (forall e, Cli.json_loads lib (trim_data data) = Raise e ->
     Cli.result r = Cli.Raises InvalidJSONError /\
     Cli.said r =
       [Cli.Log Info [Lit ("Setting params of the node with nodeid : " ++ nodeid)];
        Cli.Log Debug [Lit "Setting node parameters using JSON data."];
        Cli.Log Debug [Lit ("JSON data : " ++ trim_data data)];
        Cli.Call (Cli.r_json_loads (trim_data data)) (Cli.Fails e)]) /\
  (forall v, Cli.json_loads lib (trim_data data) = Ok v ->
     Cli.result r = Cli.Returns PNone /\
     In (Cli.Call (Cli.r_json_loads (trim_data data)) (Cli.Gives (RVal v))) (Cli.said r) /\
     forall n x ans, In (Cli.Call (Cli.r_set_node_params n x) ans) (Cli.said r) -> x = v).
Proof.
  intros Hdata. start H.
  rewrite ?lookup_in_keys, ?Hnodeid, ?Hdata in H. cbn in H.
  rewrite ?lookup_in_keys, ?Hnodeid, ?Hdata in H. cbn in H.
  split_cmd H.
  all: split; [reflexivity|split].
  all: try solve [intros ? He; discriminate He].
  all: try solve [intros ? He; injection He as <-; split; reflexivity].
  all: intros ? He; injection He as <-; split; [reflexivity|split].
  all: try solve [cbn; repeat first [left; reflexivity | right]].
  all: calls_carry.
Qed.

(** X8. With no data but a file, [set_params] asks whether the file
    exists: when it does not, it logs that, returns [None] and calls
    nothing else; when it does, a file that cannot be decoded raises
    [InvalidJSONError] before any call to the cloud, and what is decoded is
    what every call of [set_node_params] carries. *)
Theorem set_params_file filepath :
  lookup "data" kvs = Some PNone ->
  lookup "filepath" kvs = Some (PStr filepath) ->
  (forall w1, Cli.Path_exists lib filepath w = (Ok false, w1) ->
     Cli.result r = Cli.Returns PNone /\
     Cli.said r =
       [Cli.Log Info [Lit ("Setting params of the node with nodeid : " ++ nodeid)];
        Cli.Log Debug [Lit "Setting node parameters using JSON file."];
        Cli.Call (Cli.r_exists filepath) (Cli.Gives (RVal (PBool false)));
        Cli.Log Error [Lit ("File " ++ Cli.Path_name lib filepath ++ " does not exist!")]]) /\
  (forall w1 fh w2 e w3,
     Cli.Path_exists lib filepath w = (Ok true, w1) ->
     Cli.open_ lib filepath w1 = (Ok fh, w2) ->
     Cli.json_load lib fh w2 = (Raise e, w3) ->
     Cli.result r = Cli.Raises InvalidJSONError /\
     existsb Cli.is_cloud_call (Cli.said r) = false) /\
  (forall w1 fh w2 v w3,
     Cli.Path_exists lib filepath w = (Ok true, w1) ->
     Cli.open_ lib filepath w1 = (Ok fh, w2) ->
     Cli.json_load lib fh w2 = (Ok v, w3) ->
     Cli.result r = Cli.Returns PNone /\
     forall n x ans, In (Cli.Call (Cli.r_set_node_params n x) ans) (Cli.said r) -> x = v).
Proof.
  intros Hdata Hfile. start H.
  rewrite ?lookup_in_keys, ?Hnodeid, ?Hdata, ?Hfile in H. cbn in H.
  rewrite ?lookup_in_keys, ?Hnodeid, ?Hdata, ?Hfile in H. cbn in H.
  split; [|split].
  - intros w1 E. rewrite E in H. cbn in H. injection H as <- <- <-. split; reflexivity.
  - intros w1 fh w2 e w3 E1 E2 E3. rewrite E1 in H. cbn in H. rewrite E2 in H. cbn in H.
    rewrite E3 in H. cbn in H. injection H as <- <- <-. split; reflexivity.
  - intros w1 fh w2 v w3 E1 E2 E3. rewrite E1 in H. cbn in H. rewrite E2 in H. cbn in H.
    rewrite E3 in H. cbn in H. rewrite ?Hnodeid in H. cbn in H. split_cmd H.
    all: split; [reflexivity|]. all: calls_carry.
Qed.

(** X9. [set_params] reads [data] and [filepath] whether or not [vars]
    has them: without a ['data'] key, and with data that are [None] but no
    ['filepath'] key, it raises [UnboundLocalError] once it has logged its
    first line; with both [None] it goes on with [None] as the parameters. *)
Theorem set_params_unbound :
  (lookup "data" kvs = None ->
   Cli.result r = Cli.Raises Cli.UnboundLocalError /\
   Cli.said r =
     [Cli.Log Info [Lit ("Setting params of the node with nodeid : " ++ nodeid)]]) /\
  (lookup "data" kvs = Some PNone -> lookup "filepath" kvs = None ->
   Cli.result r = Cli.Raises Cli.UnboundLocalError /\
   Cli.said r =
     [Cli.Log Info [Lit ("Setting params of the node with nodeid : " ++ nodeid)]]) /\
  (lookup "data" kvs = Some PNone -> lookup "filepath" kvs = Some PNone ->
   Cli.result r = Cli.Returns PNone /\
   existsb Cli.is_file_call (Cli.said r) = false /\
   forall n x ans, In (Cli.Call (Cli.r_set_node_params n x) ans) (Cli.said r) -> x = PNone).
Proof.
  split; [|split].
  - intros Hdata. start H.
    rewrite ?lookup_in_keys, ?Hnodeid, ?Hdata in H. cbn in H.
    destruct (lookup "filepath" kvs); cbn in H; injection H as <- <- <-; split; reflexivity.
  - intros Hdata Hfile. start H.
    rewrite ?lookup_in_keys, ?Hnodeid, ?Hdata, ?Hfile in H. cbn in H.
    rewrite ?lookup_in_keys, ?Hnodeid, ?Hdata, ?Hfile in H. cbn in H.
    injection H as <- <- <-; split; reflexivity.
  - intros Hdata Hfile. start H.
    rewrite ?lookup_in_keys, ?Hnodeid, ?Hdata, ?Hfile in H. cbn in H.
    rewrite ?lookup_in_keys, ?Hnodeid, ?Hdata, ?Hfile in H. cbn in H.
    rewrite ?lookup_in_keys, ?Hnodeid, ?Hdata, ?Hfile in H. cbn in H.
    split_cmd H.
    all: split; [reflexivity|]; split; [reflexivity|]. all: calls_carry.
Qed.

End Given.

End SetParams.

(** ** [get_nodes] *)

Lemma lookup_NoDup kvs k v :
  NoDup (map fst kvs) -> In (k, v) kvs -> lookup k kvs = Some v.
Proof.
  induction kvs as [|[k0 v0] kvs IH]; cbn; [tauto|].
  intros Hnd [Heq|Hin].
  - injection Heq as -> ->. now rewrite String.eqb_refl.
  - inversion Hnd as [|? ? Hnot Hnd']; subst.
    destruct (String.eqb k0 k) eqn:E.
    + apply String.eqb_eq in E. subst. exfalso. apply Hnot.
      change k with (fst (k, v)). now apply in_map.
    + auto.
Qed.

Lemma nodes_of_keys kvs :
  NoDup (map fst kvs) ->
  Forall2 (fun k v => subscript (PDict kvs) k = Ok v) (map fst kvs) (map snd kvs).
Proof.
  intros Hnd.
  assert (H : forall some, incl some kvs ->
            Forall2 (fun k v => subscript (PDict kvs) k = Ok v) (map fst some) (map snd some)).
  { induction some as [|[k v] some IH]; cbn; intros Hin; constructor.
    - cbn. rewrite (@lookup_NoDup kvs k v); auto. apply Hin. now left.
    - apply IH. intros x Hx. apply Hin. now right. }
  apply H, incl_refl.
Qed.

Section GetNodes.
Variable W : Type.
Variable lib : Cli.library W.

Lemma prints_app (a b : list Cli.io) : Cli.prints (a ++ b) = Cli.prints a ++ Cli.prints b.
Proof. apply filter_app. Qed.

Lemma for_each_nodes nodes ks vs w c w' t :
  Forall2 (fun k v => subscript nodes k = Ok v) ks vs ->
  Cli.for_each ks (Cli.print_nodeid lib nodes) w = (c, w', t) ->
  Cli.prints t = map (fun v => Cli.Print [StrOf v]) (Cli.nodeids t) /\
  Cli.asked_nodes t = firstn (List.length (Cli.asked_nodes t)) vs /\
  existsb Cli.is_error t = false /\
  ((c = Cli.Next tt /\ Cli.asked_nodes t = vs /\
    List.length (Cli.nodeids t) = List.length vs) \/
   (exists e t0 n,
       c = Cli.Throw e /\ t = t0 ++ [Cli.Call (Cli.r_get_nodeid n) (Cli.Fails e)] /\
       List.length (Cli.nodeids t) < List.length vs)).
Proof.
  intros Hks. revert w c w' t.
  induction Hks as [|k v ks vs Hk Hks IH]; intros w c w' t H.
  - cbn in H. injection H as <- <- <-. cbn. repeat split; auto.
  - cbn [Cli.for_each] in H. unfold Cli.bind at 1 in H.
    unfold Cli.print_nodeid at 1 in H. open_cmd H. rewrite Hk in H. cbn in H.
    destruct (Cli.Node_get_nodeid lib v w) as [[id|e] w1] eqn:E; cbn in H.
    + destruct (Cli.for_each ks (Cli.print_nodeid lib nodes) w1) as [[c2 w2] t2] eqn:E2.
      injection H as <- <- <-.
      destruct (IH _ _ _ _ E2) as (Hp & Ha & He & Hc).
      unfold Cli.prints in *. cbn. rewrite Hp. split; [reflexivity|]. split; [now rewrite <- Ha|].
      split; [exact He|].
      destruct Hc as [(-> & Hav & Hl)|(e & t0 & n & -> & -> & Hl)].
      * left. rewrite Hav, Hl. auto.
      * right. exists e, (Cli.Call (Cli.r_get_nodeid v) (Cli.Gives (RVal id))
                           :: Cli.Print [StrOf id] :: t0), n.
        split; [reflexivity|]. split; [reflexivity|]. cbn in *. lia.
    + injection H as <- <- <-. cbn. split; [reflexivity|]. split; [reflexivity|].
      split; [reflexivity|].
      right. exists e, [], v. cbn. repeat split; lia.
Qed.

Arguments Cli.for_each : simpl never.

(** X6. [get_nodes] logs the error and prints nothing when the session
    or the listing fails; it prints one line when the user has no node; and
    otherwise it asks each node of the dictionary for its id, in the order
    of the dictionary, and prints each id it gets.  An exception of
    [get_nodeid] is not caught: it leaves [get_nodes] after the ids printed
    so far.  In the other cases [get_nodes] returns [None]. *)
Theorem get_nodes_outcome vars w :
  let r := Cli.get_nodes lib vars w in
  (forall e w1,
      Cli.session_Session lib w = (Raise e, w1) ->
      Cli.result r = Cli.Returns PNone /\
      Cli.said r = [Cli.Call Cli.r_Session (Cli.Fails e); Cli.Log Error [ExnOf e]]) /\
  (forall s w1 e w2,
      Cli.session_Session lib w = (Ok s, w1) ->
      Cli.Session_get_nodes lib s w1 = (Raise e, w2) ->
      Cli.result r = Cli.Returns PNone /\
      Cli.said r = [Cli.Call Cli.r_Session (Cli.Gives (RObj s));
                    Cli.Call (Cli.r_get_nodes s) (Cli.Fails e); Cli.Log Error [ExnOf e]]) /\
  (forall s w1 w2,
      Cli.session_Session lib w = (Ok s, w1) ->
      Cli.Session_get_nodes lib s w1 = (Ok (PDict []), w2) ->
      Cli.result r = Cli.Returns PNone /\
      Cli.said r = [Cli.Call Cli.r_Session (Cli.Gives (RObj s));
                    Cli.Call (Cli.r_get_nodes s) (Cli.Gives (RVal (PDict [])));
                    Cli.Print [Lit "User is not associated with any nodes."]]) /\
  (forall s w1 kvs w2,
      Cli.session_Session lib w = (Ok s, w1) ->
      Cli.Session_get_nodes lib s w1 = (Ok (PDict kvs), w2) ->
      kvs <> [] -> NoDup (map fst kvs) ->
      Cli.prints (Cli.said r) = map (fun v => Cli.Print [StrOf v]) (Cli.nodeids (Cli.said r)) /\
      Cli.asked_nodes (Cli.said r)
      = firstn (List.length (Cli.asked_nodes (Cli.said r))) (map snd kvs) /\
      existsb Cli.is_error (Cli.said r) = false /\
      ((Cli.result r = Cli.Returns PNone /\
        Cli.asked_nodes (Cli.said r) = map snd kvs /\
        List.length (Cli.nodeids (Cli.said r)) = List.length kvs) \/
       (exists e t0 n,
           Cli.result r = Cli.Raises e /\
           Cli.said r = t0 ++ [Cli.Call (Cli.r_get_nodeid n) (Cli.Fails e)] /\
           List.length (Cli.nodeids (Cli.said r)) < List.length kvs))).
Proof.
  intros r. subst r.
  split; [|split; [|split]].
  - intros e w1 Es.
    name_run (Cli.get_nodes lib vars w) o w' t H.
    unfold Cli.get_nodes in H. open_cmd H. rewrite Es in H. cbn in H.
    injection H as <- <- <-. split; reflexivity.
  - intros s w1 e w2 Es Eg.
    name_run (Cli.get_nodes lib vars w) o w' t H.
    unfold Cli.get_nodes in H. open_cmd H. rewrite Es in H. cbn in H. rewrite Eg in H.
    cbn in H. injection H as <- <- <-. split; reflexivity.
  - intros s w1 w2 Es Eg.
    name_run (Cli.get_nodes lib vars w) o w' t H.
    unfold Cli.get_nodes in H. open_cmd H. rewrite Es in H. cbn in H. rewrite Eg in H.
    cbn in H. injection H as <- <- <-. split; reflexivity.
  - intros s w1 kvs w2 Es Eg Hne Hnd.
    name_run (Cli.get_nodes lib vars w) o w' t H.
    destruct kvs as [|kv kvs]; [congruence|].
    unfold Cli.get_nodes in H. open_cmd H. rewrite Es in H. cbn in H. rewrite Eg in H.
    cbn in H.
    match type of H with
    | context [Cli.for_each ?ks ?b ?w0] =>
        destruct (Cli.for_each ks b w0) as [[c w3] t3] eqn:E
    end.
    change (fst kv :: map fst kvs) with (map fst (kv :: kvs)) in E.
    destruct (@for_each_nodes _ _ _ _ _ _ _ (@nodes_of_keys _ Hnd) E) as (Hp & Ha & He & Hc).
    rewrite !length_map in Hc. unfold Cli.prints in *.
    destruct Hc as [(-> & Hav & Hl)|(e & t0 & n & -> & Ht & Hl)].
    + injection H as <- <- <-. cbn. rewrite !app_nil_r. rewrite Hp, He.
      split; [reflexivity|]. split; [exact Ha|]. split; [reflexivity|].
      left. split; [reflexivity|]. split; [exact Hav | exact Hl].
    + injection H as <- <- <-. cbn. rewrite Hp, He.
      split; [reflexivity|]. split; [exact Ha|]. split; [reflexivity|].
      right.
      exists e, (Cli.Call Cli.r_Session (Cli.Gives (RObj s))
                 :: Cli.Call (Cli.r_get_nodes s) (Cli.Gives (RVal (PDict (kv :: kvs)))) :: t0), n.
      rewrite Ht. split; [reflexivity|]. split; [reflexivity|]. rewrite <- Ht. exact Hl.
Qed.

End GetNodes.

(** ** [get_mqtt_host] *)

Section MqttHost.
Variable W : Type.
Variable lib : Cli.library W.
Variables (vars : pyval) (w : W).

Let r := Cli.get_mqtt_host lib vars w.
Let url := Cli.mqtt_host_url lib.
Let cert := Cli.configmanager_CERT_FILE lib.

Ltac start_mqtt H :=
  subst r; destruct (Cli.get_mqtt_host lib vars w) as [[? ?] ?] eqn:H;
  cbn [Cli.result Cli.said Cli.world_left fst snd];
  unfold Cli.get_mqtt_host in H; open_cmd H;
  unfold Cli.str_split in H.

Lemma version_given : Cli.serverconfig_VERSION lib <> "" ->
  String.eqb (Cli.serverconfig_VERSION lib) "" = false.
Proof. intros H. now apply String.eqb_neq. Qed.

(** X10. [get_mqtt_host] takes its URL from the host URL, cut at the
    first occurrence of the API version, and asks for it once, with the
    certificate file; an empty version is a [ValueError] of [split], raised
    before any request. *)
Theorem get_mqtt_host_request :
  (Cli.serverconfig_VERSION lib = "" ->
   Cli.result r = Cli.Raises Cli.ValueError /\
   Cli.said r = [Cli.Log Info [Lit "Getting MQTT Host endpoint."]]) /\
  (Cli.serverconfig_VERSION lib <> "" ->
   exists ans rest,
     Cli.said r =
       Cli.Log Info [Lit "Getting MQTT Host endpoint."]
       :: Cli.Log Debug [Lit ("Get MQTT Host request url : " ++ url)]
       :: Cli.Call (Cli.r_requests_get url cert) ans :: rest /\
     existsb Cli.is_cloud_call rest = false) /\
  (str_contains (Cli.serverconfig_VERSION lib) (Cli.serverconfig_HOST lib) = false ->
   url = (Cli.serverconfig_HOST lib ++ "mqtt_host")%string) /\
  (str_contains (Cli.serverconfig_VERSION lib) (Cli.serverconfig_HOST lib) = true ->
   exists base rest,
     Cli.serverconfig_HOST lib = (base ++ Cli.serverconfig_VERSION lib ++ rest)%string /\
     url = (base ++ "mqtt_host")%string).
Proof.
  split; [|split; [|split]].
  - intros Hv. start_mqtt H. rewrite Hv in H. cbn in H. injection H as <- <- <-.
    split; reflexivity.
  - intros Hv. start_mqtt H. rewrite (version_given Hv) in H. cbn in H.
    rewrite split_first in H. fold (Cli.mqtt_host_url lib) in H. fold url in H. fold cert in H.
    unfold Cli.fetch, Cli.ask_requests, Cli.on_requests_error in H. open_cmd H.
    split_cmd H.
    all: eexists _, _; split; [reflexivity|reflexivity].
  - intros Hc. subst url. unfold Cli.mqtt_host_url.
    now rewrite (proj2 (before_first_spec _ _) Hc).
  - intros Hc. subst url. unfold Cli.mqtt_host_url.
    destruct (proj1 (proj1 (before_first_spec _ _) Hc)) as [rest Hrest].
    eexists _, rest. split; [exact Hrest | reflexivity].
Qed.

Ltac to_request H Hv :=
  start_mqtt H; rewrite (version_given Hv) in H; cbn in H;
  rewrite split_first in H; fold (Cli.mqtt_host_url lib) in H;
  unfold Cli.fetch, Cli.ask_requests, Cli.on_requests_error in H; open_cmd H.

(** X11. A request that fails, or an answer with an error status, ends
    [get_mqtt_host] before it decodes anything: a TLS failure of
    [requests] raises [SSLError], another connection failure raises
    [NetworkError], and any other exception is logged and [None] returned. *)
Theorem get_mqtt_host_failure :
  Cli.serverconfig_VERSION lib <> "" ->
  (forall e w1,
      Cli.requests_get lib url cert w = (inl e, w1) ->
      Cli.result r = Cli.request_failure e /\
      existsb Cli.is_json_loads (Cli.said r) = false /\
      (forall x, e = Cli.requests_other x -> In (Cli.Log Error [ExnOf x]) (Cli.said r))) /\
  (forall resp w1 e,
      Cli.requests_get lib url cert w = (inr resp, w1) ->
      Cli.raise_for_status resp = Some e ->
      Cli.result r = Cli.request_failure e /\
      existsb Cli.is_json_loads (Cli.said r) = false /\
      (forall x, e = Cli.requests_other x -> In (Cli.Log Error [ExnOf x]) (Cli.said r))).
Proof.
  intros Hv. unfold url, cert in *. split.
  - intros e w1 E. to_request H Hv. rewrite E in H. cbn in H.
    destruct e; cbn in H; injection H as <- <- <-.
    all: split; [reflexivity|]; split; [reflexivity|]; intros x Hx; try discriminate.
    injection Hx as ->. cbn. repeat first [left; reflexivity | right].
  - intros resp w1 e E Es. to_request H Hv. rewrite E in H. cbn in H. rewrite Es in H.
    destruct e; cbn in H; injection H as <- <- <-.
    all: split; [reflexivity|]; split; [reflexivity|]; intros x Hx; try discriminate.
    injection Hx as ->. cbn. repeat first [left; reflexivity | right].
Qed.

(** X12. Once the request is answered, [get_mqtt_host] returns a value
    only when the answer decodes to a dictionary with the key [mqtt_host]:
    it prints that value and returns it.  Without the key it logs that the
    host does not exist and raises [KeyError] at its [return]; when the
    answer decodes to anything but a dictionary (a list, a string, a number,
    [null]) it prints nothing and raises [TypeError]; and when the answer
    does not decode, it logs the error and then raises. *)
Theorem get_mqtt_host_answer resp w1 :
  Cli.serverconfig_VERSION lib <> "" ->
  Cli.requests_get lib url cert w = (inr resp, w1) ->
  Cli.raise_for_status resp = None ->
  (forall kvs v,
      Cli.json_loads lib (Cli.text resp) = Ok (PDict kvs) ->
      lookup "mqtt_host" kvs = Some v ->
      Cli.result r = Cli.Returns v /\ In (Cli.Print [StrOf v]) (Cli.said r) /\
      existsb Cli.is_error (Cli.said r) = false) /\
  (forall kvs,
      Cli.json_loads lib (Cli.text resp) = Ok (PDict kvs) ->
      lookup "mqtt_host" kvs = None ->
      Cli.result r = Cli.Raises (KeyError "mqtt_host") /\
      In (Cli.Log Error [Lit "MQTT Host does not exists."]) (Cli.said r) /\
      existsb Cli.is_print (Cli.said r) = false) /\
  (forall e,
      Cli.json_loads lib (Cli.text resp) = Raise e ->
      In (Cli.Log Error [ExnOf e]) (Cli.said r) /\
      existsb Cli.is_print (Cli.said r) = false /\
      exists x, Cli.result r = Cli.Raises x) /\
  (forall d,
      Cli.json_loads lib (Cli.text resp) = Ok d ->
      (forall kvs, d <> PDict kvs) ->
      Cli.result r = Cli.Raises TypeError /\
      existsb Cli.is_print (Cli.said r) = false) /\
  (forall v,
      Cli.result r = Cli.Returns v ->
      exists kvs,
        Cli.json_loads lib (Cli.text resp) = Ok (PDict kvs) /\
        lookup "mqtt_host" kvs = Some v).
Proof.
  intros Hv E Es. unfold url, cert in *.
  assert (C1 : forall kvs v,
      Cli.json_loads lib (Cli.text resp) = Ok (PDict kvs) ->
      lookup "mqtt_host" kvs = Some v ->
      Cli.result r = Cli.Returns v /\ In (Cli.Print [StrOf v]) (Cli.said r) /\
      existsb Cli.is_error (Cli.said r) = false).
  { intros kvs v Ej Hk. to_request H Hv. rewrite E in H. cbn in H. rewrite Es in H.
    cbn in H. rewrite Ej in H. cbn in H. rewrite lookup_in_keys, Hk in H. cbn in H.
    rewrite ?Hk in H. cbn in H.
    injection H as <- <- <-. split; [reflexivity|]. split; [|reflexivity].
    cbn. repeat first [left; reflexivity | right]. }
  assert (C2 : forall kvs,
      Cli.json_loads lib (Cli.text resp) = Ok (PDict kvs) ->
      lookup "mqtt_host" kvs = None ->
      Cli.result r = Cli.Raises (KeyError "mqtt_host") /\
      In (Cli.Log Error [Lit "MQTT Host does not exists."]) (Cli.said r) /\
      existsb Cli.is_print (Cli.said r) = false).
  { intros kvs Ej Hk. to_request H Hv. rewrite E in H. cbn in H. rewrite Es in H.
    cbn in H. rewrite Ej in H. cbn in H. rewrite lookup_in_keys, Hk in H. cbn in H.
    rewrite ?Hk in H. cbn in H.
    injection H as <- <- <-. split; [reflexivity|]. split; [|reflexivity].
    cbn. repeat first [left; reflexivity | right]. }
  assert (C3 : forall e,
      Cli.json_loads lib (Cli.text resp) = Raise e ->
      In (Cli.Log Error [ExnOf e]) (Cli.said r) /\
      existsb Cli.is_print (Cli.said r) = false /\
      exists x, Cli.result r = Cli.Raises x).
  { intros e Ej. to_request H Hv. rewrite E in H. cbn in H. rewrite Es in H.
    cbn in H. rewrite Ej in H. cbn in H.
    destruct (Cli.Response_contains resp "mqtt_host") as [[|]|x] eqn:Ec; cbn in H;
      injection H as <- <- <-.
    all: split; [cbn; repeat first [left; reflexivity | right]|].
    all: split; [reflexivity|]; eexists; reflexivity. }
  assert (C4 : forall d,
      Cli.json_loads lib (Cli.text resp) = Ok d ->
      (forall kvs, d <> PDict kvs) ->
      Cli.result r = Cli.Raises TypeError /\
      existsb Cli.is_print (Cli.said r) = false).
  { intros d Ej Hd. to_request H Hv. rewrite E in H. cbn in H. rewrite Es in H.
    cbn in H. rewrite Ej in H. cbn in H.
    destruct d as [|b|z|s|xs|kvs|ob]; try (now destruct (Hd kvs)); cbn in H.
    all: try (injection H as <- <- <-; split; reflexivity).
    - destruct (str_contains "mqtt_host" s); cbn in H; injection H as <- <- <-;
        split; reflexivity.
    - destruct (existsb (is_str "mqtt_host") xs); cbn in H; injection H as <- <- <-;
        split; reflexivity. }
  split; [exact C1|]. split; [exact C2|]. split; [exact C3|]. split; [exact C4|].
  intros v Hr.
  destruct (Cli.json_loads lib (Cli.text resp)) as [d|e] eqn:Ej.
  - destruct d as [|b|z|s|xs|kvs|ob].
    6: { destruct (lookup "mqtt_host" kvs) as [v'|] eqn:Hk.
         - destruct (C1 _ _ eq_refl Hk) as (Hres & _). rewrite Hres in Hr.
           injection Hr as <-. eauto.
         - destruct (C2 _ eq_refl Hk) as (Hres & _). rewrite Hres in Hr. discriminate. }
    all: match goal with
         | |- exists _, Ok ?d = _ /\ _ =>
             destruct (C4 d eq_refl) as (Hres & _); [discriminate|];
             rewrite Hres in Hr; discriminate
         end.
  - destruct (C3 _ eq_refl) as (_ & _ & x & Hres). rewrite Hres in Hr. discriminate.
Qed.

End MqttHost.

(** ** [claim_node] *)

Section ClaimNode.
Variable W : Type.
Variable lib : Cli.library W.

Lemma bind_when (cond : res bool) (block : Cli.Cmd W unit) (k : unit -> Cli.Cmd W unit) w :
  Cli.bind (Cli.when cond block) k w =
  match cond with
  | Ok true => Cli.bind block k w
  | Ok false => k tt w
  | Raise e => (Cli.Throw e, w, [])
  end.
Proof.
  unfold Cli.when, Cli.bind, Cli.eval, Cli.ret, Cli.raise.
  destruct cond as [[|]|e]; cbn; auto.
  - destruct (block w) as [[c w2] t2]. reflexivity.
  - destruct (k tt w) as [[c w2] t2]. reflexivity.
Qed.

Lemma when_alone (cond : res bool) (block : Cli.Cmd W unit) w :
  Cli.when cond block w =
  match cond with
  | Ok true => block w
  | Ok false => (Cli.Next tt, w, [])
  | Raise e => (Cli.Throw e, w, [])
  end.
Proof.
  unfold Cli.when, Cli.bind, Cli.eval, Cli.ret, Cli.raise.
  destruct cond as [[|]|e]; cbn; auto.
  destruct (block w) as [[c w2] t2]. reflexivity.
Qed.

Lemma claim_node_ends vars w :
  Cli.claim_node lib vars w =
  match Cli.claim_checks lib vars w with
  | (Cli.Next _, w1, t) => (Cli.Returns PNone, w1, t)
  | (Cli.Return v, w1, t) => (Cli.Returns v, w1, t)
  | (Cli.Throw e, w1, t) => (Cli.Returns PNone, w1, t ++ [Cli.Log Error [ExnOf e]])
  | (Cli.SysExit x, w1, t) => (Cli.Exits x, w1, t)
  end.
Proof.
  unfold Cli.claim_node, Cli.def, Cli.bind, Cli.try_except_else.
  destruct (Cli.claim_checks lib vars w) as [[[u|v|e|x] w1] t]; cbn; rewrite ?app_nil_r; auto.
Qed.

Lemma bind_assoc {A B C} (m : Cli.Cmd W A) (f : A -> Cli.Cmd W B) (k : B -> Cli.Cmd W C) w :
  Cli.bind (Cli.bind m f) k w = Cli.bind m (fun a => Cli.bind (f a) k) w.
Proof.
  unfold Cli.bind. destruct (m w) as [[[a|v|e|x] w1] t1]; auto.
  destruct (f a w1) as [[[b|v|e|x] w2] t2]; auto.
  destruct (k b w2) as [[c w3] t3]. now rewrite app_assoc.
Qed.

Lemma bind_eval {A B} (r : res A) (f : A -> Cli.Cmd W B) w :
  Cli.bind (Cli.eval r) f w =
  match r with
  | Ok a => f a w
  | Raise e => (Cli.Throw e, w, [])
  end.
Proof.
  unfold Cli.bind, Cli.eval, Cli.ret, Cli.raise. destruct r as [a|e]; auto.
  destruct (f a w) as [[c w2] t2]. reflexivity.
Qed.

Lemma bind_sys_exit {A B} x (k : A -> Cli.Cmd W B) w :
  Cli.bind (Cli.sys_exit x) k w = (Cli.SysExit x, w, []).
Proof. reflexivity. Qed.

Lemma bind_ask {A B} c (inj : A -> retval) f (k : A -> Cli.Cmd W B) w :
  Cli.bind (Cli.ask c inj f) k w =
  match f w with
  | (Ok a, w1) =>
      match k a w1 with
      | (c', w2, t2) => (c', w2, Cli.Call c (Cli.Gives (inj a)) :: t2)
      end
  | (Raise e, w1) => (Cli.Throw e, w1, [Cli.Call c (Cli.Fails e)])
  end.
Proof.
  unfold Cli.bind, Cli.ask. destruct (f w) as [[a|e] w1]; auto.
Qed.

Lemma bind_ask_claim {B} c f (k : unit -> Cli.Cmd W B) w :
  Cli.bind (Cli.ask_claim c f) k w =
  match f w with
  | (Cli.Gives _, w1) =>
      match k tt w1 with
      | (c', w2, t2) => (c', w2, Cli.Call c (Cli.Gives (RVal PNone)) :: t2)
      end
  | (Cli.Fails e, w1) => (Cli.Throw e, w1, [Cli.Call c (Cli.Fails e)])
  | (Cli.Quits x, w1) => (Cli.SysExit x, w1, [Cli.Call c (Cli.Quits x)])
  end.
Proof.
  unfold Cli.bind, Cli.ask_claim. destruct (f w) as [[a|e|x] w1]; auto.
Qed.

Lemma ask_claim_alone c f (w : W) :
  Cli.ask_claim c f w =
  match f w with
  | (Cli.Gives _, w1) => (Cli.Next tt, w1, [Cli.Call c (Cli.Gives (RVal PNone))])
  | (Cli.Fails e, w1) => (Cli.Throw e, w1, [Cli.Call c (Cli.Fails e)])
  | (Cli.Quits x, w1) => (Cli.SysExit x, w1, [Cli.Call c (Cli.Quits x)])
  end.
Proof. unfold Cli.ask_claim. destruct (f w) as [[a|e|x] w1]; auto. Qed.

Lemma bind_return {A B} v (k : A -> Cli.Cmd W B) w :
  Cli.bind (Cli.return_ v) k w = (Cli.Return v, w, []).
Proof. reflexivity. Qed.

(** The condition of the next [if] of a command is decided, from the
    innermost expression it depends on. *)
Ltac innermost x :=
  lazymatch x with
  | match ?y with _ => _ end => innermost y
  | negb ?y => innermost y
  | _ => x
  end.

Ltac decide_head H :=
  lazymatch type of H with
  | match ?x with _ => _ end = _ =>
      let y := innermost x in
      revert H; destruct y eqn:?; intros H; cbn [negb] in H
  end.

Ltac claim_steps H :=
  repeat first
    [ rewrite bind_assoc in H
    | rewrite bind_when in H
    | rewrite when_alone in H
    | rewrite bind_eval in H
    | rewrite bind_sys_exit in H
    | rewrite bind_ask in H
    | rewrite bind_ask_claim in H
    | rewrite ask_claim_alone in H
    | rewrite bind_return in H
    | decide_head H
    | progress cbv beta in H ].

Variables (vars : pyval) (w : W).

(** Rewrites the conditions of a goal with what the analysis decided. *)
Ltac known :=
  unfold Cli.given;
  repeat match goal with
  | H : subscript vars ?k = _ |- context [subscript vars ?k] => rewrite H
  end;
  cbv beta iota;
  repeat match goal with
  | H : truthy ?a = _ |- context [truthy ?a] => rewrite H
  end;
  first [reflexivity | eassumption].

Ltac conds := repeat split; known.

Ltac close_refused :=
  left; eexists; split; [reflexivity|]; split; [reflexivity|];
  unfold Cli.refused;
  first
    [ left; split; [reflexivity|]; solve [conds]
    | right; left; split; [reflexivity|]; solve [conds]
    | right; right; left; split; [reflexivity|]; solve [conds]
    | right; right; right; left; split; [reflexivity|]; solve [conds]
    | right; right; right; right; left; split; [reflexivity|];
      eexists; split; [known|]; split; assumption
    | right; right; right; right; right; split; [reflexivity|]; split; [known|];
      eexists; split; [known|]; assumption ].

Ltac close_usage :=
  right; left; split; [unfold Cli.nothing_given; conds|];
  eexists; split; [first [reflexivity | eassumption]|];
  first [ left; eexists; split; reflexivity | right; eexists; split; reflexivity ].

Ltac close_ill_formed :=
  right; right; left; eexists; split; [reflexivity|]; split; [reflexivity|];
  unfold Cli.ill_formed;
  first
    [ left; eexists; split; [eassumption|];
      cbn; solve [repeat first [left; reflexivity | right]]
    | right; left; split; [unfold Cli.nothing_given; conds | eassumption]
    | right; right; left; eexists; split; [eassumption|]; split; assumption
    | right; right; right; eexists; split; [eassumption|]; split; assumption ].

Ltac close_claimed :=
  right; right; right; eexists _, _, _, _, _, _;
  split; [reflexivity|];
  repeat (split; [first [reflexivity | eassumption]|]);
  split; [|cbn; auto];
  unfold Cli.claimable;
  first
    [ left; repeat split; assumption
    | right; repeat split;
      first [ assumption | left; assumption | right; split; assumption ] ].

Ltac close_claim :=
  lazymatch goal with
  | |- (exists x, Cli.SysExit (PStr _) = _ /\ [] = [] /\ _) \/ _ => close_refused
  | |- (exists x, Cli.Throw _ = _ /\ [] = [] /\ _) \/ _ => close_ill_formed
  | |- (exists x, _ = _ /\ [Cli.Call (Cli.r_print_help _) _] = [] /\ _) \/ _ => close_usage
  | |- (exists x, _ = _ /\ [Cli.Call (Cli.r_claim _ _ _ _ _) _] = [] /\ _) \/ _ =>
      close_claimed
  end.

Lemma claim_checks_cases c w' t :
  Cli.claim_checks lib vars w = (c, w', t) ->
  (exists x, c = Cli.SysExit (PStr x) /\ t = [] /\ Cli.refused vars x) \/
  (Cli.nothing_given vars /\
   exists parser,
     subscript vars "parser" = Ok parser /\
     ((exists shown, c = Cli.SysExit shown /\
                     t = [Cli.Call (Cli.r_print_help parser) (Cli.Gives (RVal shown))]) \/
      (exists e, c = Cli.Throw e /\
                 t = [Cli.Call (Cli.r_print_help parser) (Cli.Fails e)]))) \/
  (exists e, c = Cli.Throw e /\ t = [] /\ Cli.ill_formed vars e) \/
  (exists port platform mac secret_key addr ans,
      t = [Cli.Call (Cli.r_claim port platform mac secret_key addr) ans] /\
      subscript vars "port" = Ok port /\ subscript vars "platform" = Ok platform /\
      subscript vars "mac" = Ok mac /\ subscript vars "secret_key" = Ok secret_key /\
      subscript vars "addr" = Ok addr /\
      Cli.claimable port platform mac secret_key /\
      Cli.after_claim ans c).
Proof.
  intros H. unfold Cli.claim_checks, Cli.call_claim in H.
  cbv [Cli.given Cli.and_ Cli.not_] in H.
  claim_steps H.
  all: injection H as <- <- <-.
  all: close_claim.
Qed.

Let r := Cli.claim_node lib vars w.

Lemma optional_str_given v :
  Cli.optional_str v = true -> truthy v = true -> exists s, v = PStr s.
Proof. destruct v; try discriminate; eauto. Qed.

(** What [claim] is called on is neither refused nor ill-formed. *)
Lemma claimable_accepted port platform mac secret_key addr :
  subscript vars "port" = Ok port -> subscript vars "platform" = Ok platform ->
  subscript vars "mac" = Ok mac -> subscript vars "secret_key" = Ok secret_key ->
  subscript vars "addr" = Ok addr ->
  Cli.claimable port platform mac secret_key ->
  (forall x, ~ Cli.refused vars x) /\ ~ Cli.nothing_given vars /\
  (forall e, ~ Cli.ill_formed vars e).
Proof.
  unfold Cli.claimable, Cli.refused, Cli.ill_formed, Cli.nothing_given, Cli.given.
  intros Hp Hpl Hm Hs Ha Hc. rewrite ?Hp, ?Hpl, ?Hm, ?Hs, ?Ha. cbv beta iota.
  repeat split.
  - intros x Hr.
    destruct Hc as [(H1 & H2 & H3 & H4)|(H1 & H2 & H3 & H4)];
      [rewrite ?H1, ?H2, ?H3, ?H4 in Hr | rewrite ?H1, ?H2 in Hr].
    + destruct Hr as [Hr|[Hr|[Hr|[Hr|[Hr|Hr]]]]];
        try (destruct Hr as (_ & Hr); intuition discriminate).
      * destruct Hr as (_ & m & Hm' & Ht & _). congruence.
    + destruct Hr as [Hr|[Hr|[Hr|[Hr|[Hr|Hr]]]]];
        try (destruct Hr as (_ & Hr); intuition discriminate).
      * destruct Hr as (_ & m & Hm' & Ht & Hx). congruence.
      * destruct Hr as (_ & Hsk & p & Hp' & Hx).
        assert (p = platform) by congruence. subst p.
        destruct H4 as [H4|[H4 H5]]; [congruence|]. rewrite H5 in Hsk. discriminate.
  - intros (G1 & G2 & _).
    destruct Hc as [(H1 & _)|(H1 & _)]; rewrite H1 in *; discriminate.
  - intros e [(key & Hk & Hin)|[(Hn & _)|[(m & Hm' & Ht & Hx)|(p & Hp' & Ht & Hx)]]].
    + cbn in Hin. destruct Hin as [<-|[<-|[<-|[<-|[<-|[]]]]]]; congruence.
    + destruct Hn as (G1 & G2 & _).
      destruct Hc as [(H1 & _)|(H1 & _)]; rewrite H1 in *; discriminate.
    + assert (m = mac) by congruence. subst m.
      destruct Hc as [(_ & H2 & _)|(_ & _ & H3 & _)]; congruence.
    + assert (p = platform) by congruence. subst p.
      destruct Hc as [(_ & _ & H3 & _)|(_ & _ & _ & [H4|[H4 _]])]; congruence.
Qed.

Ltac claim_node_cases :=
  subst r; rewrite claim_node_ends;
  let c := fresh "c" in let w1 := fresh "w1" in let t := fresh "t" in
  let E := fresh "E" in
  destruct (Cli.claim_checks lib vars w) as [[c w1] t] eqn:E;
  destruct (claim_checks_cases E) as
    [(m & -> & -> & Hr)
    |[(Hn & parser & Hp & [(shown & -> & ->)|(e & -> & ->)])
     |[(e & -> & -> & Hi)
      |(p & pl & ma & sk & ad & an & -> & Hport & Hplatform & Hmac & Hsecret & Haddr
        & Hc & Han)]]];
  cbn [Cli.result Cli.said fst snd app].

(** X13. [claim] is called only on arguments that passed the checks: a
    port alone, or a MAC address that matches the pattern together with a
    platform, and no secret key when the platform is [esp32].  It is called
    with the five arguments as [vars] has them, it is the only call of
    [claim_node], and an exception of [claim] is logged. *)
Theorem claim_is_validated port platform mac secret_key addr ans :
  In (Cli.Call (Cli.r_claim port platform mac secret_key addr) ans) (Cli.said r) ->
  subscript vars "port" = Ok port /\ subscript vars "platform" = Ok platform /\
  subscript vars "mac" = Ok mac /\ subscript vars "secret_key" = Ok secret_key /\
  subscript vars "addr" = Ok addr /\
  Cli.claimable port platform mac secret_key /\
  Cli.said r = Cli.Call (Cli.r_claim port platform mac secret_key addr) ans
               :: Cli.claim_report ans /\
  Cli.result r = Cli.claim_result ans.
Proof.
  claim_node_cases.
  - cbn. tauto.
  - cbn. intros [H|[]]. discriminate.
  - cbn. intros [H|[H|[]]]; discriminate.
  - cbn. intros [H|[]]. discriminate.
  - intros Hin.
    assert (Heq : Cli.Call (Cli.r_claim p pl ma sk ad) an
                  = Cli.Call (Cli.r_claim port platform mac secret_key addr) ans).
    { destruct c as [u|v|e|x]; destruct an as [a|e'|x']; cbn in Han, Hin;
        repeat match goal with
        | H : _ \/ _ |- _ => destruct H as [H|H]
        | H : False |- _ => destruct H
        end; try discriminate; auto. }
    injection Heq as -> -> -> -> -> ->.
    repeat (split; [assumption|]).
    destruct c as [u|v|e|x]; destruct ans as [a|e'|x']; cbn in Han |- *;
      repeat match goal with
      | H : _ \/ _ |- _ => destruct H as [H|H]
      end; try discriminate; try (injection Han as <-); auto.
    all: try (destruct u; auto).
Qed.

(** X14. When [claim_node] leaves through [sys.exit], either [claim] did,
    or nothing was given and the help was printed, or the arguments are
    refused, with a message that tells the check that failed; in the last
    case nothing was called. *)
Theorem claim_node_exits x :
  Cli.result r = Cli.Exits x ->
  (exists m, x = PStr m /\ Cli.refused vars m /\ Cli.said r = []) \/
  (Cli.nothing_given vars /\
   exists parser,
     subscript vars "parser" = Ok parser /\
     Cli.said r = [Cli.Call (Cli.r_print_help parser) (Cli.Gives (RVal x))]) \/
  (exists port platform mac secret_key addr,
     Cli.said r = [Cli.Call (Cli.r_claim port platform mac secret_key addr) (Cli.Quits x)]).
Proof.
  claim_node_cases.
  - intros H. injection H as <-. left. eauto.
  - intros H. injection H as <-. right; left. eauto.
  - discriminate.
  - discriminate.
  - destruct c as [u|v|e|y]; destruct an as [a|e'|x']; cbn in Han |- *;
      try discriminate; try (destruct Han; discriminate).
    injection Han as ->. intros H. injection H as <-.
    right; right. eexists _, _, _, _, _. reflexivity.
Qed.

(** X15. Arguments that pass the checks reach [claim]: with a port alone,
    or with a MAC address that matches the pattern and a platform (and no
    secret key for [esp32]), [claim_node] calls [claim] on the five
    arguments and ends as [claim] does. *)
Theorem claim_node_accepts port platform mac secret_key addr :
  subscript vars "port" = Ok port -> subscript vars "platform" = Ok platform ->
  subscript vars "mac" = Ok mac -> subscript vars "secret_key" = Ok secret_key ->
  subscript vars "addr" = Ok addr ->
  Cli.claimable port platform mac secret_key ->
  exists ans,
    Cli.said r = Cli.Call (Cli.r_claim port platform mac secret_key addr) ans
                 :: Cli.claim_report ans /\
    Cli.result r = Cli.claim_result ans.
Proof.
  intros Gp Gpl Gm Gs Ga Hcl.
  destruct (claimable_accepted Gp Gpl Gm Gs Ga Hcl) as (Hnr & Hnn & Hni).
  claim_node_cases.
  - destruct (Hnr _ Hr).
  - destruct (Hnn Hn).
  - destruct (Hnn Hn).
  - destruct (Hni _ Hi).
  - assert (p = port) by congruence. assert (pl = platform) by congruence.
    assert (ma = mac) by congruence. assert (sk = secret_key) by congruence.
    assert (ad = addr) by congruence. subst.
    exists an.
    destruct c as [u|v|e|y]; destruct an as [a|e'|x']; cbn in Han |- *;
      repeat match goal with
      | H : _ \/ _ |- _ => destruct H as [H|H]
      end; try discriminate; try (injection Han as <-); auto.
    all: try (destruct u; auto).
Qed.

(** X16. No exception leaves [claim_node]: it returns [None] or leaves
    through [sys.exit].  With the five arguments present and each a string
    or [None], and a parser, its checks do not raise: an error that it logs
    is the exception of a call. *)
Theorem claim_node_never_raises :
  (forall e, Cli.result r <> Cli.Raises e) /\
  (forall v, Cli.result r = Cli.Returns v -> v = PNone) /\
  ((forall key, In key ["port"; "mac"; "platform"; "secret_key"; "addr"] ->
      exists v, subscript vars key = Ok v /\ Cli.optional_str v = true) ->
   (exists parser, subscript vars "parser" = Ok parser) ->
   forall m, In (Cli.Log Error m) (Cli.said r) ->
   exists c e, m = [ExnOf e] /\ In (Cli.Call c (Cli.Fails e)) (Cli.said r)).
Proof.
  claim_node_cases.
  - split; [discriminate|]. split; [discriminate|]. cbn. tauto.
  - split; [discriminate|]. split; [discriminate|]. cbn. intros _ _ m0 [H|[]]. discriminate.
  - split; [discriminate|]. split; [intros v H; now injection H as <-|].
    cbn. intros _ _ m0 [H|[H|[]]]; [discriminate|].
    injection H as <-. eexists _, _. split; [reflexivity|]. left. reflexivity.
  - split; [discriminate|]. split; [intros v H; now injection H as <-|].
    intros Hk [parser Hp] m0 _. exfalso.
    destruct Hi as [(key & Hr & Hin)|[(_ & Hr)|[(ma & Hm & Ht & Hx)|(pl & Hm & Ht & Hx)]]].
    + destruct (Hk _ Hin) as (v & Hv & _). congruence.
    + congruence.
    + destruct (Hk "mac") as (v & Hv & Ho); [cbn; tauto|].
      assert (v = ma) by congruence. subst v.
      destruct (optional_str_given _ Ho Ht) as [s ->]. discriminate.
    + destruct (Hk "platform") as (v & Hv & Ho); [cbn; tauto|].
      assert (v = pl) by congruence. subst v.
      destruct (optional_str_given _ Ho Ht) as [s ->]. discriminate.
  - destruct c as [u|v|e|y]; destruct an as [a|e'|x']; cbn in Han |- *;
      repeat match goal with
      | H : _ \/ _ |- _ => destruct H as [H|H]
      end; try discriminate; try (injection Han as <-).
    all: split; [discriminate|]; split; [try discriminate; intros v0 H; now injection H as <-|].
    all: cbn; intros _ _ m0 Hin;
      repeat match goal with
      | H : _ \/ _ |- _ => destruct H as [H|H]
      | H : False |- _ => destruct H
      end; try discriminate.
    injection Hin as <-. eexists _, _. split; [reflexivity|]. left. reflexivity.
Qed.

End ClaimNode.

(** ** The pattern of [set_params] *)

Lemma match_seq_blank p prev s n :
  forallb blank p = true -> match_seq p prev s = Some n ->
  all_chars is_space (first_chars n s) = true /\ n <= String.length s.
Proof.
  revert prev s n. induction p as [|a p IH]; intros prev s n Hp H.
  - cbn in H. injection H as <-. cbn. split; [reflexivity | lia].
  - cbn in Hp. apply andb_true_iff in Hp as [Ha Hp].
    destruct a as [c| |neg cls|neg cls]; cbn in H.
    + destruct s as [|x s]; [discriminate|].
      destruct (Ascii.eqb x c) eqn:E; [|discriminate].
      apply Ascii.eqb_eq in E. subst x.
      destruct (match_seq p (Some c) s) as [m|] eqn:Em; [|discriminate].
      injection H as <-. destruct (IH _ _ _ Hp Em) as [H1 H2].
      cbn in *. rewrite Ha, H1. split; [reflexivity | lia].
    + destruct s as [|x s]; [discriminate|].
      destruct (is_space x) eqn:E; [|discriminate].
      destruct (match_seq p (Some x) s) as [m|] eqn:Em; [|discriminate].
      injection H as <-. destruct (IH _ _ _ Hp Em) as [H1 H2].
      cbn. rewrite E, H1. split; [reflexivity | lia].
    + destruct (holds neg cls prev); [eauto | discriminate].
    + destruct (holds neg cls (next_char s)); [eauto | discriminate].
Qed.

Lemma match_alts_blank alts prev s n :
  forallb (forallb blank) alts = true -> match_alts alts prev s = Some n ->
  all_chars is_space (first_chars n s) = true /\ n <= String.length s.
Proof.
  induction alts as [|p alts IH]; cbn; [discriminate|].
  intros Hp H. apply andb_true_iff in Hp as [Hp Ha].
  destruct (match_seq p prev s) as [m|] eqn:Em.
  - injection H as <-. eapply match_seq_blank; eauto.
  - eauto.
Qed.

Lemma re_delete_blank alts skip prev s :
  forallb (forallb blank) alts = true ->
  all_chars is_space (first_chars skip s) = true ->
  keep not_space (re_delete_from alts skip prev s) = keep not_space s.
Proof.
  intros Halts. revert skip prev.
  induction s as [|c s IH]; intros skip prev Hskip; [reflexivity|].
  cbn [re_delete_from]. destruct skip as [|k].
  - destruct (match_alts alts prev (String c s)) as [[|k]|] eqn:Em.
    + cbn. destruct (not_space c); rewrite IH; auto.
    + destruct (match_alts_blank _ _ _ Halts Em) as [H1 _].
      cbn in H1. apply andb_true_iff in H1 as [Hc Hk].
      cbn. unfold not_space at 2. rewrite Hc. cbn. now apply IH.
    + cbn. destruct (not_space c); rewrite IH; auto.
  - cbn in Hskip. apply andb_true_iff in Hskip as [Hc Hk].
    cbn. unfold not_space at 2. rewrite Hc. cbn. now apply IH.
Qed.

Lemma space_not_letter c : is_space c = true -> is_letter c = false.
Proof.
  unfold is_space, is_letter, between. destruct (code c) as [|n] eqn:E; intros H.
  - reflexivity.
  - apply orb_true_iff in H as [H|H]; [apply orb_true_iff in H as [H|H];
      [apply orb_true_iff in H as [H|H]|]|].
    all: repeat match goal with
         | H : _ && _ = true |- _ => apply andb_true_iff in H as [? ?]
         | H : Nat.leb _ _ = true |- _ => apply Nat.leb_le in H
         | H : Nat.eqb _ _ = true |- _ => apply Nat.eqb_eq in H
         end.
    all: apply orb_false_iff; split; apply andb_false_iff.
    all: first [left; apply Nat.leb_gt; lia | right; apply Nat.leb_gt; lia].
Qed.

Lemma not_space_not_newline c :
  is_space c = false -> Ascii.eqb c "010"%char = false.
Proof.
  intros H. destruct (Ascii.eqb c "010"%char) eqn:E; auto.
  apply Ascii.eqb_eq in E. subst c. discriminate.
Qed.

(** X17. The pattern that [set_params] deletes from its JSON data matches
    whitespace only: what is not whitespace is left as it was, in its
    order. *)
Theorem trim_data_only_whitespace data :
  keep not_space (trim_data data) = keep not_space data.
Proof.
  unfold trim_data, re_delete. apply re_delete_blank; reflexivity.
Qed.

Lemma trim_from_without_letters prev s :
  holds true is_letter prev = true -> all_chars not_letter s = true ->
  re_delete_from trim_pattern 0 prev s = keep not_space s.
Proof.
  revert prev. induction s as [|c s IH]; intros prev Hprev Hs; [reflexivity|].
  cbn in Hs. apply andb_true_iff in Hs as [Hc Hs].
  assert (Hnext : holds true is_letter (next_char s) = true).
  { destruct s as [|x s]; cbn; auto. cbn in Hs. apply andb_true_iff in Hs as [Hx _].
    exact Hx. }
  assert (Hc' : holds true is_letter (Some c) = true) by exact Hc.
  cbn [re_delete_from].
  destruct (is_space c) eqn:Ec.
  - assert (Em : match_alts trim_pattern prev (String c s) = Some 1).
    { cbn -[holds is_space is_letter]. rewrite Hprev, Ec.
      cbn -[holds is_space is_letter]. now rewrite Hnext. }
    rewrite Em. cbn [keep]. unfold not_space at 1. rewrite Ec. cbn. now apply IH.
  - assert (Em : match_alts trim_pattern prev (String c s) = None).
    { cbn -[holds is_space is_letter]. rewrite Hprev, Ec.
      now rewrite (not_space_not_newline _ Ec). }
    rewrite Em. cbn [keep]. unfold not_space at 1. rewrite Ec. cbn. f_equal. now apply IH.
Qed.

(** X18. In data without a letter, [set_params] deletes every whitespace
    character, those inside a JSON string as well. *)
Theorem trim_data_without_letters data :
  all_chars not_letter data = true -> trim_data data = keep not_space data.
Proof. intros H. now apply trim_from_without_letters. Qed.

Lemma trim_from_by_letters prev s :
  str_contains newline s = false -> spaces_by_letters prev s = true ->
  re_delete_from trim_pattern 0 prev s = s.
Proof.
  revert prev. induction s as [|c s IH]; intros prev Hnl Hs; [reflexivity|].
  cbn [spaces_by_letters] in Hs. apply andb_true_iff in Hs as [Hc Hs].
  cbn [str_contains] in Hnl. apply orb_false_iff in Hnl as [Hc0 Hnl].
  assert (Hcn : Ascii.eqb c "010"%char = false).
  { change (startswith newline (String c s)) with (Ascii.eqb "010"%char c && true) in Hc0.
    rewrite andb_true_r in Hc0. rewrite Ascii.eqb_sym. exact Hc0. }
  cbn [re_delete_from].
  assert (Em : match_alts trim_pattern prev (String c s) = None).
  { cbn -[holds is_space is_letter]. rewrite Hcn.
    destruct (holds true is_letter prev) eqn:Hp; auto.
    destruct (is_space c) eqn:Ec; auto. cbn -[holds is_space is_letter].
    destruct (holds true is_letter (next_char s)) eqn:Hn; auto.
    exfalso. unfold holds in Hp, Hn, Hc. rewrite ?Ec in Hc.
    destruct (match prev with Some x => is_letter x | None => false end);
      destruct (match next_char s with Some x => is_letter x | None => false end);
      cbn in Hp, Hn, Hc; discriminate. }
  rewrite Em. f_equal. now apply IH.
Qed.

(** X19. In data without a line feed, whitespace that is next to a letter
    is not deleted: data in which every whitespace character has a letter
    before or after it are decoded as they are. *)
Theorem trim_data_by_letters data :
  str_contains newline data = false -> spaces_by_letters None data = true ->
  trim_data data = data.
Proof. intros Hnl H. now apply trim_from_by_letters. Qed.

(** ** The pattern of the MAC address *)

Lemma mac_groups_prefix n s t :
  mac_groups n s = true -> mac_groups n (s ++ t) = true.
Proof.
  revert s. induction n as [|n IH]; intros s H; [reflexivity|].
  destruct s as [|c s]; [discriminate|].
  cbn in H |- *. apply andb_true_iff in H as [Hc H]. rewrite Hc. cbn.
  apply orb_true_iff in H as [H|H].
  - destruct s as [|x s]; [discriminate|].
    destruct x as [[] [] [] [] [] [] [] []]; try discriminate.
    cbn. now rewrite (IH _ H).
  - rewrite (IH _ H). apply orb_true_r.
Qed.

Lemma mac_groups_length n s : mac_groups n s = true -> n <= String.length s.
Proof.
  revert s. induction n as [|n IH]; intros s H; [lia|].
  destruct s as [|c s]; [discriminate|].
  cbn in H. apply andb_true_iff in H as [_ H]. apply orb_true_iff in H as [H|H].
  - destruct s as [|x s]; [discriminate|].
    destruct x as [[] [] [] [] [] [] [] []]; try discriminate.
    apply IH in H. cbn. lia.
  - apply IH in H. cbn. lia.
Qed.

Lemma mac_groups_digits n s :
  all_chars is_hex_upper s = true -> n <= String.length s -> mac_groups n s = true.
Proof.
  revert s. induction n as [|n IH]; intros s Hs Hn; [reflexivity|].
  destruct s as [|c s]; [cbn in Hn; lia|].
  cbn in Hs. apply andb_true_iff in Hs as [Hc Hs].
  cbn. rewrite Hc. cbn. rewrite (IH s Hs); [apply orb_true_r|]. cbn in Hn. lia.
Qed.

(** X20. The check of the MAC address looks at the head of the string
    only: a string that passes it still does with anything appended; it has
    at least twelve characters, the first an upper-case hexadecimal digit;
    and twelve or more such digits pass it. *)
Theorem mac_pattern_is_a_prefix s :
  (mac_matches s = true ->
   (forall t, mac_matches (s ++ t) = true) /\ 12 <= String.length s /\
   exists c rest, s = String c rest /\ is_hex_upper c = true) /\
  (all_chars is_hex_upper s = true -> 12 <= String.length s -> mac_matches s = true).
Proof.
  unfold mac_matches. split.
  - intros H. split; [|split].
    + intros t. now apply mac_groups_prefix.
    + now apply mac_groups_length.
    + destruct s as [|c s]; [discriminate|]. exists c, s. split; [reflexivity|].
      cbn in H. now apply andb_true_iff in H as [Hc _].
  - intros Hs Hn. now apply mac_groups_digits.
Qed.

(** * More on [ota_upgrade] *)

Lemma os_path_join_isabs cwd p :
  os_path_isabs cwd = true -> os_path_isabs (os_path_join cwd p) = true.
Proof.
  unfold os_path_isabs, os_path_join. intros H.
  destruct (startswith "/" p) eqn:Ep; [exact Ep|].
  destruct cwd as [|c cwd]; [discriminate|].
  cbn in H. apply andb_true_iff in H as [Hc _].
  destruct (String.eqb (String c cwd) "" || endswith_char "/" (String c cwd));
    cbn; now rewrite Hc.
Qed.

Lemma Forall_no_read (P : event -> Prop) t :
  (forall e, is_call_of ReadImage e = false -> P e) ->
  no_call_of ReadImage t -> Forall P t.
Proof.
  intros HP. unfold no_call_of. induction t as [|e t IH]; cbn; auto.
  intros H. apply orb_false_iff in H as [He Ht]. constructor; auto.
Qed.

Lemma opens_absolute_other e : is_call_of ReadImage e = false -> opens_absolute e.
Proof. destruct e as [[] ?| | |]; cbn; auto. discriminate. Qed.

Section MoreOnRuns.
Variable W : Type.
Variable env : collab W.



(** X22. When the working directory is an absolute path, every file that
    [ota_upgrade] opens is opened by an absolute path, whether the image
    path was given absolute or relative. *)
Theorem opened_path_is_absolute vars w :
  (forall w0 cwd w1, os_getcwd env w0 = (Ok cwd, w1) -> os_path_isabs cwd = true) ->
  Forall opens_absolute (trace_of env vars w).
Proof.
  intros Hcwd.
  destruct (trace_of_shape env vars w) as [_ Hs].
  destruct Hs as [(e & _ & ->)|(node_id & p & _ &
    [[Hp Hi]|[_ [(e & w1 & _ & ->)|(cwd & w1 & t' & Hc & Hi & ->)]]])].
  - constructor; [|constructor]. destruct e; exact I.
  - destruct (image_read Hi) as (r & rest & -> & Hno & _).
    constructor; [exact Hp|]. apply Forall_no_read; auto. apply opens_absolute_other.
  - constructor; [exact I|]. constructor; [|constructor]. destruct e; exact I.
  - constructor; [exact I|].
    destruct (image_read Hi) as (r & rest & -> & Hno & _).
    constructor.
    + cbn. apply os_path_join_isabs. eapply Hcwd; eauto.
    + apply Forall_no_read; auto. apply opens_absolute_other.
Qed.

Lemma calm_bounds t :
  calm t ->
  (forall s, count (is_call_of s) t = 0) /\ count is_sleep t = 0 /\ Forall sleeps_five t.
Proof.
  unfold calm. induction t as [|e t IH]; cbn.
  - intros _. repeat split; auto.
  - intros H. apply orb_false_iff in H as [He Ht].
    destruct (IH Ht) as (H1 & H2 & H3). apply orb_false_iff in He as [Hc Hs].
    destruct e; try discriminate.
    + split; [exact H1|]. split; [exact H2|]. constructor; [exact I | exact H3].
    + split; [exact H1|]. split; [exact H2|]. constructor; [exact I | exact H3].
Qed.

Lemma no_sleep_fives t : existsb is_sleep t = false -> Forall sleeps_five t.
Proof.
  induction t as [|e t IH]; cbn; auto.
  intros H. apply orb_false_iff in H as [He Ht]. constructor; auto.
  destruct e; try discriminate; exact I.
Qed.

Lemma handler_lines_calm c : calm (handler_lines c).
Proof.
  destruct c as [| |e]; try reflexivity. cbn. destruct (transient e); reflexivity.
Qed.

Lemma retries_left_lines_calm r : calm (retries_left_lines r).
Proof. unfold retries_left_lines. destruct (Nat.eqb r 0); reflexivity. Qed.

Lemma command_error_line_calm e : calm [command_error_line e].
Proof. destruct e; reflexivity. Qed.

(** A loop calls no sub-step more often than it has retries, and sleeps
    five seconds at most that often. *)
Lemma while_retries_bounds (body : M W unit) n l w c l' w' t :
  (forall l w cb l1 w1 tb, body l w = (cb, l1, w1, tb) ->
     existsb is_sleep tb = false /\ forall s, count (is_call_of s) tb <= 1) ->
  while_retries body n l w = (c, l', w', t) ->
  exists k, c = Norm k /\
    ((forall s, count (is_call_of s) t <= n) /\ count is_sleep t <= n /\
     Forall sleeps_five t).
Proof.
  intros Hb. revert n l w c l' w' t.
  apply (@while_retries_run _ body
           (fun n _ _ _ t => (forall s, count (is_call_of s) t <= n) /\
                             count is_sleep t <= n /\ Forall sleeps_five t)).
  - cbn. repeat split; auto.
  - intros r l0 w0 cb l1 w1 tb E _.
    destruct (Hb _ _ _ _ _ _ E) as [Hs Hc].
    destruct (calm_bounds (handler_lines_calm cb)) as (H1 & H2 & H3).
    repeat split.
    + intros s. rewrite count_app, H1. specialize (Hc s). lia.
    + rewrite count_app, H2, (count_none _ _ Hs). lia.
    + apply Forall_app. split; [now apply no_sleep_fives | exact H3].
  - intros r l0 w0 cb l1 w1 tb k l2 w2 t2 E _ _ (IH1 & IH2 & IH3).
    destruct (Hb _ _ _ _ _ _ E) as [Hs Hc].
    destruct (calm_bounds (handler_lines_calm cb)) as (H1 & H2 & H3).
    destruct (calm_bounds (retries_left_lines_calm r)) as (R1 & R2 & R3).
    repeat split.
    + intros s. rewrite !count_app, H1.
      change (EvSleep 5 :: retries_left_lines r) with ([EvSleep 5] ++ retries_left_lines r).
      rewrite count_app, R1. cbn. specialize (Hc s). specialize (IH1 s). lia.
    + rewrite !count_app, H2, (count_none _ _ Hs).
      change (EvSleep 5 :: retries_left_lines r) with ([EvSleep 5] ++ retries_left_lines r).
      rewrite count_app, R2. cbn. lia.
    + apply Forall_app. split; [now apply no_sleep_fives|].
      apply Forall_app. split; [|exact IH3].
      apply Forall_app. split; [exact H3|]. constructor; [reflexivity | exact R3].
Qed.

Lemma upload_body_once node_id name b64 l w c l' w' t s :
  upload_body env node_id name b64 l w = (c, l', w', t) ->
  count (is_call_of s) t <= 1.
Proof.
  intros H. unfold upload_body in H. run_body H.
  all: destruct s; cbn; lia.
Qed.

Lemma activate_body_once l w c l' w' t s :
  activate_body env l w = (c, l', w', t) ->
  count (is_call_of s) t <= 1.
Proof.
  intros H. unfold activate_body in H. run_body H.
  all: destruct s; cbn; lia.
Qed.

Lemma upload_loop_bounds node_id name b64 n l w c l' w' t :
  while_retries (upload_body env node_id name b64) n l w = (c, l', w', t) ->
  (forall s, count (is_call_of s) t <= n) /\ count is_sleep t <= n /\
  Forall sleeps_five t.
Proof.
  intros H. eapply while_retries_bounds in H; [destruct H as (k & _ & H); exact H|].
  intros l0 w0 cb l1 w1 tb E. split.
  - apply (@sat_run _ _ _ _ _ _ _ _ _ (upload_body_exit env node_id name b64) E).
  - intros s. eapply upload_body_once; eauto.
Qed.

Lemma activate_loop_bounds n l w c l' w' t :
  while_retries (activate_body env) n l w = (c, l', w', t) ->
  (forall s, count (is_call_of s) t <= n) /\ count is_sleep t <= n /\
  Forall sleeps_five t.
Proof.
  intros H. eapply while_retries_bounds in H; [destruct H as (k & _ & H); exact H|].
  intros l0 w0 cb l1 w1 tb E. split.
  - apply (@sat_run _ _ _ _ _ _ _ _ _ (activate_body_exit env) E).
  - intros s. eapply activate_body_once; eauto.
Qed.

Lemma no_call_count s t : no_call_of s t -> count (is_call_of s) t = 0.
Proof. apply count_none. Qed.

Lemma after_upload_bounds l w rest :
  after_upload_shape env l w rest ->
  (forall s, count (is_call_of s) rest <= MAX_HTTP_CONNECTION_RETRIES) /\
  (forall s, in_activate_phase s = false -> count (is_call_of s) rest = 0) /\
  count is_sleep rest <= MAX_HTTP_CONNECTION_RETRIES /\
  Forall sleeps_five rest.
Proof.
  intros Hs. pose proof (after_upload_facts Hs) as (Hw & _).
  split; [|split; [intros s Hp; apply no_call_count; now apply Hw|]].
  - destruct Hs as [[Hn ->]|[Hn [(e & Ha & ->)|[[Ha ->]|[(Ha & Hj & ->)
      |(Ha & Hj & k & l2 & w2 & tB & E & ->)]]]]].
    + intros s. unfold MAX_HTTP_CONNECTION_RETRIES in *; cbn in *; lia.
    + intros s. rewrite (proj1 (calm_bounds (command_error_line_calm e))). lia.
    + intros s. unfold MAX_HTTP_CONNECTION_RETRIES in *; cbn in *; lia.
    + intros s. change ([EvLog Info [Lit "Upload OTA Firmware Image Request...Success"];
                          command_error_line TypeError])
        with ([EvLog Info [Lit "Upload OTA Firmware Image Request...Success"]]
              ++ [command_error_line TypeError]).
      unfold MAX_HTTP_CONNECTION_RETRIES in *; cbn in *; lia.
    + intros s. pose proof E as EE; apply activate_loop_bounds in EE; destruct EE as (H1 & _).
      rewrite !count_app, (proj1 (calm_bounds (final_lines_calm l2))).
      specialize (H1 s). unfold MAX_HTTP_CONNECTION_RETRIES in *; cbn in *; lia.
  - destruct Hs as [[Hn ->]|[Hn [(e & Ha & ->)|[[Ha ->]|[(Ha & Hj & ->)
      |(Ha & Hj & k & l2 & w2 & tB & E & ->)]]]]].
    + split; [unfold MAX_HTTP_CONNECTION_RETRIES in *; cbn in *; lia | repeat constructor].
    + destruct (calm_bounds (command_error_line_calm e)) as (_ & H2 & H3).
      rewrite H2. split; [lia | exact H3].
    + split; [unfold MAX_HTTP_CONNECTION_RETRIES in *; cbn in *; lia | repeat constructor].
    + split; [unfold MAX_HTTP_CONNECTION_RETRIES in *; cbn in *; lia | repeat constructor].
    + pose proof E as EE; apply activate_loop_bounds in EE; destruct EE as (_ & H2 & H3).
      destruct (calm_bounds (final_lines_calm l2)) as (_ & F2 & F3).
      split.
      * rewrite !count_app, F2. unfold MAX_HTTP_CONNECTION_RETRIES in *; cbn in *; lia.
      * apply Forall_app. split; [repeat constructor|].
        apply Forall_app. split; assumption.
Qed.

Lemma image_bounds node_id path w t :
  image_shape env node_id path w t ->
  (forall s, count (is_call_of s) t <= MAX_HTTP_CONNECTION_RETRIES) /\
  count (is_call_of GetCwd) t = 0 /\
  count is_sleep t <= 2 * MAX_HTTP_CONNECTION_RETRIES /\
  Forall sleeps_five t.
Proof.
  intros Hi. split; [|split; [apply no_call_count; now apply image_no_getcwd with (1 := Hi)|]].
  - destruct Hi as [(e & w1 & _ & ->)|(bs & w1 & k & l1 & w2 & tA & rest & Er & E & Hs & ->)].
    + intros s. change ([EvCall (c_open_read path) (Raise e); command_error_line e])
        with ([EvCall (c_open_read path) (Raise e)] ++ [command_error_line e]).
      rewrite count_app, (proj1 (calm_bounds (command_error_line_calm e))).
      unfold MAX_HTTP_CONNECTION_RETRIES. destruct s; cbn; lia.
    + pose proof E as EE; apply upload_loop_bounds in EE; destruct EE as (A1 & _).
      destruct (after_upload_bounds Hs) as (B1 & B0 & _).
      pose proof (fun s Hp => no_call_count (@upload_loop_only _ _ _ _ _ _ _ _ _ _ _ _ E s Hp))
        as A0.
      intros s.
      change (EvCall (c_open_read path) (Ok (RBytes bs)) :: tA ++ rest)
        with ([EvCall (c_open_read path) (Ok (RBytes bs))] ++ tA ++ rest).
      rewrite !count_app. specialize (A1 s). specialize (B1 s).
      pose proof (A0 s) as A0s. pose proof (B0 s) as B0s.
      unfold MAX_HTTP_CONNECTION_RETRIES in *.
      destruct s; cbn in *;
        try specialize (A0s eq_refl); try specialize (B0s eq_refl); lia.
  - destruct Hi as [(e & w1 & _ & ->)|(bs & w1 & k & l1 & w2 & tA & rest & Er & E & Hs & ->)].
    + destruct (calm_bounds (command_error_line_calm e)) as (_ & H2 & H3).
      split.
      * change ([EvCall (c_open_read path) (Raise e); command_error_line e])
          with ([EvCall (c_open_read path) (Raise e)] ++ [command_error_line e]).
        rewrite count_app, H2. unfold MAX_HTTP_CONNECTION_RETRIES in *; cbn in *; lia.
      * constructor; [exact I | exact H3].
    + pose proof E as EE; apply upload_loop_bounds in EE; destruct EE as (_ & A2 & A3).
      destruct (after_upload_bounds Hs) as (_ & _ & B2 & B3).
      split.
      * change (EvCall (c_open_read path) (Ok (RBytes bs)) :: tA ++ rest)
          with ([EvCall (c_open_read path) (Ok (RBytes bs))] ++ tA ++ rest).
        rewrite !count_app. unfold MAX_HTTP_CONNECTION_RETRIES in *; cbn in *; lia.
      * constructor; [exact I|]. apply Forall_app. split; assumption.
Qed.

(** X23. A run of [ota_upgrade] makes each of its calls, the upload
    included, at most [MAX_HTTP_CONNECTION_RETRIES] times, and it sleeps at
    most twice that often, five seconds each time. *)
Theorem bounded_effort vars w :
  (forall s, count (is_call_of s) (trace_of env vars w) <= MAX_HTTP_CONNECTION_RETRIES) /\
  count is_sleep (trace_of env vars w) <= 2 * MAX_HTTP_CONNECTION_RETRIES /\
  Forall sleeps_five (trace_of env vars w).
Proof.
  destruct (trace_of_shape env vars w) as [_ Hs].
  destruct Hs as [(e & _ & ->)|(node_id & p & _ &
    [[Hp Hi]|[_ [(e & w1 & _ & ->)|(cwd & w1 & t' & Hc & Hi & ->)]]])].
  - destruct (calm_bounds (command_error_line_calm e)) as (H1 & H2 & H3).
    rewrite H2. split; [intros s; rewrite H1; lia|]. split; [lia | exact H3].
  - destruct (image_bounds Hi) as (H1 & _ & H2 & H3). auto.
  - destruct (calm_bounds (command_error_line_calm e)) as (H1 & H2 & H3).
    change ([EvCall c_getcwd (Raise e); command_error_line e])
      with ([EvCall c_getcwd (Raise e)] ++ [command_error_line e]).
    split; [|split].
    + intros s. rewrite count_app, H1. unfold MAX_HTTP_CONNECTION_RETRIES.
      destruct s; cbn; lia.
    + rewrite count_app, H2. unfold MAX_HTTP_CONNECTION_RETRIES in *; cbn in *; lia.
    + constructor; [exact I | exact H3].
  - destruct (image_bounds Hi) as (H1 & H0 & H2 & H3).
    change (EvCall c_getcwd (Ok (RStr cwd)) :: t')
      with ([EvCall c_getcwd (Ok (RStr cwd))] ++ t').
    split; [|split].
    + intros s. rewrite count_app. specialize (H1 s).
      unfold MAX_HTTP_CONNECTION_RETRIES in *.
      destruct s; cbn in *; lia.
    + rewrite count_app. unfold MAX_HTTP_CONNECTION_RETRIES in *; cbn in *; lia.
    + constructor; [exact I | exact H3].
Qed.

Lemma no_activate_calls t :
  (forall s, in_activate_phase s = true -> no_call_of s t) ->
  existsb is_activate_call t = false.
Proof.
  unfold no_call_of. induction t as [|e t IH]; cbn; auto.
  intros H. rewrite IH.
  - rewrite orb_false_r. destruct e as [c r| | |]; cbn; auto.
    destruct (in_activate_phase (step_of c)) eqn:E; auto.
    specialize (H _ E). cbn in H. now rewrite step_eqb_refl in H.
  - intros s Hs. specialize (H s Hs). now apply orb_false_iff in H as [_ H].
Qed.

Lemma calls_within_suffixes trigger phase t :
  calls_within phase t -> after_each trigger (calls_within phase) t.
Proof.
  induction t as [|e t IH]; cbn; auto.
  intros H.
  assert (Ht : calls_within phase t).
  { intros s Hs. specialize (H s Hs). unfold no_call_of in *. cbn in H.
    now apply orb_false_iff in H as [_ H]. }
  auto.
Qed.

Lemma image_order node_id path w t :
  image_shape env node_id path w t ->
  after_each is_activate_call (calls_within in_activate_phase) t.
Proof.
  intros [(e & w1 & _ & ->)|(bs & w1 & k & l1 & w2 & tA & rest & Er & E & Hs & ->)].
  - apply after_each_none. destruct e; reflexivity.
  - destruct (after_upload_facts Hs) as (Hw & _).
    change (EvCall (c_open_read path) (Ok (RBytes bs)) :: tA ++ rest)
      with ([EvCall (c_open_read path) (Ok (RBytes bs))] ++ tA ++ rest).
    apply after_each_app_none; [reflexivity|].
    apply after_each_app_none.
    + apply no_activate_calls. intros s Hp.
      eapply upload_loop_only; eauto. now destruct s.
    + now apply calls_within_suffixes.
Qed.

(** X24. The two phases of [ota_upgrade] do not interleave: once a call of
    the activation phase is made, no call of the upload phase follows, and
    the image is not read again. *)
Theorem activation_follows_upload vars w :
  after_each is_activate_call (calls_within in_activate_phase) (trace_of env vars w).
Proof.
  destruct (trace_of_shape env vars w) as [_ Hs].
  destruct Hs as [(e & _ & ->)|(node_id & p & _ &
    [[Hp Hi]|[_ [(e & w1 & _ & ->)|(cwd & w1 & t' & Hc & Hi & ->)]]])].
  - apply after_each_none. destruct e; reflexivity.
  - eapply image_order; eauto.
  - apply after_each_none. destruct e; reflexivity.
  - cbn. split; [discriminate|]. eapply image_order; eauto.
Qed.

End MoreOnRuns.

(** ** What the activation phase is given *)

Lemma made_by_more t1 t t2 s v : made_by t s v -> made_by (t1 ++ t ++ t2) s v.
Proof.
  intros (c & o & Hin & Hs & Hv). exists c, o. split; auto.
  apply in_or_app. right. apply in_or_app. now left.
Qed.

Lemma service_found_more t1 t t2 cfg name :
  service_found t cfg name -> service_found (t1 ++ t ++ t2) cfg name.
Proof.
  intros (c & Hin & Hs). exists c. split; auto.
  apply in_or_app. right. apply in_or_app. now left.
Qed.

Lemma handed_over_refl l : handed_over l l [].
Proof. unfold handed_over. auto. Qed.

Lemma handed_over_trans l l1 l2 t1 mid t2 :
  handed_over l l1 t1 -> handed_over l1 l2 t2 -> handed_over l l2 (t1 ++ mid ++ t2).
Proof.
  intros (A1 & A2 & A3) (B1 & B2 & B3). unfold handed_over. split; [|split].
  - destruct B1 as [B1|B1].
    + rewrite B1. destruct A1 as [A1|A1]; [now left|right].
      apply (@made_by_more [] t1 (mid ++ t2)). exact A1.
    + right. rewrite app_assoc. apply (@made_by_more (t1 ++ mid) t2 []) in B1.
      now rewrite app_nil_r in B1.
  - destruct B2 as [B2|B2].
    + rewrite B2. destruct A2 as [A2|A2]; [now left|right].
      apply (@made_by_more [] t1 (mid ++ t2)). exact A2.
    + right. rewrite app_assoc. apply (@made_by_more (t1 ++ mid) t2 []) in B2.
      now rewrite app_nil_r in B2.
  - destruct B3 as [[B3 B4]|B3].
    + rewrite B3, B4. destruct A3 as [A3|A3]; [now left|right].
      apply (@service_found_more [] t1 (mid ++ t2)). exact A3.
    + right. rewrite app_assoc. apply (@service_found_more (t1 ++ mid) t2 []) in B3.
      now rewrite app_nil_r in B3.
Qed.

Lemma Forall_lines (P : event -> Prop) t :
  (forall e, is_call e = false -> P e) -> existsb is_call t = false -> Forall P t.
Proof.
  intros HP. induction t as [|e t IH]; cbn; auto.
  intros H. apply orb_false_iff in H as [He Ht]. constructor; auto.
Qed.

Lemma activates_with_line l e : is_call e = false -> activates_with l e.
Proof. destruct e; cbn; auto. discriminate. Qed.

Lemma starts_with_url_line v e : is_call e = false -> starts_with_url_of v e.
Proof. destruct e; cbn; auto. discriminate. Qed.

Lemma fed_by_other t e : is_activate_call e = false -> fed_by t e.
Proof. destruct e as [[] ?| | |]; cbn; auto; discriminate. Qed.

Lemma Forall_fed_by_other T t : existsb is_activate_call t = false -> Forall (fed_by T) t.
Proof.
  induction t as [|e t IH]; cbn; auto.
  intros H. apply orb_false_iff in H as [He Ht]. constructor; auto.
  now apply fed_by_other.
Qed.

Section Flow.
Variable W : Type.
Variable env : collab W.

Lemma activate_body_flow l w c l' w' t :
  activate_body env l w = (c, l', w', t) ->
  same_hand_over l l' /\
  Forall (activates_with l) t /\ Forall (starts_with_url_of (response l)) t.
Proof.
  intros H. unfold activate_body in H. run_body H.
  all: unfold same_hand_over; cbn.
  all: repeat match goal with |- _ /\ _ => split end; try reflexivity.
  all: repeat constructor; cbn; auto.
Qed.

Lemma activate_loop_flow n l w c l' w' t :
  while_retries (activate_body env) n l w = (c, l', w', t) ->
  exists k, c = Norm k /\
    (same_hand_over l l' /\
     Forall (activates_with l) t /\ Forall (starts_with_url_of (response l)) t).
Proof.
  revert n l w c l' w' t.
  apply (@while_retries_run _ (activate_body env)
           (fun _ l _ l' t =>
              same_hand_over l l' /\
              Forall (activates_with l) t /\ Forall (starts_with_url_of (response l)) t)).
  - intros l. unfold same_hand_over. auto 10.
  - intros r l w cb l1 w1 tb E _.
    destruct (activate_body_flow _ _ E) as (Hs & Ha & Hu).
    split; [exact Hs|]. split; apply Forall_app; split; auto.
    + apply Forall_lines; [apply activates_with_line | apply handler_lines_no_call].
    + apply Forall_lines; [apply starts_with_url_line | apply handler_lines_no_call].
  - intros r l w cb l1 w1 tb k l2 w2 t2 E _ _ (IHs & IHa & IHu).
    destruct (activate_body_flow _ _ E) as (Hs & Ha & Hu).
    assert (Heq : forall e, activates_with l1 e -> activates_with l e).
    { destruct Hs as (H1 & H2 & H3 & H4 & H5).
      intros [[] ?| | |]; cbn; auto; rewrite ?H1, ?H2, ?H3, ?H4; auto. }
    assert (Hr : response l1 = response l) by apply Hs.
    split; [|split].
    + unfold same_hand_over in *.
      destruct Hs as (H1 & H2 & H3 & H4 & H5). destruct IHs as (I1 & I2 & I3 & I4 & I5).
      repeat split; congruence.
    + apply Forall_app. split; auto. apply Forall_app. split.
      * apply Forall_lines; [apply activates_with_line | apply between_no_call].
      * eapply Forall_impl; [exact Heq | exact IHa].
    + apply Forall_app. split; auto. apply Forall_app. split.
      * apply Forall_lines; [apply starts_with_url_line | apply between_no_call].
      * now rewrite <- Hr.
Qed.

Lemma upload_body_hands_over node_id name b64 l w c l' w' t :
  upload_body env node_id name b64 l w = (c, l', w', t) ->
  handed_over l l' t /\ (settled l -> ready l' /\ (goes_on c = true -> settled l')).
Proof.
  intros H. unfold upload_body in H. run_body H.
  all: unfold handed_over, settled, ready, made_by, service_found; cbn.
  all: split;
    [|bool_finish; intros [Hr Hn]; try (specialize (Hr eq_refl));
      try (specialize (Hn eq_refl)); try discriminate;
      repeat split; try discriminate; intuition congruence].
  all: repeat match goal with |- _ /\ _ => split end.
  all: first
    [ left; solve [auto]
    | right; eexists _, _; split; [|split]; [ | | reflexivity];
      [solve [repeat first [left; reflexivity | right]] | reflexivity]
    | right; eexists; split;
      [solve [repeat first [left; reflexivity | right]] | reflexivity] ].
Qed.

Lemma handed_over_lines l l' t u :
  handed_over l l' t -> handed_over l l' (t ++ u).
Proof.
  intros H. pose proof (handed_over_trans u H (handed_over_refl l')) as H'.
  now rewrite app_nil_r in H'.
Qed.

Lemma upload_loop_hands_over node_id name b64 n l w c l' w' t :
  while_retries (upload_body env node_id name b64) n l w = (c, l', w', t) ->
  exists k, c = Norm k /\ (settled l -> handed_over l l' t /\ ready l').
Proof.
  revert n l w c l' w' t.
  apply (@while_retries_run _ (upload_body env node_id name b64)
           (fun _ l _ l' t => settled l -> handed_over l l' t /\ ready l')).
  - intros l Hl. split; [apply handed_over_refl | apply Hl].
  - intros r l w cb l1 w1 tb E _ Hl.
    destruct (upload_body_hands_over _ _ _ _ _ E) as (Hh & Hr).
    split; [now apply handed_over_lines | exact (proj1 (Hr Hl))].
  - intros r l w cb l1 w1 tb k l2 w2 t2 E Hg _ IH Hl.
    destruct (upload_body_hands_over _ _ _ _ _ E) as (Hh & Hr).
    destruct (Hr Hl) as (_ & Hs). destruct (IH (Hs Hg)) as (Hh2 & Hr2).
    split; [|exact Hr2]. exact (handed_over_trans _ Hh Hh2).
Qed.

Lemma settled_all_None : settled all_None.
Proof. unfold settled, ready. cbn. split; discriminate. Qed.

Lemma activate_call_is_call e : is_activate_call e = true -> is_call e = true.
Proof. destruct e; cbn; auto. Qed.

Lemma lines_fed T t : existsb is_call t = false -> Forall (fed_by T) t.
Proof.
  intros H. apply Forall_fed_by_other.
  eapply existsb_impl; [apply activate_call_is_call | exact H].
Qed.

Lemma uploaded_url_more t1 t t2 url : uploaded_url t url -> uploaded_url (t1 ++ t ++ t2) url.
Proof.
  intros (c & st & resp & Hin & Hs & Hu). exists c, st, resp. split; auto.
  apply in_or_app. right. apply in_or_app. now left.
Qed.

(** What the upload loop hands over when the upload is accepted. *)
Lemma upload_loop_gives node_id name b64 k l1 w w2 tA :
  while_retries (upload_body env node_id name b64) MAX_HTTP_CONNECTION_RETRIES all_None w
  = (Norm k, l1, w2, tA) ->
  upload_accepted l1 = Ok true ->
  made_by tA NewService (service_obj l1) /\ made_by tA NewNode (node_object l1) /\
  service_found tA (service_config l1) (service_name l1) /\
  (forall url, subscript (response l1) "image_url" = Ok url -> uploaded_url tA url).
Proof.
  intros E Ha.
  destruct (upload_loop_hands_over _ _ _ _ _ _ E) as (k' & _ & Hh).
  destruct (Hh settled_all_None) as ((H1 & H2 & H3) & Hr).
  destruct (accepted_status _ Ha) as (Hst & _).
  assert (Hc : cached l1 UploadImage = true) by (cbn; now rewrite Hst).
  destruct (Hr Hc) as (Tso & Tno & Tcfg).
  split; [|split; [|split]].
  - destruct H1 as [H1|H1]; auto. rewrite H1 in Tso. discriminate.
  - destruct H2 as [H2|H2]; auto. rewrite H2 in Tno. discriminate.
  - destruct H3 as [[H3 _]|H3]; auto. rewrite H3 in Tcfg. discriminate.
  - intros url Hu.
    destruct (@upload_loop_link _ _ _ _ _ _ _ _ _ _ _ _ E) as (_ & [[Hs _]|(c0 & Hin & Hc0)] & _).
    + rewrite Hs in Hst. discriminate.
    + exists c0, (status l1), (response l1). auto.
Qed.

Lemma after_upload_fed node_id name b64 k l1 w w2 tA pre rest :
  while_retries (upload_body env node_id name b64) MAX_HTTP_CONNECTION_RETRIES all_None w
  = (Norm k, l1, w2, tA) ->
  after_upload_shape env l1 w2 rest ->
  Forall (fed_by (pre ++ tA ++ rest)) rest.
Proof.
  intros E Hs.
  destruct Hs as [[Hn ->]|[Hn [(e & Ha & ->)|[[Ha ->]|[(Ha & Hj & ->)
    |(Ha & Hj & k2 & l2 & w3 & tB & EB & ->)]]]]].
  - apply lines_fed. reflexivity.
  - apply lines_fed. cbn. now rewrite command_error_line_call.
  - apply lines_fed. reflexivity.
  - apply lines_fed. reflexivity.
  - destruct (upload_loop_gives _ _ _ _ E Ha) as (Gso & Gno & Gsv & Gurl).
    destruct (activate_loop_flow _ _ _ EB) as (k' & _ & _ & Hact & Hurl).
    set (T := pre ++ tA ++ upload_done_lines l1 ++ tB ++ final_lines l2).
    assert (Mso : made_by T NewService (service_obj l1)) by now apply made_by_more.
    assert (Mno : made_by T NewNode (node_object l1)) by now apply made_by_more.
    assert (Msv : service_found T (service_config l1) (service_name l1))
      by now apply service_found_more.
    assert (Murl : forall url, subscript (response l1) "image_url" = Ok url ->
                               uploaded_url T url).
    { intros url Hu. apply uploaded_url_more. auto. }
    apply Forall_app. split; [apply lines_fed; reflexivity|].
    apply Forall_app. split; [|apply lines_fed; apply final_lines_no_call].
    apply Forall_forall. intros e Hin.
    rewrite Forall_forall in Hact, Hurl.
    specialize (Hact _ Hin). specialize (Hurl _ Hin).
    destruct e as [[] r| | |]; cbn in Hact, Hurl |- *; auto.
    + destruct Hact as (-> & ->). split; eauto.
    + now subst.
    + destruct Hact as (-> & -> & ->). repeat split; eauto.
    + destruct Hact as (-> & -> & ->). repeat split; eauto.
Qed.

Lemma image_fed node_id path w t :
  image_shape env node_id path w t -> Forall (fed_by t) t.
Proof.
  intros [(e & w1 & _ & ->)|(bs & w1 & k & l1 & w2 & tA & rest & Er & E & Hs & ->)].
  - apply Forall_fed_by_other. cbn. destruct e; reflexivity.
  - change (EvCall (c_open_read path) (Ok (RBytes bs)) :: tA ++ rest)
      with ([EvCall (c_open_read path) (Ok (RBytes bs))] ++ tA ++ rest).
    apply Forall_app. split; [apply Forall_fed_by_other; reflexivity|].
    apply Forall_app. split.
    + apply Forall_fed_by_other. apply no_activate_calls. intros s Hp.
      eapply upload_loop_only; eauto. now destruct s.
    + eapply after_upload_fed; eauto.
Qed.

Lemma fed_by_later e0 t e : fed_by t e -> fed_by (e0 :: t) e.
Proof.
  assert (Hm : forall s v, made_by t s v -> made_by (e0 :: t) s v).
  { intros s v (c & o & Hin & H). exists c, o. split; [now right | exact H]. }
  assert (Hf : forall a b, service_found t a b -> service_found (e0 :: t) a b).
  { intros a b (c & Hin & H). exists c. split; [now right | exact H]. }
  assert (Hu : forall u, uploaded_url t u -> uploaded_url (e0 :: t) u).
  { intros u (c & st & resp & Hin & H). exists c, st, resp. split; [now right | exact H]. }
  destruct e as [[] r| | |]; cbn; auto.
  - intros (H1 & n & H2). eauto.
  - intros (H1 & H2 & (cfg & H3) & H4). repeat split; eauto.
  - intros (H1 & H2 & (cfg & H3)). repeat split; eauto.
Qed.

(** X25. The activation phase works on what the upload phase obtained:
    each of its calls is made on the service object that [Service()]
    returned and on the node that [Node(...)] returned, with the service
    configuration or name that service discovery returned; and the URL that
    [start_ota] sends to the node is the [image_url] of the response that an
    upload returned. *)
Theorem activation_is_fed_by_upload vars w :
  Forall (fed_by (trace_of env vars w)) (trace_of env vars w).
Proof.
  destruct (trace_of_shape env vars w) as [_ Hs].
  destruct Hs as [(e & _ & ->)|(node_id & p & _ &
    [[Hp Hi]|[_ [(e & w1 & _ & ->)|(cwd & w1 & t' & Hc & Hi & ->)]]])].
  - apply Forall_fed_by_other. cbn. destruct e; reflexivity.
  - eapply image_fed; eauto.
  - apply Forall_fed_by_other. cbn. destruct e; reflexivity.
  - constructor; [exact I|].
    eapply Forall_impl; [apply fed_by_later | eapply image_fed; eauto].
Qed.

End Flow.

(** ** The other commands, run *)

Import CliRuns.

(** Two nodes: both are asked, in the order of the dictionary, and both ids
    are printed. *)
Lemma get_nodes_witness :
  Cli.prints (Cli.said (Cli.get_nodes cloud PNone
    [Ok (RObj (Obj 1)); Ok (RVal (PDict two_nodes));
     Ok (RVal (PStr "N1")); Ok (RVal (PStr "N2"))]))
  = [Cli.Print [StrOf (PStr "N1")]; Cli.Print [StrOf (PStr "N2")]].
Proof.
  destruct (proj2 (proj2 (proj2 (get_nodes_outcome cloud PNone
    [Ok (RObj (Obj 1)); Ok (RVal (PDict two_nodes));
     Ok (RVal (PStr "N1")); Ok (RVal (PStr "N2"))])))
    (Obj 1) _ two_nodes _ eq_refl eq_refl) as (H & _).
  - discriminate.
  - repeat constructor; cbn; intuition discriminate.
  - exact H.
Defined.

(** Data on the command line: decoded once the whitespace is deleted, and
    sent to the node as decoded. *)
Lemma set_params_data_witness :
  Cli.result (Cli.set_params cloud (PDict (set_data (PStr "[1, 2]"))) set_params_answers)
  = Cli.Returns PNone /\
  In (Cli.Call (Cli.r_set_node_params (Obj 2) (PList [PInt 1; PInt 2]))
        (Cli.Gives (RVal (PDict [("status", PStr "success")]))))
     (Cli.said (Cli.set_params cloud (PDict (set_data (PStr "[1, 2]"))) set_params_answers)) /\
  forall n x ans,
    In (Cli.Call (Cli.r_set_node_params n x) ans)
       (Cli.said (Cli.set_params cloud (PDict (set_data (PStr "[1, 2]")))
                    set_params_answers)) ->
    x = PList [PInt 1; PInt 2].
Proof.
  destruct (proj2 (proj2 (@set_params_data _ cloud (set_data (PStr "[1, 2]")) "N1"
    set_params_answers eq_refl "[1, 2]" eq_refl)) (PList [PInt 1; PInt 2]) eq_refl)
    as (H1 & _ & H2).
  split; [exact H1|]. split; [|exact H2].
  vm_compute. repeat first [left; reflexivity | right].
Defined.

(** A file that does not exist: nothing is called after [exists]. *)
Lemma set_params_file_witness :
  Cli.result (Cli.set_params cloud
                (PDict [("nodeid", PStr "N1"); ("data", PNone);
                        ("filepath", PStr "/tmp/params.json")])
                [Ok (RVal (PBool false))]) = Cli.Returns PNone.
Proof.
  destruct (proj1 (@set_params_file _ cloud
    [("nodeid", PStr "N1"); ("data", PNone); ("filepath", PStr "/tmp/params.json")]
    "N1" [Ok (RVal (PBool false))] eq_refl "/tmp/params.json" eq_refl eq_refl)
    [] eq_refl) as (H & _).
  exact H.
Defined.

(** Without the key ['data']. *)
Lemma set_params_unbound_witness :
  Cli.result (Cli.set_params cloud (PDict [("nodeid", PStr "N1")]) [])
  = Cli.Raises Cli.UnboundLocalError.
Proof.
  destruct (proj1 (@set_params_unbound _ cloud [("nodeid", PStr "N1")] "N1" [] eq_refl)
              eq_refl) as (H & _).
  exact H.
Defined.

(** The URL of these runs, asked for once. *)
Lemma get_mqtt_host_request_witness :
  exists ans rest,
    Cli.said (Cli.get_mqtt_host cloud PNone [Ok (RStr "{mqtt_host}")]) =
      Cli.Log Info [Lit "Getting MQTT Host endpoint."]
      :: Cli.Log Debug [Lit "Get MQTT Host request url : https://api.example.com/mqtt_host"]
      :: Cli.Call (Cli.r_requests_get "https://api.example.com/mqtt_host"
                     (PStr "server_cert/server_cert.pem")) ans :: rest /\
    existsb Cli.is_cloud_call rest = false.
Proof.
  apply (proj1 (proj2 (get_mqtt_host_request cloud PNone [Ok (RStr "{mqtt_host}")]))).
  discriminate.
Defined.

(** A TLS failure of the request. *)
Lemma get_mqtt_host_failure_witness :
  Cli.result (Cli.get_mqtt_host cloud PNone [Raise SSLError]) = Cli.Raises SSLError.
Proof.
  assert (Hv : Cli.serverconfig_VERSION cloud <> "") by discriminate.
  destruct (proj1 (get_mqtt_host_failure cloud PNone [Raise SSLError] Hv)
              Cli.requests_SSLError [] eq_refl) as (H & _).
  exact H.
Defined.

(** An answer with the key. *)
Lemma get_mqtt_host_answer_witness :
  Cli.result (Cli.get_mqtt_host cloud PNone [Ok (RStr "{mqtt_host}")])
  = Cli.Returns (PStr "mqtt.example.com").
Proof.
  assert (Hv : Cli.serverconfig_VERSION cloud <> "") by discriminate.
  destruct (proj1 (@get_mqtt_host_answer _ cloud PNone [Ok (RStr "{mqtt_host}")]
                     _ _ Hv eq_refl eq_refl)
              [("mqtt_host", PStr "mqtt.example.com")] (PStr "mqtt.example.com")
              eq_refl eq_refl) as (H & _).
  exact H.
Defined.

(** A port alone: [claim] is called on it. *)
Lemma claim_is_validated_witness :
  Cli.claimable (PStr "/dev/ttyUSB0") PNone PNone PNone /\
  Cli.result (Cli.claim_node cloud
                (claim_vars (PStr "/dev/ttyUSB0") PNone PNone PNone PNone)
                [Ok (RVal PNone)]) = Cli.Returns PNone.
Proof.
  assert (Hin : In (Cli.Call (Cli.r_claim (PStr "/dev/ttyUSB0") PNone PNone PNone PNone)
                      (Cli.Gives (RVal PNone)))
                   (Cli.said (Cli.claim_node cloud
                      (claim_vars (PStr "/dev/ttyUSB0") PNone PNone PNone PNone)
                      [Ok (RVal PNone)])))
    by (vm_compute; left; reflexivity).
  destruct (claim_is_validated _ _ _ _ _ _ _ _ _ Hin) as (_ & _ & _ & _ & _ & Hc & _ & Hr).
  split; [exact Hc | exact Hr].
Defined.

(** A flash address alone is refused, and nothing is called. *)
Lemma claim_node_exits_witness :
  (exists m, PStr "Invalid. <port> or --platform argument is needed." = PStr m /\
     Cli.refused (claim_vars PNone PNone PNone PNone (PStr "0x340000")) m /\
     Cli.said (Cli.claim_node cloud (claim_vars PNone PNone PNone PNone (PStr "0x340000")) [])
     = []) \/
  (Cli.nothing_given (claim_vars PNone PNone PNone PNone (PStr "0x340000")) /\
   exists parser,
     subscript (claim_vars PNone PNone PNone PNone (PStr "0x340000")) "parser" = Ok parser /\
     Cli.said (Cli.claim_node cloud (claim_vars PNone PNone PNone PNone (PStr "0x340000")) [])
     = [Cli.Call (Cli.r_print_help parser)
          (Cli.Gives (RVal (PStr "Invalid. <port> or --platform argument is needed.")))]) \/
  (exists port platform mac secret_key addr,
     Cli.said (Cli.claim_node cloud (claim_vars PNone PNone PNone PNone (PStr "0x340000")) [])
     = [Cli.Call (Cli.r_claim port platform mac secret_key addr)
          (Cli.Quits (PStr "Invalid. <port> or --platform argument is needed."))]).
Proof.
  apply (@claim_node_exits _ cloud (claim_vars PNone PNone PNone PNone (PStr "0x340000")) []
           (PStr "Invalid. <port> or --platform argument is needed.")).
  vm_compute. reflexivity.
Defined.

(** A MAC address and a platform other than [esp32], with a secret key. *)
Lemma claim_node_accepts_witness :
  exists ans,
    Cli.said (Cli.claim_node cloud
                (claim_vars PNone (PStr "esp32s3") (PStr "AABBCCDDEEFF") (PStr "k") PNone)
                [Raise NetworkError])
    = Cli.Call (Cli.r_claim PNone (PStr "esp32s3") (PStr "AABBCCDDEEFF") (PStr "k") PNone) ans
      :: Cli.claim_report ans /\
    Cli.result (Cli.claim_node cloud
                  (claim_vars PNone (PStr "esp32s3") (PStr "AABBCCDDEEFF") (PStr "k") PNone)
                  [Raise NetworkError])
    = Cli.claim_result ans.
Proof.
  apply (@claim_node_accepts _ cloud
           (claim_vars PNone (PStr "esp32s3") (PStr "AABBCCDDEEFF") (PStr "k") PNone)
           [Raise NetworkError]
           PNone (PStr "esp32s3") (PStr "AABBCCDDEEFF") (PStr "k") PNone);
    try reflexivity.
  right. repeat split; try reflexivity. left. reflexivity.
Defined.

(** The error that is logged when [claim] fails is the exception of [claim]. *)
Lemma claim_node_never_raises_witness :
  exists c e,
    [ExnOf NetworkError] = [ExnOf e] /\
    In (Cli.Call c (Cli.Fails e))
       (Cli.said (Cli.claim_node cloud
                    (claim_vars (PStr "/dev/ttyUSB0") PNone PNone PNone PNone)
                    [Raise NetworkError])).
Proof.
  apply (proj2 (proj2 (claim_node_never_raises cloud
           (claim_vars (PStr "/dev/ttyUSB0") PNone PNone PNone PNone)
           [Raise NetworkError]))).
  - intros key [<-|[<-|[<-|[<-|[<-|[]]]]]]; eexists; split; reflexivity.
  - eexists. reflexivity.
  - vm_compute. right. left. reflexivity.
Defined.

(** A list of numbers loses its blanks. *)
Lemma trim_data_without_letters_witness : trim_data "[1, 2]" = "[1,2]".
Proof.
  apply (@trim_data_without_letters "[1, 2]"). reflexivity.
Defined.

(** Blanks between words stay. *)
Lemma trim_data_by_letters_witness : trim_data "on off" = "on off".
Proof.
  apply (@trim_data_by_letters "on off"); reflexivity.
Defined.

(** Twelve digits pass, and so does what begins with them. *)
Lemma mac_pattern_witness :
  mac_matches "AABBCCDDEEFF" = true /\
  forall t, mac_matches ("AABBCCDDEEFF" ++ t) = true.
Proof.
  assert (H : mac_matches "AABBCCDDEEFF" = true) by reflexivity.
  split; [exact H|].
  exact (proj1 (proj1 (mac_pattern_is_a_prefix "AABBCCDDEEFF") H)).
Defined.

(** ** More runs of [ota_upgrade] *)


(** A relative path, joined to the working directory. *)
Lemma opened_path_is_absolute_witness :
  Forall opens_absolute (trace_of Offline.env (vars_N1 "fw.bin") tt).
Proof.
  apply (@opened_path_is_absolute _ Offline.env (vars_N1 "fw.bin") tt).
  intros w0 cwd w1 H. inversion H. reflexivity.
Defined.
